(** * Orchestration core of the chatbot / broadcast platform

    A shallow embedding of the four services the specification is about:

    - [whatsapp.service.js]  : [interpolateVariables], [withRetry]
    - [broadcast.service.js] : [getTargetContacts], [startCampaign],
                               [processCampaign], [pauseCampaign],
                               [resumeCampaign], [cancelCampaign]
    - [flowEngine.service.js]: the [FlowEngine] class
    - [dlq.service.js]       : the [DLQService] class, with the SQL function
                               [calculate_next_retry] of the schema

    and of the two jobs of [scheduler.service.js] that drive them:
    [checkScheduledBroadcasts], and the turn of [processDelayedFlowNodes]
    for one row.

    Conventions of the embedding.

    - Strings are sequences of code units below U+0100 ([ascii]).
    - Instants and durations are integers, in milliseconds ([Z]).
    - The persistent store is an explicit value threaded through the
      operations; a write is also appended to a trace of effects, so that
      the order of the writes and of the sends can be stated.
    - The outbound channel, the HTTP client and the coercions of the
      language that no operation of interest depends on are oracles: a
      theorem holds for every behaviour of the collaborator.
    - An [async] function is run to completion: the embedding has one
      writer, which is what the design assumes.
    - Values are the JSON values without arrays, numbers being integers;
      a statement on the text of a number keeps to the safe integers,
      which print as their decimals.  Counters and generated keys are
      natural numbers.
    - The client of the store is the one of supabase-js: a call of a
      method that it does not have is a [TypeError].
    - The wall clock advances only while a timer runs, and a timer takes
      at least one millisecond.
    - A read or a write of the store succeeds; a key that a statement
      needs to be unique is assumed so in that statement. *)

From Stdlib Require Import ZArith QArith List String Ascii Bool Arith Lia.
From Stdlib Require Import DecimalString Qround Permutation.
Import ListNotations.

Close Scope Q_scope.
Open Scope string_scope.
Open Scope nat_scope.

Set Implicit Arguments.
Set Warnings "-register-all".

(* ================================================================== *)
(** * The fragment of the language the services rely on             *)
(* ================================================================== *)

Module Js.

(** ** Completions

    A call returns, throws, or leaves the modelled fragment (a regular
    expression using a construct that the matcher below does not have). *)

Inductive Completion (A : Type) : Type :=
| Normal (a : A)
| Throw (e : string)
| Unmodelled.

Arguments Normal {A} a.
Arguments Throw {A} e.
Arguments Unmodelled {A}.

Definition bindC {A B : Type} (c : Completion A) (k : A -> Completion B)
  : Completion B :=
  match c with
  | Normal a => k a
  | Throw e => Throw e
  | Unmodelled => Unmodelled
  end.

(** ** Values *)

Inductive Value : Type :=
| VUndefined
| VNull
| VBool (b : bool)
| VNum (n : Z)                            (* integral numbers *)
| VStr (s : string)
| VObj (fields : list (string * Value)).  (* a plain object *)

(** [ToBoolean]: the falsy values are undefined, null, false, 0 and the
    empty string. *)
Definition truthy (v : Value) : bool :=
  match v with
  | VUndefined => false
  | VNull => false
  | VBool b => b
  | VNum n => negb (n =? 0)%Z
  | VStr s => negb (String.eqb s "")
  | VObj _ => true
  end.

Definition Z_to_string (n : Z) : string :=
  NilZero.string_of_int (Z.to_int n).

(** [Number.MAX_SAFE_INTEGER]: up to it in magnitude every integer is
    a number of the language, and prints as its decimal. *)
Definition max_safe_integer : Z := 9007199254740991.

(** The values that [toString] below prints as the language does:
    every value but a number beyond the safe integers. *)
Definition safe_value (v : Value) : bool :=
  match v with
  | VNum n => (Z.abs n <=? max_safe_integer)%Z
  | _ => true
  end.

(** [ToString], for the values that are [safe_value]. *)
Definition toString (v : Value) : string :=
  match v with
  | VUndefined => "undefined"
  | VNull => "null"
  | VBool true => "true"
  | VBool false => "false"
  | VNum n => Z_to_string n
  | VStr s => s
  | VObj _ => "[object Object]"
  end.

(** [a || b] *)
Definition or_else (a b : Value) : Value := if truthy a then a else b.

(** ** Plain objects used as string-keyed maps

    The association list keeps the insertion order of the keys. *)

Definition Obj : Type := list (string * Value).

Fixpoint obj_get (o : Obj) (k : string) : Value :=
  match o with
  | [] => VUndefined
  | (k', v) :: o' => if String.eqb k' k then v else obj_get o' k
  end.

Fixpoint obj_has (o : Obj) (k : string) : bool :=
  match o with
  | [] => false
  | (k', _) :: o' => String.eqb k' k || obj_has o' k
  end.

Fixpoint obj_update (o : Obj) (k : string) (v : Value) : Obj :=
  match o with
  | [] => []
  | (k', v') :: o' =>
      if String.eqb k' k then (k', v) :: o' else (k', v') :: obj_update o' k v
  end.

(** [o[k] = v]: an existing key keeps its place, a new key goes last. *)
Definition obj_set (o : Obj) (k : string) (v : Value) : Obj :=
  if obj_has o k then obj_update o k v else (o ++ [(k, v)])%list.

Definition is_digit (c : ascii) : bool :=
  let n := nat_of_ascii c in (48 <=? n) && (n <=? 57).

Definition digit_val (c : ascii) : nat := nat_of_ascii c - 48.

Fixpoint all_digits (s : string) : bool :=
  match s with
  | EmptyString => true
  | String c s' => is_digit c && all_digits s'
  end.

Fixpoint digits_val (acc : N) (s : string) : N :=
  match s with
  | EmptyString => acc
  | String c s' => digits_val (acc * 10 + N.of_nat (digit_val c)) s'
  end.

(** An array index is the canonical decimal form of an integer below
    2^32 - 1. *)
Definition array_index (k : string) : option N :=
  match k with
  | EmptyString => None
  | String c rest =>
      if all_digits k
         && (negb (Ascii.eqb c "0") || String.eqb rest "")
         && (String.length k <=? 10)
         && (digits_val 0 k <? 4294967295)%N
      then Some (digits_val 0 k) else None
  end.

Fixpoint insert_by_index (e : N * (string * Value))
  (l : list (N * (string * Value))) : list (N * (string * Value)) :=
  match l with
  | [] => [e]
  | x :: l' =>
      if (fst e <? fst x)%N then e :: x :: l' else x :: insert_by_index e l'
  end.

Fixpoint index_entries (o : Obj) : list (N * (string * Value)) :=
  match o with
  | [] => []
  | (k, v) :: o' =>
      match array_index k with
      | Some i => insert_by_index (i, (k, v)) (index_entries o')
      | None => index_entries o'
      end
  end.

(** [Object.entries]: array indices in ascending order, then the other
    keys in insertion order. *)
Definition entries (o : Obj) : list (string * Value) :=
  (map snd (index_entries o)
   ++ filter (fun kv => match array_index (fst kv) with
                        | Some _ => false
                        | None => true
                        end) o)%list.

(** [{...a, ...b}] onto an object literal [a]. *)
Definition spread_into (a b : Obj) : Obj :=
  fold_left (fun acc kv => obj_set acc (fst kv) (snd kv)) (entries b) a.

(** ** Regular expressions

    Patterns without the [u] flag, restricted to disjunctions of
    sequences of assertions and of quantified one-character atoms with
    greedy quantifiers.  Groups, classes written in a pattern source,
    escapes and lazy quantifiers are outside the fragment. *)

Inductive ClassItem : Type :=
| CiChar (c : ascii)
| CiRange (lo hi : ascii)
| CiSpace      (* \s *)
| CiDigit.     (* \d *)

Inductive CharSet : Type :=
| CsChar (c : ascii)
| CsAny                                   (* .  *)
| CsClass (neg : bool) (items : list ClassItem).

Inductive Term : Type :=
| TAssertStart                            (* ^ *)
| TAssertEnd                              (* $ *)
| TAtom (cs : CharSet) (qmin : N) (qmax : option N).

Definition Alternative : Type := list Term.
Definition Pattern : Type := list Alternative.

(** White space and line terminators below U+0100. *)
Definition is_space (c : ascii) : bool :=
  let n := nat_of_ascii c in
  ((9 <=? n) && (n <=? 13)) || (n =? 32) || (n =? 160).

Definition is_line_terminator (c : ascii) : bool :=
  let n := nat_of_ascii c in (n =? 10) || (n =? 13).

Definition class_item_matches (i : ClassItem) (c : ascii) : bool :=
  match i with
  | CiChar c' => Ascii.eqb c' c
  | CiRange lo hi =>
      (nat_of_ascii lo <=? nat_of_ascii c) && (nat_of_ascii c <=? nat_of_ascii hi)
  | CiSpace => is_space c
  | CiDigit => is_digit c
  end.

Definition cs_matches (cs : CharSet) (c : ascii) : bool :=
  match cs with
  | CsChar c' => Ascii.eqb c' c
  | CsAny => negb (is_line_terminator c)
  | CsClass neg items =>
      xorb neg (existsb (fun i => class_item_matches i c) items)
  end.

Definition below_max (cnt : N) (mx : option N) : bool :=
  match mx with
  | None => true
  | Some m => (cnt <? m)%N
  end.

(** Greedy repetition of a one-character atom, then the continuation
    [k]; gives back one repetition at a time when [k] fails.  [pos0]
    tells whether the position is the start of the input. *)
Fixpoint rep (cs : CharSet) (k : bool -> string -> option string)
  (cnt mn : N) (mx : option N) (pos0 : bool) (s : string) {struct s}
  : option string :=
  let stop := if (mn <=? cnt)%N then k pos0 s else None in
  match s with
  | EmptyString => stop
  | String c s' =>
      if below_max cnt mx && cs_matches cs c then
        match rep cs k (N.succ cnt) mn mx false s' with
        | Some r => Some r
        | None => stop
        end
      else stop
  end.

(** The input left after the first match of the sequence at the
    current position, in backtracking order. *)
Fixpoint match_terms (ts : list Term) (pos0 : bool) (s : string)
  : option string :=
  match ts with
  | [] => Some s
  | TAssertStart :: ts' => if pos0 then match_terms ts' pos0 s else None
  | TAssertEnd :: ts' =>
      match s with
      | EmptyString => match_terms ts' pos0 s
      | String _ _ => None
      end
  | TAtom cs mn mx :: ts' => rep cs (match_terms ts') 0%N mn mx pos0 s
  end.

Fixpoint match_pattern (p : Pattern) (pos0 : bool) (s : string)
  : option string :=
  match p with
  | [] => None
  | alt :: p' =>
      match match_terms alt pos0 s with
      | Some r => Some r
      | None => match_pattern p' pos0 s
      end
  end.

(** [regex.test(s)] for a pattern without flags: a match at some
    position. *)
Fixpoint search (p : Pattern) (pos0 : bool) (s : string) : bool :=
  match match_pattern p pos0 s with
  | Some _ => true
  | None =>
      match s with
      | EmptyString => false
      | String _ s' => search p false s'
      end
  end.

Definition test (p : Pattern) (s : string) : bool := search p true s.

(** [GetSubstitution] for a pattern without capture groups: [$$], [$&],
    [$`] and [$'] are the only replacement patterns that apply. *)
Fixpoint getSubstitution (matched pre post template : string) : string :=
  match template with
  | EmptyString => EmptyString
  | String c t1 =>
      if Ascii.eqb c "$" then
        match t1 with
        | EmptyString => String c EmptyString
        | String d t2 =>
            if Ascii.eqb d "$" then String "$" (getSubstitution matched pre post t2)
            else if Ascii.eqb d "&" then matched ++ getSubstitution matched pre post t2
            else if Ascii.eqb d "`" then pre ++ getSubstitution matched pre post t2
            else if Ascii.eqb d "'" then post ++ getSubstitution matched pre post t2
            else String c (getSubstitution matched pre post t1)
        end
      else String c (getSubstitution matched pre post t1)
  end.

Fixpoint take (n : nat) (s : string) : string :=
  match n, s with
  | S n', String c s' => String c (take n' s')
  | _, _ => EmptyString
  end.

(** [s.replace(/p/g, template)].  [skip] counts the characters of the
    current match that are still to be dropped, [pre] is the input
    before the current position.  After an empty match the search
    resumes one character further. *)
Fixpoint replace_from (p : Pattern) (template : string)
  (skip : nat) (pos0 : bool) (pre s : string) {struct s} : string :=
  match skip with
  | S k =>
      match s with
      | EmptyString => EmptyString
      | String c s' =>
          replace_from p template k false (pre ++ String c EmptyString) s'
      end
  | O =>
      match match_pattern p pos0 s with
      | Some rest =>
          let len := String.length s - String.length rest in
          let sub := getSubstitution (take len s) pre rest template in
          match s with
          | EmptyString => sub
          | String c s' =>
              match len with
              | O =>
                  sub ++ String c
                    (replace_from p template 0 false
                       (pre ++ String c EmptyString) s')
              | S k =>
                  sub ++ replace_from p template k false
                           (pre ++ String c EmptyString) s'
              end
          end
      | None =>
          match s with
          | EmptyString => EmptyString
          | String c s' =>
              String c
                (replace_from p template 0 false
                   (pre ++ String c EmptyString) s')
          end
      end
  end.

Definition replace_all (p : Pattern) (template s : string) : string :=
  replace_from p template 0 true EmptyString s.

(** ** Compiling a pattern source, [new RegExp(source, 'g')]

    The grammar is the one of patterns without the [u] flag, where a
    brace that does not open a well-formed quantifier is an ordinary
    character. *)

Inductive Compiled : Type :=
| CPattern (p : Pattern)
| CSyntaxError
| CUnsupported.

Fixpoint read_digits (s : string) : string * string :=
  match s with
  | EmptyString => (EmptyString, EmptyString)
  | String c s' =>
      if is_digit c then
        let (d, r) := read_digits s' in (String c d, r)
      else (EmptyString, s)
  end.

(** The text after an opening brace, when it completes a quantifier:
    [n}], [n,}] or [n,m}]. *)
Definition parse_braced (s : string) : option (N * option N * string) :=
  let (d1, r1) := read_digits s in
  if String.eqb d1 "" then None
  else
    match r1 with
    | String c r2 =>
        if Ascii.eqb c "}" then
          Some (digits_val 0 d1, Some (digits_val 0 d1), r2)
        else if Ascii.eqb c "," then
          match r2 with
          | String c' r3 =>
              if Ascii.eqb c' "}" then Some (digits_val 0 d1, None, r3)
              else
                let (d2, r4) := read_digits r2 in
                if String.eqb d2 "" then None
                else
                  match r4 with
                  | String c'' r5 =>
                      if Ascii.eqb c'' "}" then
                        Some (digits_val 0 d1, Some (digits_val 0 d2), r5)
                      else None
                  | EmptyString => None
                  end
          | EmptyString => None
          end
        else None
    | EmptyString => None
    end.

Inductive QuantResult : Type :=
| QNone
| QSome (mn : N) (mx : option N) (rest : string)
| QError
| QUnsupported.

(** A quantifier followed by [?] is lazy. *)
Definition greedy_only (mn : N) (mx : option N) (rest : string)
  : QuantResult :=
  match rest with
  | String c _ => if Ascii.eqb c "?" then QUnsupported else QSome mn mx rest
  | EmptyString => QSome mn mx rest
  end.

Definition parse_quantifier (s : string) : QuantResult :=
  match s with
  | EmptyString => QNone
  | String c r =>
      if Ascii.eqb c "*" then greedy_only 0 None r
      else if Ascii.eqb c "+" then greedy_only 1 None r
      else if Ascii.eqb c "?" then greedy_only 0 (Some 1%N) r
      else if Ascii.eqb c "{" then
        match parse_braced r with
        | Some (mn, Some mx, rest) =>
            if (mx <? mn)%N then QError else greedy_only mn (Some mx) rest
        | Some (mn, None, rest) => greedy_only mn None rest
        | None => QNone
        end
      else QNone
  end.

Definition is_quantifier_start (c : ascii) (r : string) : bool :=
  Ascii.eqb c "*" || Ascii.eqb c "+" || Ascii.eqb c "?"
  || (Ascii.eqb c "{" && match parse_braced r with
                         | Some _ => true
                         | None => false
                         end).

(** [cur] holds the terms of the current alternative and [done] the
    finished alternatives, both latest first.  Every step consumes at
    least one character, so that [fuel] above the length of the source
    is never exhausted. *)
Fixpoint parse_terms (fuel : nat) (s : string)
  (cur : list Term) (done : list Alternative) : Compiled :=
  match fuel with
  | O => CUnsupported
  | S f =>
      match s with
      | EmptyString => CPattern (rev (rev cur :: done))
      | String c r =>
          if Ascii.eqb c "|" then parse_terms f r [] (rev cur :: done)
          else if Ascii.eqb c "^" then parse_terms f r (TAssertStart :: cur) done
          else if Ascii.eqb c "$" then parse_terms f r (TAssertEnd :: cur) done
          else if Ascii.eqb c "\" || Ascii.eqb c "(" || Ascii.eqb c "["
          then CUnsupported
          else if Ascii.eqb c ")" then CSyntaxError
          else if is_quantifier_start c r then CSyntaxError
          else
            let cs := if Ascii.eqb c "." then CsAny else CsChar c in
            match parse_quantifier r with
            | QNone => parse_terms f r (TAtom cs 1 (Some 1%N) :: cur) done
            | QSome mn mx rest => parse_terms f rest (TAtom cs mn mx :: cur) done
            | QError => CSyntaxError
            | QUnsupported => CUnsupported
            end
      end
  end.

Definition compile (source : string) : Compiled :=
  parse_terms (S (String.length source)) source [] [].

(** ** Strings *)

Fixpoint prefix (p s : string) : bool :=
  match p, s with
  | EmptyString, _ => true
  | String a p', String b s' => Ascii.eqb a b && prefix p' s'
  | String _ _, EmptyString => false
  end.

(** [s.includes(p)] *)
Fixpoint includes (s p : string) : bool :=
  prefix p s
  || match s with
     | EmptyString => false
     | String _ s' => includes s' p
     end.

Definition lower_char (c : ascii) : ascii :=
  let n := nat_of_ascii c in
  if ((65 <=? n) && (n <=? 90))
     || ((192 <=? n) && (n <=? 222) && negb (n =? 215))
  then ascii_of_nat (n + 32) else c.

(** [s.toLowerCase()] *)
Fixpoint toLowerCase (s : string) : string :=
  match s with
  | EmptyString => EmptyString
  | String c s' => String (lower_char c) (toLowerCase s')
  end.

End Js.

(* ================================================================== *)
(** * whatsapp.service.js                                           *)
(* ================================================================== *)

Module WhatsApp.

Import Js.

(** [interpolateVariables(template, variables)]:
    for each entry, [result = result.replace(new RegExp(`{{${key}}}`, 'g'),
    value || '')]. *)
Fixpoint interpolate_entries (es : list (string * Value)) (result : string)
  : Completion string :=
  match es with
  | [] => Normal result
  | (key, value) :: es' =>
      match compile ("{{" ++ key ++ "}}") with
      | CPattern regex =>
          interpolate_entries es'
            (replace_all regex (toString (or_else value (VStr ""))) result)
      | CSyntaxError => Throw "Invalid regular expression"
      | CUnsupported => Unmodelled
      end
  end.

Definition interpolateVariables (template : string) (variables : Obj)
  : Completion string :=
  interpolate_entries (entries variables) template.

(** The message of the error that a send throws:
    [error.response?.data?.error?.message || fallback], where [api] is
    the message of the answer of the API when it sent one. *)
Definition send_error (api : option string) (fallback : string) : string :=
  match api with
  | Some message => if String.eqb message "" then fallback else message
  | None => fallback
  end.

End WhatsApp.

(* ================================================================== *)
(** * Effects: a state monad with exceptions                        *)
(* ================================================================== *)

Module Eff.

Import Js.

Definition M (S A : Type) : Type := S -> Completion A * S.

Definition ret {S A : Type} (a : A) : M S A := fun s => (Normal a, s).

Definition bind {S A B : Type} (m : M S A) (k : A -> M S B) : M S B :=
  fun s =>
    match m s with
    | (Normal a, s') => k a s'
    | (Throw e, s') => (Throw e, s')
    | (Unmodelled, s') => (Unmodelled, s')
    end.

Definition throw {S A : Type} (e : string) : M S A := fun s => (Throw e, s).

(** [try { body } catch (error) { handler(error) }] *)
Definition tryCatch {S A : Type} (body : M S A) (handler : string -> M S A)
  : M S A :=
  fun s =>
    match body s with
    | (Throw e, s') => handler e s'
    | r => r
    end.

Definition get {S : Type} : M S S := fun s => (Normal s, s).

Definition modify {S : Type} (f : S -> S) : M S unit :=
  fun s => (Normal tt, f s).

(** A pure computation that may throw. *)
Definition lift {S A : Type} (c : Completion A) : M S A := fun s => (c, s).

End Eff.

Declare Scope eff_scope.
Delimit Scope eff_scope with eff.
Notation "x <- m ;; k" := (Eff.bind m (fun x => k))
  (at level 61, m at next level, right associativity) : eff_scope.
Notation "m ;;; k" := (Eff.bind m (fun _ => k))
  (at level 61, right associativity) : eff_scope.

(* ================================================================== *)
(** * config.js                                                     *)
(* ================================================================== *)

Module Config.

(** The broadcast settings as read from the environment: [None] when
    the variable is unset or does not parse ([parseInt] gives NaN). *)
Record Environment : Type := {
  BROADCAST_DEFAULT_RATE_LIMIT : option Z;
  BROADCAST_FAILURE_THRESHOLD : option Z
}.

(** [parseInt(v) || d] *)
Definition or_default (v : option Z) (d : Z) : Z :=
  match v with
  | Some n => if (n =? 0)%Z then d else n
  | None => d
  end.

Definition defaultRateLimit (e : Environment) : Z :=
  or_default (BROADCAST_DEFAULT_RATE_LIMIT e) 10.

Definition failureThreshold (e : Environment) : Z :=
  or_default (BROADCAST_FAILURE_THRESHOLD e) 30.

End Config.

(* ================================================================== *)
(** * broadcast.service.js                                          *)
(* ================================================================== *)

Module Broadcast.

Import Js WhatsApp Eff.
Local Open Scope eff_scope.

(** ** The tables *)

Inductive CampaignStatus : Type :=
| Draft | Scheduled | Processing | Paused | Completed | Failed | Cancelled.

Inductive MessageStatus : Type :=
| Pending | Sent | Delivered | Read | MessageFailed.

Inductive TargetType : Type :=
| TargetAll | TargetFiltered | TargetSpecific.

Record TargetFilters : Type := {
  contact_ids : option (list string);
  tags : option (list string);
  custom_fields : option Obj
}.

Record Workspace : Type := {
  ws_id : string;
  whatsapp_phone_number_id : option string;
  whatsapp_access_token : option string
}.

Record Contact : Type := {
  c_id : string;
  c_workspace_id : string;
  c_phone : string;
  c_name : option string;
  c_email : option string;
  c_custom_fields : Obj;
  c_tags : list string;
  c_whatsapp_verified : option bool;
  c_opted_in : option bool
}.

Record Campaign : Type := {
  cp_id : string;
  cp_workspace_id : string;
  cp_message_content : string;
  cp_target_type : TargetType;
  cp_target_filters : option TargetFilters;
  cp_scheduled_at : option Z;
  cp_status : CampaignStatus;
  cp_rate_limit : option Z;
  cp_total_recipients : nat;
  cp_sent_count : nat;
  cp_failed_count : nat;
  cp_started_at : option Z;
  cp_completed_at : option Z
}.

(** A row of [broadcast_messages]; the generated key is its rank of
    insertion. *)
Record BroadcastMessage : Type := {
  bm_id : nat;
  bm_campaign_id : string;
  bm_contact_id : string;
  bm_contact_phone : string;
  bm_message_content : string;
  bm_status : MessageStatus;
  bm_sent_at : option Z;
  bm_error_message : option string
}.

Record Db : Type := {
  workspaces : list Workspace;
  contacts : list Contact;
  campaigns : list Campaign;
  messages : list BroadcastMessage
}.

(** ** Effects *)

Inductive Event : Type :=
| EvCampaignStatus (campaign : string) (st : CampaignStatus)
| EvTotalRecipients (campaign : string) (n : nat)
| EvInsertMessages (campaign : string) (n : nat)
| EvLaunchProcess (campaign : string)
| EvSendAttempt (message attempt : nat) (ok : bool)
| EvSleep (ms : Q)
| EvMessageStatus (message : nat) (st : MessageStatus)
| EvStats (campaign : string) (sent failed : nat).

(** The store, the wall clock and the effects so far, latest first.
    Only timers advance the clock. *)
Record World : Type := {
  db : Db;
  clock : Z;
  trace : list Event
}.

(** The effects in the order in which they happened. *)
Definition history (w : World) : list Event := rev (trace w).

(** The collaborators: the outcome of the [attempt]-th call of
    [sendText] for a message; for a call that fails, the message of the
    answer of the API when it sent one; and the comparison
    [(failed / (sent + failed)) * 100 > threshold] as the floating-point
    unit evaluates it. *)
Record Collaborators : Type := {
  sendOk : nat -> nat -> bool;
  apiMessage : nat -> nat -> option string;
  rateExceeds : nat -> nat -> Z -> bool
}.

(** The comparison in exact arithmetic. *)
Definition exact_rate_exceeds (failed sent : nat) (threshold : Z) : bool :=
  (threshold * Z.of_nat (sent + failed) <? 100 * Z.of_nat failed)%Z.

(** Rounding can only matter near a tie: a unit that agrees with the
    exact comparison whenever the rate is above the threshold by at
    least one part in 10^9 of a percent, or below it. *)
Definition agrees_off_ties (col : Collaborators) : Prop :=
  forall failed sent threshold,
    0 < sent + failed ->
    (((threshold * 1000000000 + 1) * Z.of_nat (sent + failed)
      <= 100 * Z.of_nat failed * 1000000000)%Z
     -> rateExceeds col failed sent threshold = true)
    /\ ((100 * Z.of_nat failed < threshold * Z.of_nat (sent + failed))%Z
        -> rateExceeds col failed sent threshold = false).

Definition emit (e : Event) : M World unit :=
  modify (fun w => {| db := db w; clock := clock w; trace := e :: trace w |}).

Definition update_db (f : Db -> Db) : M World unit :=
  modify (fun w => {| db := f (db w); clock := clock w; trace := trace w |}).

(** [new Date()] *)
Definition now : M World Z := fun w => (Normal (clock w), w).

(** [sleep(ms)] : a timer fires after at least one millisecond. *)
Definition sleep (ms : Q) : M World unit :=
  emit (EvSleep ms) ;;;
  modify (fun w => {| db := db w;
                      clock := clock w + Z.max 1 (Qfloor ms);
                      trace := trace w |}).

(** ** Queries and updates *)

Definition find_campaign (d : Db) (id : string) : option Campaign :=
  find (fun c => String.eqb (cp_id c) id) (campaigns d).

Definition find_workspace (d : Db) (id : string) : option Workspace :=
  find (fun w => String.eqb (ws_id w) id) (workspaces d).

Definition set_campaigns (d : Db) (cs : list Campaign) : Db :=
  {| workspaces := workspaces d; contacts := contacts d;
     campaigns := cs; messages := messages d |}.

Definition set_messages (d : Db) (ms : list BroadcastMessage) : Db :=
  {| workspaces := workspaces d; contacts := contacts d;
     campaigns := campaigns d; messages := ms |}.

(** [.update(...).eq('id', id)] on [broadcast_campaigns] *)
Definition update_campaign (id : string) (f : Campaign -> Campaign) (d : Db)
  : Db :=
  set_campaigns d
    (map (fun c => if String.eqb (cp_id c) id then f c else c) (campaigns d)).

(** [.update(...).eq('id', id)] on [broadcast_messages] *)
Definition update_message (id : nat) (f : BroadcastMessage -> BroadcastMessage)
  (d : Db) : Db :=
  set_messages d
    (map (fun m => if bm_id m =? id then f m else m) (messages d)).

Definition with_status (st : CampaignStatus) (started completed : option Z)
  (c : Campaign) : Campaign :=
  {| cp_id := cp_id c; cp_workspace_id := cp_workspace_id c;
     cp_message_content := cp_message_content c;
     cp_target_type := cp_target_type c;
     cp_target_filters := cp_target_filters c;
     cp_scheduled_at := cp_scheduled_at c;
     cp_status := st;
     cp_rate_limit := cp_rate_limit c;
     cp_total_recipients := cp_total_recipients c;
     cp_sent_count := cp_sent_count c;
     cp_failed_count := cp_failed_count c;
     cp_started_at := match started with
                      | Some t => Some t
                      | None => cp_started_at c
                      end;
     cp_completed_at := match completed with
                        | Some t => Some t
                        | None => cp_completed_at c
                        end |}.

Definition with_total (n : nat) (c : Campaign) : Campaign :=
  {| cp_id := cp_id c; cp_workspace_id := cp_workspace_id c;
     cp_message_content := cp_message_content c;
     cp_target_type := cp_target_type c;
     cp_target_filters := cp_target_filters c;
     cp_scheduled_at := cp_scheduled_at c;
     cp_status := cp_status c;
     cp_rate_limit := cp_rate_limit c;
     cp_total_recipients := n;
     cp_sent_count := cp_sent_count c;
     cp_failed_count := cp_failed_count c;
     cp_started_at := cp_started_at c;
     cp_completed_at := cp_completed_at c |}.

Definition with_counts (sent failed : nat) (c : Campaign) : Campaign :=
  {| cp_id := cp_id c; cp_workspace_id := cp_workspace_id c;
     cp_message_content := cp_message_content c;
     cp_target_type := cp_target_type c;
     cp_target_filters := cp_target_filters c;
     cp_scheduled_at := cp_scheduled_at c;
     cp_status := cp_status c;
     cp_rate_limit := cp_rate_limit c;
     cp_total_recipients := cp_total_recipients c;
     cp_sent_count := sent;
     cp_failed_count := failed;
     cp_started_at := cp_started_at c;
     cp_completed_at := cp_completed_at c |}.

Definition with_message_status (st : MessageStatus) (sent_at : option Z)
  (err : option string) (m : BroadcastMessage) : BroadcastMessage :=
  {| bm_id := bm_id m; bm_campaign_id := bm_campaign_id m;
     bm_contact_id := bm_contact_id m;
     bm_contact_phone := bm_contact_phone m;
     bm_message_content := bm_message_content m;
     bm_status := st;
     bm_sent_at := match sent_at with
                   | Some t => Some t
                   | None => bm_sent_at m
                   end;
     bm_error_message := match err with
                         | Some e => Some e
                         | None => bm_error_message m
                         end |}.

Definition is_pending (m : BroadcastMessage) : bool :=
  match bm_status m with
  | Pending => true
  | _ => false
  end.

Definition set_status (id : string) (st : CampaignStatus)
  (started completed : option Z) : M World unit :=
  update_db (update_campaign id (with_status st started completed)) ;;;
  emit (EvCampaignStatus id st).

(** ** [getTargetContacts] *)

Definition is_true (b : option bool) : bool :=
  match b with
  | Some true => true
  | _ => false
  end.

Definition mem_string (x : string) (l : list string) : bool :=
  existsb (String.eqb x) l.

(** [tags && filter] on text arrays *)
Definition overlaps (a b : list string) : bool :=
  existsb (fun x => mem_string x b) a.

(** [a @> b] on [jsonb] values *)
Fixpoint jsonb_contains (a b : Value) {struct b} : bool :=
  match b with
  | VUndefined => false
  | VNull => match a with VNull => true | _ => false end
  | VBool x => match a with VBool y => Bool.eqb x y | _ => false end
  | VNum x => match a with VNum y => (x =? y)%Z | _ => false end
  | VStr x => match a with VStr y => String.eqb x y | _ => false end
  | VObj fb =>
      match a with
      | VObj fa =>
          (fix all (l : list (string * Value)) : bool :=
             match l with
             | [] => true
             | (k, vb) :: l' =>
                 obj_has fa k && jsonb_contains (obj_get fa k) vb && all l'
             end) fb
      | _ => false
      end
  end.

Definition base_query (campaign : Campaign) (c : Contact) : bool :=
  String.eqb (c_workspace_id c) (cp_workspace_id campaign)
  && is_true (c_opted_in c)
  && is_true (c_whatsapp_verified c).

Definition specific_query (campaign : Campaign) (c : Contact) : bool :=
  match cp_target_type campaign, cp_target_filters campaign with
  | TargetSpecific, Some {| contact_ids := Some ids |} =>
      mem_string (c_id c) ids
  | _, _ => true
  end.

Definition filtered_query (campaign : Campaign) (c : Contact) : bool :=
  match cp_target_type campaign with
  | TargetFiltered =>
      match cp_target_filters campaign with
      | Some filters =>
          match tags filters with
          | Some (t :: ts) => overlaps (c_tags c) (t :: ts)
          | _ => true
          end
          && match custom_fields filters with
             | Some fields =>
                 forallb
                   (fun kv =>
                      jsonb_contains (VObj (c_custom_fields c)) (VObj [kv]))
                   (entries fields)
             | None => true
             end
      | None => true
      end
  | _ => true
  end.

Definition getTargetContacts (campaign : Campaign) (d : Db) : list Contact :=
  filter
    (fun c =>
       base_query campaign c
       && specific_query campaign c
       && filtered_query campaign c)
    (contacts d).

(** ** [interpolateContactVariables] *)

Definition opt_or_empty (s : option string) : Value :=
  match s with
  | Some x => or_else (VStr x) (VStr "")
  | None => VStr ""
  end.

Definition interpolateContactVariables (template : string) (contact : Contact)
  : Completion string :=
  let variables :=
    spread_into
      [("name", opt_or_empty (c_name contact));
       ("phone", or_else (VStr (c_phone contact)) (VStr ""));
       ("email", opt_or_empty (c_email contact))]
      (c_custom_fields contact) in
  interpolateVariables template variables.

(** ** [startCampaign] *)

(** [contacts.map(contact => ({ ... }))]; the keys are given at
    insertion, from [next]. *)
Fixpoint build_messages (campaign : Campaign) (next : nat) (cs : list Contact)
  : Completion (list BroadcastMessage) :=
  match cs with
  | [] => Normal []
  | contact :: cs' =>
      bindC (interpolateContactVariables (cp_message_content campaign) contact)
        (fun content =>
           bindC (build_messages campaign (S next) cs')
             (fun rest =>
                Normal
                  ({| bm_id := next;
                      bm_campaign_id := cp_id campaign;
                      bm_contact_id := c_id contact;
                      bm_contact_phone := c_phone contact;
                      bm_message_content := content;
                      bm_status := Pending;
                      bm_sent_at := None;
                      bm_error_message := None |} :: rest)))
  end.

Definition next_message_id (d : Db) : nat :=
  S (fold_right (fun m acc => Nat.max (bm_id m) acc) 0 (messages d)).

(** The body of [startCampaign] up to the start of [processCampaign],
    which is not awaited; the result tells whether it was started. *)
Definition startCampaign (campaignId : string) : M World bool :=
  tryCatch
    (w <- get ;;
     match find_campaign (db w) campaignId with
     | None => throw "Campaign not found"
     | Some campaign =>
         t <- now ;;
         if match cp_scheduled_at campaign with
            | Some at_ => (t <? at_)%Z
            | None => false
            end
         then ret false
         else
           set_status campaignId Processing (Some t) None ;;;
           w1 <- get ;;
           let contacts := getTargetContacts campaign (db w1) in
           if List.length contacts =? 0 then
             throw "No contacts found for this campaign"
           else
             update_db (update_campaign campaignId
                          (with_total (List.length contacts))) ;;;
             emit (EvTotalRecipients campaignId (List.length contacts)) ;;;
             w2 <- get ;;
             msgs <- lift (build_messages campaign
                             (next_message_id (db w2)) contacts) ;;
             update_db (fun d => set_messages d (messages d ++ msgs)%list) ;;;
             emit (EvInsertMessages campaignId (List.length msgs)) ;;;
             emit (EvLaunchProcess campaignId) ;;;
             ret true
     end)
    (fun _ =>
       t <- now ;;
       set_status campaignId Failed None (Some t) ;;;
       ret false).

(** ** [WhatsAppService.withRetry], with its default of three attempts

    [fn] is given the rank of the attempt. *)
Fixpoint withRetry_from {A : Type} (fn : nat -> M World A)
  (remaining i : nat) (lastError : string) : M World A :=
  match remaining with
  | O => throw lastError
  | S r =>
      tryCatch (fn i)
        (fun error =>
           sleep (inject_Z (2 ^ Z.of_nat i * 1000)) ;;;
           withRetry_from fn r (S i) error)
  end.

Definition withRetry {A : Type} (fn : nat -> M World A) (maxRetries : nat)
  : M World A :=
  withRetry_from fn maxRetries 0 "undefined".

(** [whatsapp.sendText(message.contact_phone, message.message_content)] *)
Definition sendText (col : Collaborators) (message : BroadcastMessage)
  (attempt : nat) : M World unit :=
  let ok := sendOk col (bm_id message) attempt in
  emit (EvSendAttempt (bm_id message) attempt ok) ;;;
  if ok then ret tt
  else throw (send_error (apiMessage col (bm_id message) attempt)
                "Failed to send message").

(** ** [processCampaign] *)

Inductive Outcome : Type :=
| RunCompleted
| RunPaused
| RunCancelled
| RunFailed (error : string)
| OutOfFuel.

Definition threshold_error : string := "Failure rate exceeded threshold".

(** One turn of [for (const message of messages)]; [sentCount] and
    [failedCount] are the counters of the enclosing call. *)
Definition processMessage (col : Collaborators) (env : Config.Environment)
  (campaignId : string) (delayMs : Q) (message : BroadcastMessage)
  (sentCount failedCount : nat) : M World (nat * nat) :=
  counts <-
    tryCatch
      (withRetry (sendText col message) 3 ;;;
       t <- now ;;
       update_db (update_message (bm_id message)
                    (with_message_status Sent (Some t) None)) ;;;
       emit (EvMessageStatus (bm_id message) Sent) ;;;
       sleep delayMs ;;;
       ret (S sentCount, failedCount))
      (fun error =>
         update_db (update_message (bm_id message)
                      (with_message_status MessageFailed None (Some error))) ;;;
         emit (EvMessageStatus (bm_id message) MessageFailed) ;;;
         ret (sentCount, S failedCount)) ;;
  let (sent, failed) := counts in
  update_db (update_campaign campaignId (with_counts sent failed)) ;;;
  emit (EvStats campaignId sent failed) ;;;
  if rateExceeds col failed sent (Config.failureThreshold env)
     && (10 <? sent + failed)
  then throw threshold_error
  else ret (sent, failed).

Fixpoint processMessages (col : Collaborators) (env : Config.Environment)
  (campaignId : string) (delayMs : Q) (batch : list BroadcastMessage)
  (sentCount failedCount : nat) : M World (nat * nat) :=
  match batch with
  | [] => ret (sentCount, failedCount)
  | message :: rest =>
      counts <- processMessage col env campaignId delayMs message
                  sentCount failedCount ;;
      processMessages col env campaignId delayMs rest (fst counts) (snd counts)
  end.

(** [.eq('campaign_id', id).eq('status', 'pending')] *)
Definition pending_of (campaignId : string) (d : Db) : list BroadcastMessage :=
  filter (fun m => String.eqb (bm_campaign_id m) campaignId && is_pending m)
    (messages d).

(** [while (true)]: a turn with a batch that is not empty leaves fewer
    pending messages, which bounds the number of turns. *)
Fixpoint processLoop (fuel : nat) (col : Collaborators)
  (env : Config.Environment) (campaignId : string) (delayMs : Q)
  (sentCount failedCount : nat) : M World Outcome :=
  match fuel with
  | O => ret OutOfFuel
  | S fuel' =>
      w <- get ;;
      match find_campaign (db w) campaignId with
      | None => throw "Cannot read properties of null"
      | Some currentCampaign =>
          match cp_status currentCampaign with
          | Paused => ret RunPaused
          | Cancelled => ret RunCancelled
          | _ =>
              match firstn 10 (pending_of campaignId (db w)) with
              | [] => ret RunCompleted
              | batch =>
                  counts <- processMessages col env campaignId delayMs batch
                              sentCount failedCount ;;
                  processLoop fuel' col env campaignId delayMs
                    (fst counts) (snd counts)
              end
          end
      end
  end.

Definition configured (s : option string) : bool :=
  match s with
  | Some x => negb (String.eqb x "")
  | None => false
  end.

(** [campaign.rate_limit || config.broadcast.defaultRateLimit] *)
Definition rateLimit_of (env : Config.Environment) (campaign : Campaign) : Z :=
  Config.or_default (cp_rate_limit campaign) (Config.defaultRateLimit env).

Definition delayMs_of (env : Config.Environment) (campaign : Campaign) : Q :=
  (1000 / inject_Z (rateLimit_of env campaign))%Q.

Definition processCampaign (col : Collaborators) (env : Config.Environment)
  (campaignId : string) : M World Outcome :=
  tryCatch
    (w <- get ;;
     match find_campaign (db w) campaignId with
     | None => throw "Cannot read properties of null"
     | Some campaign =>
         match find_workspace (db w) (cp_workspace_id campaign) with
         | None => throw "Cannot read properties of null"
         | Some workspace =>
             if negb (configured (whatsapp_phone_number_id workspace))
                || negb (configured (whatsapp_access_token workspace))
             then throw "WhatsApp not configured"
             else
               r <- processLoop
                      (S (List.length (pending_of campaignId (db w))))
                      col env campaignId (delayMs_of env campaign) 0 0 ;;
               match r with
               | RunCompleted =>
                   t <- now ;;
                   set_status campaignId Completed None (Some t) ;;;
                   ret RunCompleted
               | other => ret other
               end
         end
     end)
    (fun error =>
       t <- now ;;
       set_status campaignId Failed None (Some t) ;;;
       ret (RunFailed error)).

End Broadcast.

(* ================================================================== *)
(** * flowEngine.service.js                                         *)
(* ================================================================== *)

Module Flow.

Import Js WhatsApp Eff.
Local Open Scope eff_scope.

(** ** Dates *)

Fixpoint zeros (n : nat) : string :=
  match n with
  | O => EmptyString
  | S n' => String "0" (zeros n')
  end.

(** [String(n).padStart(width, '0')] *)
Definition pad (width : nat) (n : Z) : string :=
  let s := Z_to_string n in
  zeros (width - String.length s) ++ s.

(** The civil date of a day number counted from 1970-01-01. *)
Definition civil_from_days (days : Z) : Z * Z * Z :=
  let z := (days + 719468)%Z in
  let era := (z / 146097)%Z in
  let doe := (z - era * 146097)%Z in
  let yoe := ((doe - doe / 1460 + doe / 36524 - doe / 146096) / 365)%Z in
  let doy := (doe - (365 * yoe + yoe / 4 - yoe / 100))%Z in
  let mp := ((5 * doy + 2) / 153)%Z in
  let d := (doy - (153 * mp + 2) / 5 + 1)%Z in
  let m := (if mp <? 10 then mp + 3 else mp - 9)%Z in
  let y := (yoe + era * 400 + (if m <=? 2 then 1 else 0))%Z in
  (y, m, d).

Definition format_year (y : Z) : string :=
  if ((0 <=? y) && (y <=? 9999))%Z then pad 4 y
  else if (y <? 0)%Z then "-" ++ pad 6 (- y)
  else "+" ++ pad 6 y.

Definition max_time : Z := 8640000000000000.

(** [new Date(t).toISOString()] *)
Definition toISOString (t : Z) : Completion string :=
  if (Z.abs t >? max_time)%Z then Throw "Invalid time value"
  else
    let days := (t / 86400000)%Z in
    let ms := (t mod 86400000)%Z in
    let '(y, m, d) := civil_from_days days in
    Normal
      (format_year y ++ "-" ++ pad 2 m ++ "-" ++ pad 2 d ++ "T"
       ++ pad 2 (ms / 3600000) ++ ":" ++ pad 2 ((ms / 60000) mod 60) ++ ":"
       ++ pad 2 ((ms / 1000) mod 60) ++ "." ++ pad 3 (ms mod 1000) ++ "Z").

(** ** The flow graph *)

Inductive TriggerType : Type :=
| AnyMessage | Keyword | NewConversation | OtherTrigger.

Inductive ValidationType : Type :=
| ValText | ValNumber | ValEmail | ValPhone | ValOther.

Inductive Operator : Type :=
| Equals | Contains | GreaterThan | LessThan | IsEmpty | OtherOperator.

(** [node.type] with the fields of [node.data] that the engine reads.
    The branches of a condition are [branches.true] and
    [branches.false]: the key of a node, or missing. *)
Inductive NodeData : Type :=
| Trigger (trigger_type : TriggerType) (keywords : option (list string))
| SendMessage (message type : string) (media_url : option string)
    (buttons : option (list string))
| AskQuestion (question variable_name : string)
    (validation : option ValidationType)
| Condition (variable : string) (operator : Operator) (value : Value)
    (branch_true branch_false : option string)
| Delay (duration : Z)
| SetVariable (variable_name value : string)
| HttpRequest (url : string) (save_response_to : option string)
| AssignToHuman (message : option string)
| End
| OtherNode.

Record Node : Type := { id : string; data : NodeData }.

Record Edge : Type := { source : string; target : string }.

Record Bot : Type := { nodes : list Node; edges : list Edge }.

Record Context : Type := {
  current_node_id : option string;
  waiting_for : option string;
  variables : Obj;
  flow_history : list string
}.

Record Incoming : Type := { text : option string; kind : string }.

(** ** Effects *)

Inductive Channel : Type := ChText | ChButtons | ChMedia.

Inductive HttpResult : Type :=
| HttpOk (response : Value)
| HttpError (message : string).

Inductive Event : Type :=
| EvExecute (node : string)
| EvSend (channel : Channel) (content : string) (ok : bool)
| EvLog (direction content type : string)
| EvSleep (ms : Z)
| EvSaveContext (c : Context)
| EvHttp (url : string)
| EvConversationStatus (status : string)
| EvNoTrigger.

(** The engine: its context, the wall clock, the row of
    [conversation_contexts] and the effects so far, latest first.  Only
    timers advance the clock. *)
Record Engine : Type := {
  context : Context;
  clock : Z;
  saved : option Context;
  trace : list Event
}.

(** The collaborators.  A call is identified by the number of effects
    before it.  [apiMessage] is, for a send that fails, the message of
    the answer of the API when it sent one.  [looseEquals a b] is
    [a == b] and [numberLess a b] is [Number(a) < Number(b)]. *)
Record Collaborators : Type := {
  sendOk : nat -> bool;
  apiMessage : nat -> option string;
  httpResult : nat -> HttpResult;
  looseEquals : Value -> Value -> bool;
  numberLess : Value -> Value -> bool
}.

Definition emit (ev : Event) : M Engine unit :=
  modify (fun e => {| context := context e; clock := clock e;
                      saved := saved e; trace := ev :: trace e |}).

Definition set_context (c : Context) : M Engine unit :=
  modify (fun e => {| context := c; clock := clock e;
                      saved := saved e; trace := trace e |}).

Definition get_context : M Engine Context :=
  fun e => (Normal (context e), e).

(** [Date.now()] *)
Definition now : M Engine Z := fun e => (Normal (clock e), e).

(** [await new Promise(resolve => setTimeout(resolve, ms))] *)
Definition sleep (ms : Z) : M Engine unit :=
  emit (EvSleep ms) ;;;
  modify (fun e => {| context := context e;
                      clock := clock e + Z.max 1 ms;
                      saved := saved e; trace := trace e |}).

Definition send (col : Collaborators) (ch : Channel) (content : string)
  : M Engine unit :=
  e <- get ;;
  let ok := sendOk col (List.length (trace e)) in
  emit (EvSend ch content ok) ;;;
  if ok then ret tt
  else throw (send_error (apiMessage col (List.length (trace e)))
                match ch with
                | ChText => "Failed to send message"
                | ChButtons => "Failed to send buttons"
                | ChMedia => "Failed to send media"
                end).

Definition logMessage (direction content type : string) : M Engine unit :=
  emit (EvLog direction content type).

Definition with_current (n : option string) (c : Context) : Context :=
  {| current_node_id := n; waiting_for := waiting_for c;
     variables := variables c; flow_history := flow_history c |}.

Definition with_waiting (n : option string) (c : Context) : Context :=
  {| current_node_id := current_node_id c; waiting_for := n;
     variables := variables c; flow_history := flow_history c |}.

Definition with_variables (v : Obj) (c : Context) : Context :=
  {| current_node_id := current_node_id c; waiting_for := waiting_for c;
     variables := v; flow_history := flow_history c |}.

Definition with_history (h : list string) (c : Context) : Context :=
  {| current_node_id := current_node_id c; waiting_for := waiting_for c;
     variables := variables c; flow_history := h |}.

(** The row after an upsert of the context on [conversation_id].  A
    key of the body whose value is [undefined] is not sent: when the
    context has no current node, which is how a condition without the
    chosen branch leaves it, the column [current_node_id] of a row that
    exists keeps its value. *)
Definition upserted (c : Context) (row : option Context) : Context :=
  match current_node_id c, row with
  | None, Some old => with_current (current_node_id old) c
  | _, _ => c
  end.

(** [saveContext]; the event holds the body of the upsert. *)
Definition saveContext : M Engine unit :=
  c <- get_context ;;
  modify (fun e => {| context := context e; clock := clock e;
                      saved := Some (upserted c (saved e));
                      trace := trace e |}) ;;;
  emit (EvSaveContext c).

Definition set_variable (k : string) (v : Value) : M Engine unit :=
  c <- get_context ;;
  set_context (with_variables (obj_set (variables c) k v) c).

(** ** Lookups *)

Definition findNodeById (bot : Bot) (nodeId : option string) : option Node :=
  match nodeId with
  | Some i => find (fun n => String.eqb (id n) i) (nodes bot)
  | None => None
  end.

Definition findNextNode (bot : Bot) (currentNode : Node) : option Node :=
  match find (fun e => String.eqb (source e) (id currentNode)) (edges bot) with
  | Some edge => findNodeById bot (Some (target edge))
  | None => None
  end.

(** ** [validateResponse] *)

Definition one (cs : CharSet) : Term := TAtom cs 1 (Some 1%N).
Definition some (cs : CharSet) : Term := TAtom cs 1 None.
Definition many (cs : CharSet) : Term := TAtom cs 0 None.
Definition opt (cs : CharSet) : Term := TAtom cs 0 (Some 1%N).
Definition lit (c : ascii) : Term := one (CsChar c).

(** [/^[^\s@]+@[^\s@]+\.[^\s@]+$/] *)
Definition email_regex : Pattern :=
  let other := CsClass true [CiSpace; CiChar "@"] in
  [[TAssertStart; some other; lit "@"; some other; lit "."; some other;
    TAssertEnd]].

(** [/^\+[1-9]\d{1,14}$/] *)
Definition phone_regex : Pattern :=
  [[TAssertStart; lit "+"; one (CsClass false [CiRange "1" "9"]);
    TAtom (CsClass false [CiDigit]) 1 (Some 14%N); TAssertEnd]].

(** The strings that [Number] does not map to NaN, as the grammar of
    numeric string literals gives them: optional white space around
    nothing, a signed decimal literal or [Infinity], or an unsigned
    binary, octal or hexadecimal integer. *)
Definition numeric_string : Pattern :=
  let ws := many (CsClass false [CiSpace]) in
  let sign := opt (CsClass false [CiChar "+"; CiChar "-"]) in
  let digit := CsClass false [CiDigit] in
  let exponent :=
    [one (CsClass false [CiChar "e"; CiChar "E"]); sign; some digit] in
  let wrap (body : list Term) : Alternative :=
    ([TAssertStart; ws] ++ body ++ [ws; TAssertEnd])%list in
  [ wrap [];
    wrap [sign; lit "I"; lit "n"; lit "f"; lit "i"; lit "n"; lit "i";
          lit "t"; lit "y"];
    wrap [sign; some digit];
    wrap ([sign; some digit] ++ exponent)%list;
    wrap [sign; some digit; lit "."; many digit];
    wrap ([sign; some digit; lit "."; many digit] ++ exponent)%list;
    wrap [sign; lit "."; some digit];
    wrap ([sign; lit "."; some digit] ++ exponent)%list;
    wrap [lit "0"; one (CsClass false [CiChar "b"; CiChar "B"]);
          some (CsClass false [CiRange "0" "1"])];
    wrap [lit "0"; one (CsClass false [CiChar "o"; CiChar "O"]);
          some (CsClass false [CiRange "0" "7"])];
    wrap [lit "0"; one (CsClass false [CiChar "x"; CiChar "X"]);
          some (CsClass false
                  [CiDigit; CiRange "a" "f"; CiRange "A" "F"])] ].

(** [response] is [message.text], [None] when the field is absent. *)
Definition validateResponse (response : option string)
  (validation : option ValidationType) : bool :=
  match validation with
  | None => true
  | Some ValText =>
      match response with
      | Some s => 0 <? String.length s
      | None => false
      end
  | Some ValNumber =>
      match response with
      | Some s => test numeric_string s
      | None => false
      end
  | Some ValEmail => test email_regex (toString
                                         match response with
                                         | Some s => VStr s
                                         | None => VUndefined
                                         end)
  | Some ValPhone => test phone_regex (toString
                                         match response with
                                         | Some s => VStr s
                                         | None => VUndefined
                                         end)
  | Some ValOther => true
  end.

(** ** [findTrigger] *)

Definition is_trigger (n : Node) : bool :=
  match data n with
  | Trigger _ _ => true
  | _ => false
  end.

Definition message_text (message : option Incoming) : string :=
  match message with
  | Some m =>
      match text m with
      | Some t => toLowerCase t
      | None => ""
      end
  | None => ""
  end.

Definition trigger_matches (c : Context) (message : option Incoming)
  (trigger : Node) : bool :=
  match data trigger with
  | Trigger AnyMessage _ => true
  | Trigger Keyword (Some keywords) =>
      existsb (fun kw => includes (message_text message) (toLowerCase kw))
        keywords
  | Trigger NewConversation _ => List.length (flow_history c) =? 0
  | _ => false
  end.

Definition findTrigger (bot : Bot) (c : Context) (message : option Incoming)
  : option Node :=
  find (trigger_matches c message) (filter is_trigger (nodes bot)).

(** ** The node types *)

Definition text_value (t : option string) : Value :=
  match t with
  | Some s => VStr s
  | None => VUndefined
  end.

Definition nonempty (s : option string) : bool :=
  match s with
  | Some x => negb (String.eqb x "")
  | None => false
  end.

Definition executeSendMessage (col : Collaborators)
  (message type : string) (buttons : option (list string)) : M Engine bool :=
  c <- get_context ;;
  interpolatedMessage <- lift (interpolateVariables message (variables c)) ;;
  match buttons with
  | None =>
      if String.eqb type "text" then send col ChText interpolatedMessage
      else send col ChMedia interpolatedMessage
  | Some _ => send col ChButtons interpolatedMessage
  end ;;;
  logMessage "outgoing" interpolatedMessage type ;;;
  ret true.

Definition executeAskQuestion (col : Collaborators) (node : Node)
  (question : string) : M Engine bool :=
  c <- get_context ;;
  interpolatedQuestion <- lift (interpolateVariables question (variables c)) ;;
  send col ChText interpolatedQuestion ;;;
  logMessage "outgoing" interpolatedQuestion "text" ;;;
  c1 <- get_context ;;
  set_context (with_waiting (Some (id node)) c1) ;;;
  saveContext ;;;
  ret false.

Definition evalCondition (col : Collaborators) (operator : Operator)
  (variableValue value : Value) : bool :=
  match operator with
  | Equals => looseEquals col variableValue value
  | Contains =>
      includes (toString (or_else variableValue (VStr ""))) (toString value)
  | GreaterThan => numberLess col value variableValue
  | LessThan => numberLess col variableValue value
  | IsEmpty => negb (truthy variableValue)
  | OtherOperator => false
  end.

Definition executeCondition (col : Collaborators) (variable : string)
  (operator : Operator) (value : Value)
  (branch_true branch_false : option string) : M Engine bool :=
  c <- get_context ;;
  let condition :=
    evalCondition col operator (obj_get (variables c) variable) value in
  let nextNodeId := if condition then branch_true else branch_false in
  set_context (with_current nextNodeId c) ;;;
  ret true.

Definition executeDelay (duration : Z) : M Engine bool :=
  if (duration <=? 30000)%Z then
    sleep duration ;;;
    ret true
  else
    t <- now ;;
    resumeAt <- lift (toISOString (t + duration)) ;;
    set_variable "resume_at" (VStr resumeAt) ;;;
    saveContext ;;;
    ret false.

Definition executeSetVariable (variable_name value : string)
  : M Engine bool :=
  c <- get_context ;;
  v <- lift (interpolateVariables value (variables c)) ;;
  set_variable variable_name (VStr v) ;;;
  ret true.

Definition executeHttpRequest (col : Collaborators) (url : string)
  (save_response_to : option string) : M Engine bool :=
  e <- get ;;
  emit (EvHttp url) ;;;
  match httpResult col (List.length (trace e)) with
  | HttpOk response =>
      match save_response_to with
      | Some k => if nonempty save_response_to then set_variable k response
                  else ret tt
      | None => ret tt
      end
  | HttpError message =>
      set_variable (toString (text_value save_response_to))
        (VObj [("error", VStr message)])
  end ;;;
  ret true.

Definition executeAssignToHuman (col : Collaborators)
  (message : option string) : M Engine bool :=
  match message with
  | Some m =>
      if nonempty message then
        send col ChText m ;;;
        logMessage "outgoing" m "text"
      else ret tt
  | None => ret tt
  end ;;;
  emit (EvConversationStatus "human") ;;;
  ret false.

(** [executeNode]: the result tells whether the run goes on. *)
Definition executeNode (col : Collaborators) (node : Node) : M Engine bool :=
  emit (EvExecute (id node)) ;;;
  match data node with
  | SendMessage message type _ buttons =>
      executeSendMessage col message type buttons
  | AskQuestion question _ _ => executeAskQuestion col node question
  | Condition variable operator value branch_true branch_false =>
      executeCondition col variable operator value branch_true branch_false
  | Delay duration => executeDelay duration
  | SetVariable variable_name value => executeSetVariable variable_name value
  | HttpRequest url save_response_to =>
      executeHttpRequest col url save_response_to
  | AssignToHuman message => executeAssignToHuman col message
  | End => ret false
  | Trigger _ _ => ret true
  | OtherNode => ret true
  end.

(** ** [executeNodes]

    [remaining] is [maxIterations - iterations]. *)
Definition maxIterations : nat := 100.

Fixpoint executeNodes_loop (col : Collaborators) (bot : Bot)
  (remaining : nat) (currentNode : option Node) : M Engine unit :=
  match currentNode, remaining with
  | Some node, S remaining' =>
      shouldContinue <- executeNode col node ;;
      if negb shouldContinue then ret tt
      else
        match findNextNode bot node with
        | None => ret tt
        | Some nextNode =>
            c <- get_context ;;
            set_context
              (with_history (flow_history c ++ [id nextNode])%list
                 (with_current (Some (id nextNode)) c)) ;;;
            executeNodes_loop col bot remaining' (Some nextNode)
        end
  | _, _ => ret tt
  end.

Definition executeNodes (col : Collaborators) (bot : Bot) : M Engine unit :=
  c <- get_context ;;
  executeNodes_loop col bot maxIterations
    (findNodeById bot (current_node_id c)) ;;;
  saveContext.

(** ** [handleUserResponse], [handleError], [execute] *)

Definition handleUserResponse (col : Collaborators) (bot : Bot)
  (message : Incoming) : M Engine unit :=
  c <- get_context ;;
  match findNodeById bot (waiting_for c) with
  | Some waitingNode =>
      match data waitingNode with
      | AskQuestion question variable_name validation =>
          if negb (validateResponse (text message) validation) then
            send col ChText ("Invalid response. " ++ question)
          else
            set_variable variable_name (text_value (text message)) ;;;
            c1 <- get_context ;;
            set_context (with_waiting None c1)
      | _ => ret tt
      end
  | None => ret tt
  end.

Definition handleError (col : Collaborators) (error : string)
  : M Engine unit :=
  send col ChText "Sorry, something went wrong. Please try again later." ;;;
  logMessage "outgoing" ("Error: " ++ error) "text".

Definition execute (col : Collaborators) (bot : Bot)
  (incomingMessage : option Incoming) : M Engine unit :=
  tryCatch
    (c <- get_context ;;
     found <-
       (if negb (nonempty (current_node_id c)) then
          match findTrigger bot c incomingMessage with
          | None => emit EvNoTrigger ;;; ret false
          | Some triggerNode =>
              set_context
                (with_history [id triggerNode]
                   (with_current (Some (id triggerNode)) c)) ;;;
              ret true
          end
        else ret true) ;;
     if negb found then ret tt
     else
       c1 <- get_context ;;
       match incomingMessage with
       | Some message =>
           if nonempty (waiting_for c1)
           then handleUserResponse col bot message
           else ret tt
       | None => ret tt
       end ;;;
       executeNodes col bot)
    (fun error => handleError col error).
End Flow.

(* ================================================================== *)
(** * dlq.service.js                                                *)
(* ================================================================== *)

Module DLQ.

Import Js.

Inductive Status : Type :=
| StatusFailed | Retrying | Resolved | Archived.

Inductive MessageType : Type :=
| Broadcast | WhatsappSend | OtherType (name : string).

(** A row of [dead_letter_queue]; the generated key is a fresh
    number. *)
Record Entry : Type := {
  id : nat;
  workspace_id : string;
  message_type : MessageType;
  original_payload : Obj;
  error_message : string;
  retry_count : nat;
  max_retries : nat;
  last_retry_at : option Z;
  next_retry_at : option Z;
  status : Status;
  resolved_at : option Z
}.

Record Db : Type := {
  workspaces : list string;
  entries : list Entry
}.

(** The outbound channel during one call: whether the resend of an
    entry goes through. *)
Definition Channel : Type := Entry -> bool.

(** ** The SQL function [calculate_next_retry]

    1 minute, 5 minutes, 30 minutes, 2 hours, 12 hours, then 24 hours. *)
Definition backoff_interval (retry_count : nat) : Z :=
  match retry_count with
  | 0 => 60000%Z
  | 1 => 300000%Z
  | 2 => 1800000%Z
  | 3 => 7200000%Z
  | 4 => 43200000%Z
  | _ => 86400000%Z
  end.

Definition calculate_next_retry (now : Z) (retry_count : nat) : Z :=
  (now + backoff_interval retry_count)%Z.

(** The same delays as a table, for comparison. *)
Definition backoff_table : list Z :=
  [60000; 300000; 1800000; 7200000; 43200000; 86400000]%Z.

Definition set_entries (d : Db) (es : list Entry) : Db :=
  {| workspaces := workspaces d; entries := es |}.

(** ** The client

    [supabaseAdmin] is what [createClient] of supabase-js returns.  It
    has no method [raw]: the call [supabaseAdmin.raw(column)] is a
    [TypeError]. *)
Definition raw (column : string) : Completion Value :=
  Throw "supabaseAdmin.raw is not a function".

Definition next_id (d : Db) : nat :=
  S (fold_right (fun e acc => Nat.max (id e) acc) 0 (entries d)).

(** [.update(...).eq('id', id)] *)
Definition update_entry (i : nat) (f : Entry -> Entry) (d : Db) : Db :=
  set_entries d (map (fun e => if id e =? i then f e else e) (entries d)).

(** ** [addToDLQ] *)
Definition addToDLQ (now : Z) (workspaceId : string)
  (messageType : MessageType) (payload : Obj) (error : string)
  (maxRetries : nat) (d : Db) : Db :=
  let nextRetry := calculate_next_retry now 0 in
  set_entries d
    (entries d ++
     [{| id := next_id d;
         workspace_id := workspaceId;
         message_type := messageType;
         original_payload := payload;
         error_message := error;
         retry_count := 0;
         max_retries := maxRetries;
         last_retry_at := None;
         next_retry_at := Some nextRetry;
         status := Retrying;
         resolved_at := None |}])%list.

(** ** [processRetries] *)

Definition is_retrying (e : Entry) : bool :=
  match status e with
  | Retrying => true
  | _ => false
  end.

(** [.eq('status', 'retrying').lte('next_retry_at', now)
     .lt('retry_count', max_retries)] *)
Definition due (now : Z) (e : Entry) : bool :=
  is_retrying e
  && match next_retry_at e with
     | Some t => (t <=? now)%Z
     | None => false
     end
  && (retry_count e <? max_retries e).

Fixpoint insert_by_time (e : Entry) (l : list Entry) : list Entry :=
  match l with
  | [] => [e]
  | x :: l' =>
      match next_retry_at e, next_retry_at x with
      | Some a, Some b =>
          if (a <? b)%Z then e :: x :: l' else x :: insert_by_time e l'
      | _, _ => x :: insert_by_time e l'
      end
  end.

(** [.order('next_retry_at', { ascending: true })] *)
Definition order_by_time (l : list Entry) : list Entry :=
  fold_right insert_by_time [] l.

(** The rows that the query of [processRetries] asks for. *)
Definition selected (now : Z) (d : Db) : list Entry :=
  firstn 50 (order_by_time (filter (due now) (entries d))).

(** [retryBroadcast] and [retryWhatsAppMessage]: false when the
    workspace of the payload is not found or the resend fails. *)
Definition workspace_found (d : Db) (e : Entry) : bool :=
  match obj_get (original_payload e) "workspace_id" with
  | VStr w => existsb (String.eqb w) (workspaces d)
  | _ => false
  end.

Definition retry (ch : Channel) (d : Db) (e : Entry) : bool :=
  workspace_found d e && ch e.

Definition resolve (now : Z) (e : Entry) : Entry :=
  {| id := id e; workspace_id := workspace_id e;
     message_type := message_type e;
     original_payload := original_payload e;
     error_message := error_message e;
     retry_count := retry_count e; max_retries := max_retries e;
     last_retry_at := last_retry_at e; next_retry_at := next_retry_at e;
     status := Resolved; resolved_at := Some now |}.

Definition exhaust (newRetryCount : nat) (e : Entry) : Entry :=
  {| id := id e; workspace_id := workspace_id e;
     message_type := message_type e;
     original_payload := original_payload e;
     error_message := error_message e;
     retry_count := newRetryCount; max_retries := max_retries e;
     last_retry_at := last_retry_at e; next_retry_at := next_retry_at e;
     status := StatusFailed; resolved_at := resolved_at e |}.

Definition reschedule (now : Z) (newRetryCount : nat) (nextRetry : Z)
  (e : Entry) : Entry :=
  {| id := id e; workspace_id := workspace_id e;
     message_type := message_type e;
     original_payload := original_payload e;
     error_message := error_message e;
     retry_count := newRetryCount; max_retries := max_retries e;
     last_retry_at := Some now; next_retry_at := Some nextRetry;
     status := status e; resolved_at := resolved_at e |}.

(** One turn of [for (const entry of entries)]; [entry] is the row as
    it was fetched. *)
Definition processEntry (now : Z) (ch : Channel) (entry : Entry) (d : Db)
  : Db :=
  match message_type entry with
  | OtherType _ => d
  | _ =>
      if retry ch d entry then update_entry (id entry) (resolve now) d
      else
        let newRetryCount := retry_count entry + 1 in
        if max_retries entry <=? newRetryCount then
          update_entry (id entry) (exhaust newRetryCount) d
        else
          update_entry (id entry)
            (reschedule now newRetryCount
               (calculate_next_retry now newRetryCount)) d
  end.

(** The arguments of the filters are evaluated while the query is
    built, before it is sent.  The last filter calls
    [supabaseAdmin.raw('max_retries')], which throws: the [catch] of
    the function logs the error and the call returns, so that no row is
    fetched and the loop is not entered. *)
Definition processRetries (now : Z) (ch : Channel) (d : Db) : Db :=
  match raw "max_retries" with
  | Normal _ =>
      fold_left (fun acc entry => processEntry now ch entry acc)
        (selected now d) d
  | _ => d
  end.

(** ** [manualRetry] and [archiveEntry] *)

Definition reset (now : Z) (e : Entry) : Entry :=
  {| id := id e; workspace_id := workspace_id e;
     message_type := message_type e;
     original_payload := original_payload e;
     error_message := error_message e;
     retry_count := 0; max_retries := max_retries e;
     last_retry_at := last_retry_at e; next_retry_at := Some now;
     status := Retrying; resolved_at := resolved_at e |}.

(** Throws when the entry is not found; otherwise the row is reset and
    [processRetries] is awaited. *)
Definition manualRetry (now : Z) (ch : Channel) (dlqId : nat) (d : Db)
  : Completion Db :=
  match find (fun e => id e =? dlqId) (entries d) with
  | None => Throw "DLQ entry not found"
  | Some _ => Normal (processRetries now ch (update_entry dlqId (reset now) d))
  end.

Definition archive (e : Entry) : Entry :=
  {| id := id e; workspace_id := workspace_id e;
     message_type := message_type e;
     original_payload := original_payload e;
     error_message := error_message e;
     retry_count := retry_count e; max_retries := max_retries e;
     last_retry_at := last_retry_at e; next_retry_at := next_retry_at e;
     status := Archived; resolved_at := resolved_at e |}.

Definition archiveEntry (dlqId : nat) (d : Db) : Db :=
  update_entry dlqId archive d.

(** ** The queue as a transition system *)

Inductive Op : Type :=
| OpAdd (now : Z) (workspaceId : string) (messageType : MessageType)
    (payload : Obj) (error : string) (maxRetries : nat)
| OpProcess (now : Z) (ch : Channel)
| OpManualRetry (now : Z) (ch : Channel) (dlqId : nat)
| OpArchive (dlqId : nat).

Definition step (op : Op) (d : Db) : Db :=
  match op with
  | OpAdd now w t p e m => addToDLQ now w t p e m d
  | OpProcess now ch => processRetries now ch d
  | OpManualRetry now ch i =>
      match manualRetry now ch i d with
      | Normal d' => d'
      | _ => d
      end
  | OpArchive i => archiveEntry i d
  end.

(** The stores that the four operations build from an empty queue. *)
Inductive reachable : Db -> Prop :=
| reach_empty : forall ws, reachable {| workspaces := ws; entries := [] |}
| reach_step : forall op d, reachable d -> reachable (step op d).

End DLQ.

(* ================================================================== *)
(** * Vocabulary: the broadcast dispatcher                          *)
(* ================================================================== *)

Module BroadcastSpec.

Import Js WhatsApp Eff Broadcast.
Local Open Scope eff_scope.

(** A campaign whose only contact has opted out. *)
Definition opted_out_world : World :=
  {| db := {| workspaces := [];
              contacts := [ {| c_id := "c1"; c_workspace_id := "w1";
                               c_phone := "+33612345678";
                               c_name := Some "Sam"; c_email := None;
                               c_custom_fields := []; c_tags := [];
                               c_whatsapp_verified := Some true;
                               c_opted_in := Some false |} ];
              campaigns := [ {| cp_id := "k1"; cp_workspace_id := "w1";
                                cp_message_content := "Hello {{name}}";
                                cp_target_type := TargetSpecific;
                                cp_target_filters :=
                                  Some {| contact_ids := Some ["c1"];
                                          tags := None;
                                          custom_fields := None |};
                                cp_scheduled_at := None;
                                cp_status := Draft;
                                cp_rate_limit := Some 10%Z;
                                cp_total_recipients := 0;
                                cp_sent_count := 0; cp_failed_count := 0;
                                cp_started_at := None;
                                cp_completed_at := None |} ];
              messages := [] |};
     clock := 1000;
     trace := [] |}.

(** The three attempts of [withRetry] on a message all fail. *)
Definition fails (col : Collaborators) (message : nat) : bool :=
  negb (sendOk col message 0)
  && negb (sendOk col message 1)
  && negb (sendOk col message 2).

(** The attempts on a message and the waits between them, in the order
    in which they happen. *)
Definition attempts_of (col : Collaborators) (message : nat) : list Event :=
  if sendOk col message 0 then [EvSendAttempt message 0 true]
  else
    EvSendAttempt message 0 false :: EvSleep (inject_Z 1000)
    :: (if sendOk col message 1 then [EvSendAttempt message 1 true]
        else
          EvSendAttempt message 1 false :: EvSleep (inject_Z 2000)
          :: (if sendOk col message 2 then [EvSendAttempt message 2 true]
              else [EvSendAttempt message 2 false; EvSleep (inject_Z 4000)])).

(** All the effects of one turn of the loop over the messages of a
    batch: the wait of [delayMs] stands after the status [sent] only. *)
Definition message_events (col : Collaborators) (campaignId : string)
  (delayMs : Q) (message sent failed : nat) : list Event :=
  (attempts_of col message
   ++ (if fails col message then [EvMessageStatus message MessageFailed]
       else [EvMessageStatus message Sent; EvSleep delayMs])
   ++ [EvStats campaignId sent failed])%list.

Definition counts_after (col : Collaborators) (message : nat)
  (sent failed : nat) : nat * nat :=
  if fails col message then (sent, S failed) else (S sent, failed).

Definition aborts (col : Collaborators) (env : Config.Environment)
  (counts : nat * nat) : bool :=
  rateExceeds col (snd counts) (fst counts) (Config.failureThreshold env)
  && (10 <? fst counts + snd counts).

(** An update of a message that leaves its key and its campaign and
    takes it out of the pending ones. *)
Definition settles (upd : BroadcastMessage -> BroadcastMessage) : Prop :=
  forall x, bm_id (upd x) = bm_id x
            /\ bm_campaign_id (upd x) = bm_campaign_id x
            /\ is_pending (upd x) = false.

(** The messages handled, each with the counters written after it. *)
Definition Processed : Type := list (nat * (nat * nat)).

Definition events_of (col : Collaborators) (campaignId : string)
  (delayMs : Q) (done : Processed) : list Event :=
  flat_map
    (fun p => message_events col campaignId delayMs
                (fst p) (fst (snd p)) (snd (snd p)))
    done.

(** The counters along a list of messages: the messages handled and,
    unless the failure threshold stopped the run, the counters at the
    end. *)
Fixpoint drain (col : Collaborators) (env : Config.Environment)
  (batch : list BroadcastMessage) (sent failed : nat)
  : Processed * option (nat * nat) :=
  match batch with
  | [] => ([], Some (sent, failed))
  | m :: rest =>
      let c := counts_after col (bm_id m) sent failed in
      if aborts col env c then ([(bm_id m, c)], None)
      else
        let (done, r) := drain col env rest (fst c) (snd c) in
        ((bm_id m, c) :: done, r)
  end.

(** The store along the messages handled. *)
Inductive db_steps (campaignId : string) : Processed -> Db -> Db -> Prop :=
| steps_nil : forall d, db_steps campaignId [] d d
| steps_cons : forall i c upd done d d',
    settles upd ->
    db_steps campaignId done
      (update_campaign campaignId (with_counts (fst c) (snd c))
         (update_message i upd d)) d' ->
    db_steps campaignId ((i, c) :: done) d d'.

Definition completion_of (r : option (nat * nat)) : Completion (nat * nat) :=
  match r with
  | Some c => Normal c
  | None => Throw threshold_error
  end.

Definition null_error : string := "Cannot read properties of null".

(** What a run of the loop can end with: an outcome, or an exception
    that is either the loss of the campaign row or the failure
    threshold, raised right after the counters of the last message. *)
Definition loop_result (col : Collaborators) (env : Config.Environment)
  (done : Processed) (r : Completion Outcome) : Prop :=
  match r with
  | Normal o => forall e, o <> RunFailed e
  | Throw e =>
      e = null_error
      \/ (e = threshold_error
          /\ exists pre i c,
               done = (pre ++ [(i, c)])%list /\ aborts col env c = true)
  | Unmodelled => False
  end.

(** The effects that close a run: nothing, or the last status. *)
Definition closing_events (campaignId : string) (closing : list Event)
  : Prop :=
  closing = [] \/ exists st, closing = [EvCampaignStatus campaignId st].

Definition delay_in (env : Config.Environment) (campaignId : string)
  (w : World) : Q :=
  match find_campaign (db w) campaignId with
  | Some campaign => delayMs_of env campaign
  | None => 0%Q
  end.

(** A wait of [delayMs] follows every status [sent]; the counters
    follow every status [failed], and no wait follows the counters. *)
Fixpoint waits_after_sent_only (campaignId : string) (delayMs : Q)
  (evs : list Event) : Prop :=
  match evs with
  | [] => True
  | EvMessageStatus _ Sent :: rest =>
      (exists rest', rest = EvSleep delayMs :: rest')
      /\ waits_after_sent_only campaignId delayMs rest
  | EvMessageStatus _ MessageFailed :: rest =>
      (exists s f rest', rest = EvStats campaignId s f :: rest')
      /\ waits_after_sent_only campaignId delayMs rest
  | EvStats _ _ _ :: rest =>
      (forall d rest', rest <> EvSleep d :: rest')
      /\ waits_after_sent_only campaignId delayMs rest
  | _ :: rest => waits_after_sent_only campaignId delayMs rest
  end.

Definition no_wait_first (evs : list Event) : Prop :=
  forall d rest', evs <> EvSleep d :: rest'.

(** A campaign of two pending messages, at ten messages a second. *)
Definition pending_message (n : nat) : BroadcastMessage :=
  {| bm_id := n; bm_campaign_id := "k1"; bm_contact_id := "c";
     bm_contact_phone := "+33612345678"; bm_message_content := "Hello";
     bm_status := Pending; bm_sent_at := None; bm_error_message := None |}.

Definition running_campaign : Campaign :=
  {| cp_id := "k1"; cp_workspace_id := "w1";
     cp_message_content := "Hello";
     cp_target_type := TargetAll; cp_target_filters := None;
     cp_scheduled_at := None; cp_status := Processing;
     cp_rate_limit := Some 10%Z; cp_total_recipients := 0;
     cp_sent_count := 0; cp_failed_count := 0;
     cp_started_at := None; cp_completed_at := None |}.

Definition campaign_world (pending : nat) : World :=
  {| db := {| workspaces := [ {| ws_id := "w1";
                                 whatsapp_phone_number_id := Some "p";
                                 whatsapp_access_token := Some "t" |} ];
              contacts := [];
              campaigns := [running_campaign];
              messages := map pending_message (seq 1 pending) |};
     clock := 0;
     trace := [] |}.

Definition default_environment : Config.Environment :=
  {| Config.BROADCAST_DEFAULT_RATE_LIMIT := None;
     Config.BROADCAST_FAILURE_THRESHOLD := None |}.

(** The sends to the listed messages fail at every attempt, the others
    go through at once. *)
Definition failing (ids : list nat) : Collaborators :=
  {| sendOk := fun message _ => negb (existsb (Nat.eqb message) ids);
     apiMessage := fun _ _ => None;
     rateExceeds := exact_rate_exceeds |}.

Definition q_eqb (a b : Q) : bool :=
  (Qnum a =? Qnum b)%Z && (Qden a =? Qden b)%positive.

(** A wait of [delayMs] happens before the next attempt to send. *)
Fixpoint waits_before_next_attempt (delayMs : Q) (evs : list Event) : bool :=
  match evs with
  | [] => true
  | EvSleep d :: rest =>
      q_eqb d delayMs || waits_before_next_attempt delayMs rest
  | EvSendAttempt _ _ _ :: _ => false
  | _ :: rest => waits_before_next_attempt delayMs rest
  end.

(** C8 as the specification states it: after the status of every
    message, sent or failed, the loop waits [delayMs] before it handles
    the next message. *)
Fixpoint waits_after_every_message (delayMs : Q) (evs : list Event) : bool :=
  match evs with
  | [] => true
  | EvMessageStatus _ _ :: rest =>
      waits_before_next_attempt delayMs rest
      && waits_after_every_message delayMs rest
  | _ :: rest => waits_after_every_message delayMs rest
  end.

Definition pend (campaignId : string) (m : BroadcastMessage) : bool :=
  String.eqb (bm_campaign_id m) campaignId && is_pending m.

(** The counters written last. *)
Definition final_counts (done : Processed) (init : nat * nat) : nat * nat :=
  last (map snd done) init.

Definition outcome_of (r : option (nat * nat)) : Completion Outcome :=
  match r with
  | Some _ => Normal RunCompleted
  | None => Throw threshold_error
  end.

Definition active (st : CampaignStatus) : Prop :=
  st <> Paused /\ st <> Cancelled.

Definition failures (col : Collaborators) (B : list BroadcastMessage) : nat :=
  List.length (filter (fun m => fails col (bm_id m)) B).

Definition successes (col : Collaborators) (B : list BroadcastMessage) : nat :=
  List.length (filter (fun m => negb (fails col (bm_id m))) B).

End BroadcastSpec.

(* ================================================================== *)
(** * Vocabulary: the flow interpreter                              *)
(* ================================================================== *)

Module FlowSpec.

Import Js WhatsApp Eff Flow.
Local Open Scope eff_scope.

Definition is_execution (ev : Event) : bool :=
  match ev with
  | EvExecute _ => true
  | _ => false
  end.

Definition executions (evs : list Event) : nat :=
  List.length (filter is_execution evs).

(** A computation that adds at most [n] node executions to the
    trace, whatever it returns or throws. *)
Definition emits {A : Type} (n : nat) (m : M Engine A) : Prop :=
  forall e, exists new,
    trace (snd (m e)) = (new ++ trace e)%list /\ executions new <= n.

(** A flow that loops on itself: the run stops at the cap. *)
Definition always_ok : Collaborators :=
  {| sendOk := fun _ => true;
     apiMessage := fun _ => None;
     httpResult := fun _ => HttpError "unreachable";
     looseEquals := fun _ _ => false;
     numberLess := fun _ _ => false |}.

Definition cyclic_flow : Bot :=
  {| nodes := [ {| id := "a"; data := SetVariable "seen" "yes" |} ];
     edges := [ {| source := "a"; target := "a" |} ] |}.

Definition engine_at (node : string) (waiting : option string) (t : Z)
  : Engine :=
  {| context := {| current_node_id := Some node; waiting_for := waiting;
                   variables := []; flow_history := [node] |};
     clock := t; saved := None; trace := [] |}.

(** A short delay followed by a long one. *)
Definition two_delays : Bot :=
  {| nodes := [ {| id := "d1"; data := Delay 1000 |};
                {| id := "d2"; data := Delay 60000 |} ];
     edges := [ {| source := "d1"; target := "d2" |} ] |}.

(** The resume time that a run has saved is the instant [t]. *)
Definition resume_time_is (t : Z) (e : Engine) : Prop :=
  exists c stamp,
    saved e = Some c
    /\ toISOString t = Normal stamp
    /\ obj_get (variables c) "resume_at" = VStr stamp.

(** A question followed by a message. *)
Definition question_flow : Bot :=
  {| nodes := [ {| id := "q";
                   data := AskQuestion "Name?" "name" (Some ValText) |};
                {| id := "m";
                   data := SendMessage "Hi {{name}}" "text" None None |} ];
     edges := [ {| source := "q"; target := "m" |} ] |}.

Definition reply (s : string) : option Incoming :=
  Some {| text := Some s; kind := "text" |}.

Definition waiting_context (vars : Obj) : Context :=
  {| current_node_id := Some "q"; waiting_for := Some "q";
     variables := vars; flow_history := ["q"] |}.

(** The engine after [currentNode = nextNode] and the two updates of
    the context that follow it. *)
Definition moved_to (nextNode : Node) (e : Engine) : Engine :=
  {| context := with_history
                  (flow_history (context e) ++ [id nextNode])%list
                  (with_current (Some (id nextNode)) (context e));
     clock := clock e; saved := saved e; trace := trace e |}.

(** The loop of [executeNodes] as the statement it is, without a bound
    on its turns: [while (currentNode && iterations < maxIterations)].
    A derivation is a run of the loop that ends. *)
Inductive while_loop (col : Collaborators) (bot : Bot)
  : option Node -> nat -> Engine -> Completion unit * Engine -> Prop :=
| loop_no_node : forall iterations e,
    while_loop col bot None iterations e (Normal tt, e)
| loop_cap : forall currentNode iterations e,
    maxIterations <= iterations ->
    while_loop col bot currentNode iterations e (Normal tt, e)
| loop_stop : forall node iterations e e1,
    iterations < maxIterations ->
    executeNode col node e = (Normal false, e1) ->
    while_loop col bot (Some node) iterations e (Normal tt, e1)
| loop_throw : forall node iterations e e1 err,
    iterations < maxIterations ->
    executeNode col node e = (Throw err, e1) ->
    while_loop col bot (Some node) iterations e (Throw err, e1)
| loop_unmodelled : forall node iterations e e1,
    iterations < maxIterations ->
    executeNode col node e = (Unmodelled, e1) ->
    while_loop col bot (Some node) iterations e (Unmodelled, e1)
| loop_last : forall node iterations e e1,
    iterations < maxIterations ->
    executeNode col node e = (Normal true, e1) ->
    findNextNode bot node = None ->
    while_loop col bot (Some node) iterations e (Normal tt, e1)
| loop_next : forall node nextNode iterations e e1 r,
    iterations < maxIterations ->
    executeNode col node e = (Normal true, e1) ->
    findNextNode bot node = Some nextNode ->
    while_loop col bot (Some nextNode) (S iterations) (moved_to nextNode e1) r ->
    while_loop col bot (Some node) iterations e r.

End FlowSpec.

(* ================================================================== *)
(** * Vocabulary: the dead-letter queue                             *)
(* ================================================================== *)

Module DLQSpec.

Import Js DLQ.

(** The keys are unique and no row has more retries than its
    maximum. *)
Definition well_formed (d : Db) : Prop :=
  NoDup (map id (entries d))
  /\ forall e, In e (entries d) -> retry_count e <= max_retries e.

(** The row that the body of the loop of [processRetries] writes for
    an entry. *)
Definition outcome (now : Z) (ch : Channel) (d : Db) (entry : Entry) : Entry :=
  match message_type entry with
  | OtherType _ => entry
  | _ =>
      if retry ch d entry then resolve now entry
      else if max_retries entry <=? retry_count entry + 1
           then exhaust (retry_count entry + 1) entry
           else reschedule now (retry_count entry + 1)
                  (calculate_next_retry now (retry_count entry + 1)) entry
  end.

(** A queue with one entry, added at time 0 with three retries. *)
Definition one_entry : Db :=
  step (OpAdd 0 "w1" Broadcast [("workspace_id", VStr "w1")] "timeout" 3)
    {| workspaces := ["w1"]; entries := [] |}.

End DLQSpec.

(* ================================================================== *)
(** * broadcast.service.js: pause, resume, cancel                   *)
(* ================================================================== *)

Module BroadcastControl.

Import Js WhatsApp Eff Broadcast.
Local Open Scope eff_scope.

Definition status_eqb (a b : CampaignStatus) : bool :=
  match a, b with
  | Draft, Draft => true
  | Scheduled, Scheduled => true
  | Processing, Processing => true
  | Paused, Paused => true
  | Completed, Completed => true
  | Failed, Failed => true
  | Cancelled, Cancelled => true
  | _, _ => false
  end.

(** [.in('status', allowed)] *)
Definition status_in (allowed : list CampaignStatus) (c : Campaign) : bool :=
  existsb (status_eqb (cp_status c)) allowed.

(** [.update(...).eq('id', id).in('status', allowed)] on
    [broadcast_campaigns] *)
Definition update_campaign_in (id : string) (allowed : list CampaignStatus)
  (f : Campaign -> Campaign) (d : Db) : Db :=
  set_campaigns d
    (map (fun c => if String.eqb (cp_id c) id && status_in allowed c
                   then f c else c)
       (campaigns d)).

Definition pauseCampaign (campaignId : string) : M World unit :=
  update_db (update_campaign_in campaignId [Processing; Scheduled]
               (with_status Paused None None)).

(** The call of [processCampaign] is not awaited: it is recorded as a
    launch, as in [startCampaign]. *)
Definition resumeCampaign (campaignId : string) : M World unit :=
  update_db (update_campaign_in campaignId [Paused]
               (with_status Processing None None)) ;;;
  emit (EvLaunchProcess campaignId).

Definition cancelCampaign (campaignId : string) : M World unit :=
  t <- now ;;
  update_db (update_campaign_in campaignId [Processing; Scheduled; Paused]
               (with_status Cancelled None (Some t))).

End BroadcastControl.

(* ================================================================== *)
(** * scheduler.service.js: scheduled campaigns                     *)
(* ================================================================== *)

Module Scheduler.

Import Js WhatsApp Eff Broadcast.
Local Open Scope eff_scope.

Definition is_scheduled (c : Campaign) : bool :=
  match cp_status c with
  | Scheduled => true
  | _ => false
  end.

(** [.eq('status', 'scheduled').lte('scheduled_at', now)] *)
Definition due_campaign (t : Z) (c : Campaign) : bool :=
  is_scheduled c
  && match cp_scheduled_at c with
     | Some at_ => (at_ <=? t)%Z
     | None => false
     end.

Fixpoint insert_by_schedule (c : Campaign) (l : list Campaign)
  : list Campaign :=
  match l with
  | [] => [c]
  | x :: l' =>
      match cp_scheduled_at c, cp_scheduled_at x with
      | Some a, Some b =>
          if (a <? b)%Z then c :: x :: l' else x :: insert_by_schedule c l'
      | _, _ => x :: insert_by_schedule c l'
      end
  end.

(** [.order('scheduled_at', { ascending: true })] *)
Definition order_by_schedule (l : list Campaign) : list Campaign :=
  fold_right insert_by_schedule [] l.

(** [for (const campaign of campaigns)], each turn in its own [try]. *)
Fixpoint startEach (ids : list string) : M World unit :=
  match ids with
  | [] => ret tt
  | campaignId :: rest =>
      tryCatch (startCampaign campaignId ;;; ret tt) (fun _ => ret tt) ;;;
      startEach rest
  end.

Definition checkScheduledBroadcasts : M World unit :=
  tryCatch
    (t <- now ;;
     w <- get ;;
     startEach
       (map cp_id
          (order_by_schedule (filter (due_campaign t) (campaigns (db w))))))
    (fun _ => ret tt).

End Scheduler.

(* ================================================================== *)
(** * scheduler.service.js: delayed flows                           *)
(* ================================================================== *)

Module FlowScheduler.

Import Js WhatsApp Eff Flow.
Local Open Scope eff_scope.

(** [delete o[k]] *)
Fixpoint obj_delete (o : Obj) (k : string) : Obj :=
  match o with
  | [] => []
  | (k', v) :: o' =>
      if String.eqb k' k then obj_delete o' k else (k', v) :: obj_delete o' k
  end.

(** One turn of [for (const context of contexts)] in
    [processDelayedFlowNodes], for a row that the query returned:
    [resume_at] is removed from the variables of the row, the row is
    written back, and a new engine runs the flow on it with no
    message.  An exception ends the turn. *)
Definition resumeDelayed (col : Collaborators) (bot : Bot) : M Engine unit :=
  tryCatch
    (e <- get ;;
     match saved e with
     | None => ret tt
     | Some row =>
         let updatedVariables := obj_delete (variables row) "resume_at" in
         let flowContext := with_variables updatedVariables row in
         modify (fun e => {| context := flowContext; clock := clock e;
                             saved := Some flowContext; trace := trace e |}) ;;;
         emit (EvSaveContext flowContext) ;;;
         execute col bot None
     end)
    (fun _ => ret tt).

End FlowScheduler.

(* ================================================================== *)
(** * dlq.service.js: statistics                                    *)
(* ================================================================== *)

Module DLQStats.

Import Js DLQ.

(** The object that [getStats] returns. *)
Record Stats : Type := {
  total : nat;
  failed : nat;
  retrying : nat;
  resolved : nat;
  archived : nat
}.

Definition status_eqb (a b : Status) : bool :=
  match a, b with
  | StatusFailed, StatusFailed => true
  | Retrying, Retrying => true
  | Resolved, Resolved => true
  | Archived, Archived => true
  | _, _ => false
  end.

(** [data.filter(e => e.status === st).length] *)
Definition count (st : Status) (data : list Entry) : nat :=
  List.length (filter (fun e => status_eqb (status e) st) data).

(** [getStats(workspaceId)], on a store that answers. *)
Definition getStats (workspaceId : string) (d : Db) : Stats :=
  let data :=
    filter (fun e => String.eqb (workspace_id e) workspaceId) (entries d) in
  {| total := List.length data;
     failed := count StatusFailed data;
     retrying := count Retrying data;
     resolved := count Resolved data;
     archived := count Archived data |}.

End DLQStats.

(* ================================================================== *)
(** * Vocabulary: literal substitution                              *)
(* ================================================================== *)

Module TemplateSpec.

Import Js WhatsApp.

(** The pattern that matches a text and nothing else. *)
Fixpoint literal (t : string) : Alternative :=
  match t with
  | EmptyString => []
  | String c t' => TAtom (CsChar c) 1 (Some 1%N) :: literal t'
  end.

(** The characters that mean something in a pattern, with the comma of
    a braced quantifier. *)
Definition syntax_chars : string := "\^$.*+?()[]{}|,".

Fixpoint occurs (c : ascii) (s : string) : bool :=
  match s with
  | EmptyString => false
  | String c' s' => Ascii.eqb c' c || occurs c s'
  end.

Fixpoint all_chars (p : ascii -> bool) (s : string) : bool :=
  match s with
  | EmptyString => true
  | String c s' => p c && all_chars p s'
  end.

Definition ordinary (c : ascii) : bool := negb (occurs c syntax_chars).

(** A key without syntax characters that is not a number. *)
Definition plain_key (key : string) : bool :=
  all_chars ordinary key
  && (String.eqb key "" || negb (all_digits key)).

(** [s.substring(n)] *)
Fixpoint drop (n : nat) (s : string) : string :=
  match n, s with
  | S n', String _ s' => drop n' s'
  | _, _ => s
  end.

(** A source in which every character stands for itself: no
    character is read as syntax and none is followed by a
    quantifier. *)
Definition tame_char (c : ascii) (r : string) : bool :=
  negb (Ascii.eqb c "|") && negb (Ascii.eqb c "^") && negb (Ascii.eqb c "$")
  && negb (Ascii.eqb c "\" || Ascii.eqb c "(" || Ascii.eqb c "[")
  && negb (Ascii.eqb c ")") && negb (is_quantifier_start c r)
  && negb (Ascii.eqb c ".")
  && match parse_quantifier r with
     | QNone => true
     | _ => false
     end.

Fixpoint tame (s : string) : bool :=
  match s with
  | EmptyString => true
  | String c r => tame_char c r && tame r
  end.

Definition token (key : string) : string := "{{" ++ key ++ "}}".

(** What [value || ''] inserts. *)
Definition inserted (v : Value) : string := toString (or_else v (VStr "")).

Definition dollar_free (s : string) : bool := negb (occurs "$" s).

(** In [a] followed by [rest], the text [tok] starts at no position
    of [a]. *)
Fixpoint starts_after (a tok rest : string) : bool :=
  match a with
  | EmptyString => true
  | String _ a' => negb (prefix tok (a ++ rest)) && starts_after a' tok rest
  end.

(** [s.replace(/{{k}}/g, value)] for a token that stands for itself. *)
Definition substitute (k value s : string) : string :=
  replace_from [literal (token k)] value 0 true "" s.

Definition no_brace (c : ascii) : bool :=
  negb (Ascii.eqb c "{") && negb (Ascii.eqb c "}").

(** A name of variable without braces. *)
Definition brace_free (s : string) : bool := all_chars no_brace s.

(** A map whose keys are plain and whose values are inserted as they
    print: no [$] in them, and no number beyond the safe integers. *)
Definition plain_entry (kv : string * Value) : bool :=
  plain_key (fst kv)
  && dollar_free (inserted (snd kv))
  && safe_value (snd kv).

Definition plain_map (variables : Obj) : bool := forallb plain_entry variables.

End TemplateSpec.

(* ================================================================== *)
(** * Vocabulary: runs of a campaign                                *)
(* ================================================================== *)

Module BroadcastRunSpec.

Import Js WhatsApp Eff Broadcast BroadcastControl Scheduler BroadcastSpec.
Local Open Scope eff_scope.

(** [startCampaign] went past the check of the schedule. *)
Definition started (c : Campaign) : Prop :=
  cp_status c = Processing \/ cp_status c = Failed.

(** The campaign is not scheduled for later than [t]. *)
Definition not_later (t : Z) (c : Campaign) : Prop :=
  forall at_, cp_scheduled_at c = Some at_ -> (at_ <= t)%Z.

(** The row that [startCampaign] builds for a contact. *)
Definition row_for (campaign : Campaign) (c : Contact) (m : BroadcastMessage)
  : Prop :=
  bm_campaign_id m = cp_id campaign
  /\ bm_contact_id m = c_id c
  /\ bm_contact_phone m = c_phone c
  /\ interpolateContactVariables (cp_message_content campaign) c
     = Normal (bm_message_content m)
  /\ bm_status m = Pending.

Definition workspace_ready (d : Db) (c : Campaign) : Prop :=
  exists ws,
    find_workspace d (cp_workspace_id c) = Some ws
    /\ configured (whatsapp_phone_number_id ws) = true
    /\ configured (whatsapp_access_token ws) = true.

(** A store with one verified contact, whose custom fields are given,
    and a campaign for all contacts. *)
Definition one_contact_world (fields : Obj) (st : CampaignStatus)
  (at_ : option Z) : World :=
  {| db := {| workspaces := [ {| ws_id := "w1";
                                 whatsapp_phone_number_id := Some "p";
                                 whatsapp_access_token := Some "t" |} ];
              contacts := [ {| c_id := "c1"; c_workspace_id := "w1";
                               c_phone := "+33612345678";
                               c_name := Some "Sam"; c_email := None;
                               c_custom_fields := fields; c_tags := [];
                               c_whatsapp_verified := Some true;
                               c_opted_in := Some true |} ];
              campaigns := [ {| cp_id := "k1"; cp_workspace_id := "w1";
                                cp_message_content := "Hello {{name}}";
                                cp_target_type := TargetAll;
                                cp_target_filters := None;
                                cp_scheduled_at := at_;
                                cp_status := st;
                                cp_rate_limit := Some 10%Z;
                                cp_total_recipients := 0;
                                cp_sent_count := 0; cp_failed_count := 0;
                                cp_started_at := None;
                                cp_completed_at := None |} ];
              messages := [] |};
     clock := 1000;
     trace := [] |}.

(** The sends fail at the first attempt and go through at the
    second. *)
Definition second_attempt : Collaborators :=
  {| sendOk := fun _ attempt => negb (attempt =? 0);
     apiMessage := fun _ _ => None;
     rateExceeds := exact_rate_exceeds |}.

(** The attempts of [fn] before the [k]-th throw, the [i]-th one the
    error [err i], and take no time of their own. *)
Definition fails_before (A : Type) (fn : nat -> M World A)
  (err : nat -> string) (k : nat) : Prop :=
  forall i w, i < k ->
    exists w', fn i w = (Throw (err i), w') /\ clock w' = clock w.

End BroadcastRunSpec.

Module TargetSpec.
Import Js Broadcast BroadcastSpec.

(** The campaign narrows its audience by nothing: it targets all
    contacts, or names no list of contacts, or gives neither tags nor
    fields to filter on. *)
Definition unfiltered (campaign : Campaign) : bool :=
  match cp_target_type campaign, cp_target_filters campaign with
  | TargetAll, _ => true
  | _, None => true
  | TargetSpecific, Some f =>
      match contact_ids f with
      | None => true
      | Some _ => false
      end
  | TargetFiltered, Some f =>
      match tags f with
      | None | Some [] => true
      | Some (_ :: _) => false
      end
      && match custom_fields f with
         | None => true
         | Some o => match entries o with
                     | [] => true
                     | _ :: _ => false
                     end
         end
  end.

(** A campaign for named contacts of which the filters were lost. *)
Definition listless_campaign : Campaign :=
  {| cp_id := "k1"; cp_workspace_id := "w1";
     cp_message_content := "Hello";
     cp_target_type := TargetSpecific;
     cp_target_filters :=
       Some {| contact_ids := None; tags := Some ["vip"];
               custom_fields := None |};
     cp_scheduled_at := None; cp_status := Draft;
     cp_rate_limit := None; cp_total_recipients := 0;
     cp_sent_count := 0; cp_failed_count := 0;
     cp_started_at := None; cp_completed_at := None |}.

End TargetSpec.

Module UnconfiguredSpec.
Import Js WhatsApp Eff Broadcast BroadcastControl BroadcastSpec.

(** A processing campaign with three pending messages, in a workspace
    that has no access token. *)
Definition unconfigured_world : World :=
  {| db := {| workspaces := [ {| ws_id := "w1";
                                 whatsapp_phone_number_id := Some "p";
                                 whatsapp_access_token := None |} ];
              contacts := [];
              campaigns := [running_campaign];
              messages := map pending_message (seq 1 3) |};
     clock := 0;
     trace := [] |}.

End UnconfiguredSpec.

(* ================================================================== *)
(** * Vocabulary: runs of a flow                                    *)
(* ================================================================== *)

Module FlowRunSpec.

Import Js WhatsApp Eff Flow FlowScheduler FlowSpec.
Local Open Scope eff_scope.

(** The node executions among the effects, the first one first. *)
Definition executed (evs : list Event) : list string :=
  flat_map (fun ev => match ev with
                      | EvExecute i => [i]
                      | _ => []
                      end) (rev evs).

Definition apology : string :=
  "Sorry, something went wrong. Please try again later.".

(** The E.164 numbers: a plus sign, a digit from 1 to 9, then one to
    fourteen digits. *)
Definition e164 (s : string) : bool :=
  match s with
  | String plus (String d ds) =>
      Ascii.eqb plus "+"
      && (49 <=? nat_of_ascii d) && (nat_of_ascii d <=? 57)
      && all_digits ds
      && (1 <=? String.length ds) && (String.length ds <=? 14)
  | _ => false
  end.

(** A delay of one minute followed by a message. *)
Definition delayed_flow : Bot :=
  {| nodes := [ {| id := "d"; data := Delay 60000 |};
                {| id := "m";
                   data := SendMessage "Still there?" "text" None None |} ];
     edges := [ {| source := "d"; target := "m" |} ] |}.

(** A keyword trigger, a message and the end. *)
Definition greeting_flow : Bot :=
  {| nodes := [ {| id := "t"; data := Trigger Keyword (Some ["hello"]) |};
                {| id := "m"; data := SendMessage "Hi" "text" None None |};
                {| id := "z"; data := End |} ];
     edges := [ {| source := "t"; target := "m" |};
                {| source := "m"; target := "z" |} ] |}.


(** A conversation that a delay of one minute suspended at time 0,
    taken up again at time 60000. *)
Definition suspended : Engine :=
  let row := {| current_node_id := Some "d"; waiting_for := None;
                variables := [("resume_at", VStr "1970-01-01T00:01:00.000Z")];
                flow_history := ["d"] |} in
  {| context := row; clock := 60000; saved := Some row; trace := [] |}.

(** No send goes through: the API refuses the number. *)
Definition never_sends : Collaborators :=
  {| sendOk := fun _ => false;
     apiMessage := fun _ => Some "Invalid phone number";
     httpResult := fun _ => HttpError "unreachable";
     looseEquals := fun _ _ => false;
     numberLess := fun _ _ => false |}.

End FlowRunSpec.

Module EmailSpec.
Import Js Flow TemplateSpec.

(** A character that is neither white space nor [@]. *)
Definition email_char (c : ascii) : bool :=
  negb (is_space c) && negb (Ascii.eqb c "@").

(** [l@m.t] with [l], [m] and [t] not empty and made of such
    characters. *)
Definition email_shape (s : string) : Prop :=
  exists l m t,
    s = l ++ "@" ++ m ++ "." ++ t
    /\ l <> "" /\ m <> "" /\ t <> ""
    /\ all_chars email_char l = true
    /\ all_chars email_char m = true
    /\ all_chars email_char t = true.

End EmailSpec.

Module BranchSpec.
Import Js WhatsApp Eff Flow FlowSpec.



End BranchSpec.

(* ================================================================== *)
(** * Vocabulary: sequences of calls on the queue                   *)
(* ================================================================== *)

Module DLQRunSpec.

Import Js DLQ DLQSpec.




End DLQRunSpec.

(* ================================================================== *)
(** * Interpolation of templates                                    *)
(* ================================================================== *)

Module InterpolationFacts.

Import Js WhatsApp.

(** A pattern that matches nowhere leaves the string as it is. *)
Lemma replace_from_no_match (p : Pattern) (template : string) :
  forall (s pre : string) (pos0 : bool),
    search p pos0 s = false ->
    replace_from p template 0 pos0 pre s = s.
Proof.
  induction s as [|c s IH]; intros pre pos0 H; simpl in *.
  - destruct (match_pattern p pos0 "") eqn:E; [discriminate | reflexivity].
  - destruct (match_pattern p pos0 (String c s)) eqn:E; [discriminate |].
    now rewrite IH.
Qed.

Lemma replace_all_no_match (p : Pattern) (template s : string) :
  test p s = false -> replace_all p template s = s.
Proof. apply replace_from_no_match. Qed.

(** A value that is falsy is replaced by the empty string before the
    substitution. *)
Lemma falsy_is_empty (v : Value) :
  truthy v = false -> toString (or_else v (VStr "")) = "".
Proof. unfold or_else. now intros ->. Qed.

(** C7 as the specification states it fails: the result is not
    "Hello Sam, you owe ". *)
Lemma C7_counterexample :
  interpolateVariables "Hello {{name}}, you owe {{amt}}"
    [("name", VStr "Sam")]
  <> Normal "Hello Sam, you owe ".
Proof. vm_compute. discriminate. Qed.

(** C10 at a key that holds a character with a meaning in regular
    expressions: the key is pasted into the pattern as it is, [+]
    repeats the [a] before it, and the token of the key itself is not
    replaced, while another text is. *)
Theorem C10_key_is_read_as_a_pattern :
  interpolateVariables "Total: {{a+b}}" [("a+b", VStr "3")]
  = Normal "Total: {{a+b}}"
  /\ interpolateVariables "Total: {{aab}}" [("a+b", VStr "3")]
     = Normal "Total: 3".
Proof. split; vm_compute; reflexivity. Qed.

(** What does hold for every key: a falsy value is substituted as the
    empty string. *)
Lemma interpolate_falsy_value (template key : string) (v : Value) :
  truthy v = false ->
  interpolateVariables template [(key, v)]
  = interpolateVariables template [(key, VStr "")].
Proof.
  intros H. unfold interpolateVariables, entries.
  cbn [index_entries filter fst].
  destruct (array_index key);
    cbn [insert_by_index map snd app interpolate_entries];
    destruct (compile _); try reflexivity;
    now rewrite (falsy_is_empty _ H).
Qed.

End InterpolationFacts.

(* ================================================================== *)
(** * The broadcast dispatcher                                      *)
(* ================================================================== *)

Module EffFacts.

Import Js Eff.

Lemma bind_get {S A : Type} (k : S -> M S A) (s : S) :
  bind get k s = k s s.
Proof. reflexivity. Qed.

Lemma bind_get_context {A : Type} (k : Flow.Context -> M Flow.Engine A)
  (e : Flow.Engine) :
  bind Flow.get_context k e = k (Flow.context e) e.
Proof. reflexivity. Qed.

Lemma bind_ret {S A B : Type} (a : A) (k : A -> M S B) (s : S) :
  bind (ret a) k s = k a s.
Proof. reflexivity. Qed.

Lemma bind_normal {S A B : Type} (m : M S A) (k : A -> M S B) (s s' : S)
  (a : A) :
  m s = (Normal a, s') -> bind m k s = k a s'.
Proof. unfold bind. now intros ->. Qed.

Lemma bind_throw {S A B : Type} (m : M S A) (k : A -> M S B) (s s' : S)
  (e : string) :
  m s = (Throw e, s') -> bind m k s = (Throw e, s').
Proof. unfold bind. now intros ->. Qed.

End EffFacts.

Module BroadcastFacts.

Import Js WhatsApp Eff Broadcast EffFacts BroadcastSpec.

(** ** Recipients *)

Lemma is_true_spec (b : option bool) : is_true b = true <-> b = Some true.
Proof. destruct b as [[|]|]; simpl; split; congruence. Qed.

(** Every target type goes through the same base query. *)
Lemma getTargetContacts_eligible (campaign : Campaign) (d : Db) (c : Contact) :
  In c (getTargetContacts campaign d) ->
  In c (contacts d)
  /\ c_workspace_id c = cp_workspace_id campaign
  /\ c_opted_in c = Some true
  /\ c_whatsapp_verified c = Some true.
Proof.
  unfold getTargetContacts, base_query. intros H.
  apply filter_In in H. destruct H as [Hin H].
  repeat (apply andb_prop in H; destruct H as [H ?]).
  repeat split; try assumption.
  - now apply String.eqb_eq.
  - now apply is_true_spec.
  - now apply is_true_spec.
Qed.

Lemma build_messages_from_contacts (campaign : Campaign) :
  forall (cs : list Contact) (next : nat) (msgs : list BroadcastMessage),
    build_messages campaign next cs = Normal msgs ->
    forall m, In m msgs ->
      exists c, In c cs
                /\ bm_contact_id m = c_id c
                /\ bm_contact_phone m = c_phone c
                /\ bm_campaign_id m = cp_id campaign
                /\ bm_status m = Pending.
Proof.
  induction cs as [|c cs IH]; intros next msgs H m Hm; simpl in H.
  - inversion H; subst. contradiction.
  - destruct (interpolateContactVariables _ c); simpl in H; try discriminate.
    destruct (build_messages campaign (S next) cs) eqn:E; simpl in H;
      try discriminate.
    inversion H; subst. destruct Hm as [<- | Hm].
    + exists c. simpl. auto.
    + destruct (IH _ _ E m Hm) as (c' & Hin & Hrest).
      exists c'. split; [now right | exact Hrest].
Qed.

(** The rows that a call of [startCampaign] adds to
    [broadcast_messages]. *)
Lemma startCampaign_created (campaignId : string) (w : World) :
  exists created,
    messages (db (snd (startCampaign campaignId w)))
    = (messages (db w) ++ created)%list
    /\ (created = []
        \/ exists campaign,
             find_campaign (db w) campaignId = Some campaign
             /\ exists next,
                  build_messages campaign next
                    (getTargetContacts campaign (db w)) = Normal created).
Proof.
  unfold startCampaign, tryCatch, bind, get, now, set_status, update_db, emit,
    modify, throw, ret, lift. simpl.
  destruct (find_campaign (db w) campaignId) as [campaign|] eqn:Hc; simpl.
  2:{ exists []. rewrite app_nil_r. auto. }
  destruct (match cp_scheduled_at campaign with
            | Some at_ => (clock w <? at_)%Z
            | None => false
            end); simpl.
  { exists []. rewrite app_nil_r. auto. }
  destruct (List.length (getTargetContacts campaign _) =? 0); simpl.
  { exists []. rewrite app_nil_r. auto. }
  match goal with
  | |- context [build_messages campaign ?n ?cs] =>
      destruct (build_messages campaign n cs) as [msgs| |] eqn:Hb
  end; simpl.
  - exists msgs. split; [reflexivity | right].
    exists campaign. split; [reflexivity |]. eexists. exact Hb.
  - exists []. rewrite app_nil_r. auto.
  - exists []. rewrite app_nil_r. auto.
Qed.

Lemma unique_id_same_contact (cs : list Contact) (a b : Contact) :
  NoDup (map c_id cs) -> In a cs -> In b cs -> c_id a = c_id b -> a = b.
Proof.
  induction cs as [|x cs IH]; simpl; intros Hnd Ha Hb Heq; [contradiction |].
  inversion Hnd as [|? ? Hx Hnd']; subst.
  destruct Ha as [<- | Ha], Hb as [<- | Hb]; auto.
  - exfalso. apply Hx. rewrite Heq. now apply in_map.
  - exfalso. apply Hx. rewrite <- Heq. now apply in_map.
Qed.

(** C1: whatever the campaign and its target type, every row that
    [startCampaign] adds to [broadcast_messages] is for a contact of
    the store with [opted_in = true] and [whatsapp_verified = true];
    with unique contact ids, no row is added for the id of a contact
    that is not opted in or not verified, listed in [contact_ids] or
    not. *)
Theorem C1_messages_only_for_opted_in_verified_contacts
  (campaignId : string) (w : World) :
  exists created,
    messages (db (snd (startCampaign campaignId w)))
    = (messages (db w) ++ created)%list
    /\ (forall m, In m created ->
          exists c, In c (contacts (db w))
                    /\ bm_contact_id m = c_id c
                    /\ bm_contact_phone m = c_phone c
                    /\ c_opted_in c = Some true
                    /\ c_whatsapp_verified c = Some true)
    /\ (NoDup (map c_id (contacts (db w))) ->
        forall c, In c (contacts (db w)) ->
          c_opted_in c <> Some true \/ c_whatsapp_verified c <> Some true ->
          forall m, In m created -> bm_contact_id m <> c_id c).
Proof.
  destruct (startCampaign_created campaignId w) as (created & Heq & Hcase).
  assert (Hall : forall m, In m created ->
            exists c, In c (contacts (db w))
                      /\ bm_contact_id m = c_id c
                      /\ bm_contact_phone m = c_phone c
                      /\ c_opted_in c = Some true
                      /\ c_whatsapp_verified c = Some true).
  { intros m Hm. destruct Hcase as [-> | (campaign & _ & next & Hb)];
      [contradiction |].
    destruct (build_messages_from_contacts _ _ _ Hb m Hm)
      as (c & Hin & Hid & Hph & _).
    apply getTargetContacts_eligible in Hin.
    destruct Hin as (Hin & _ & Ho & Hv). exists c. auto. }
  exists created. split; [exact Heq | split; [exact Hall |]].
  intros Hnd c Hc Hbad m Hm Hid.
  destruct (Hall m Hm) as (c' & Hc' & Hid' & _ & Ho & Hv).
  assert (c' = c) by
    (apply (unique_id_same_contact _ _ _ Hnd Hc' Hc); congruence).
  subst c'. destruct Hbad; contradiction.
Qed.

(** ** Updates by id *)

Lemma find_campaign_update (id : string) (f : Campaign -> Campaign) (d : Db) :
  (forall c, cp_id (f c) = cp_id c) ->
  find_campaign (update_campaign id f d) id
  = option_map f (find_campaign d id).
Proof.
  intros Hf. unfold find_campaign, update_campaign. simpl.
  induction (campaigns d) as [|c cs IH]; simpl; [reflexivity |].
  destruct (String.eqb (cp_id c) id) eqn:E.
  - now rewrite Hf, E.
  - now rewrite E.
Qed.

Lemma getTargetContacts_update_campaign (campaign : Campaign) (id : string)
  (f : Campaign -> Campaign) (d : Db) :
  getTargetContacts campaign (update_campaign id f d)
  = getTargetContacts campaign d.
Proof. reflexivity. Qed.

(** C9: when the recipients of a campaign resolve to no contact,
    [startCampaign] first writes the status [processing], then ends
    with the status [failed] and [completed_at] set; it adds no row to
    [broadcast_messages] and does not start [processCampaign]. *)
Theorem C9_no_recipient_ends_failed
  (campaignId : string) (w : World) (campaign : Campaign) :
  find_campaign (db w) campaignId = Some campaign ->
  (forall at_, cp_scheduled_at campaign = Some at_ -> (at_ <= clock w)%Z) ->
  getTargetContacts campaign (db w) = [] ->
  fst (startCampaign campaignId w) = Normal false
  /\ messages (db (snd (startCampaign campaignId w))) = messages (db w)
  /\ history (snd (startCampaign campaignId w))
     = (history w ++ [EvCampaignStatus campaignId Processing;
                      EvCampaignStatus campaignId Failed])%list
  /\ exists c',
       find_campaign (db (snd (startCampaign campaignId w))) campaignId
       = Some c'
       /\ cp_status c' = Failed
       /\ cp_completed_at c' = Some (clock w).
Proof.
  intros Hc Hsched Hnone.
  assert (Hs : match cp_scheduled_at campaign with
               | Some at_ => (clock w <? at_)%Z
               | None => false
               end = false).
  { destruct (cp_scheduled_at campaign) as [at_|] eqn:E; [| reflexivity].
    apply Z.ltb_ge. now apply Hsched. }
  unfold startCampaign, tryCatch, bind, get, now, set_status, update_db, emit,
    modify, throw, ret, lift, history. simpl.
  rewrite Hc. simpl. rewrite Hs. simpl.
  rewrite getTargetContacts_update_campaign, Hnone. simpl.
  split; [reflexivity | split; [reflexivity | split]].
  - now rewrite <- app_assoc.
  - match goal with
    | |- context [find_campaign ?d campaignId] =>
        change d with
          (update_campaign campaignId (with_status Failed None (Some (clock w)))
             (update_campaign campaignId
                (with_status Processing (Some (clock w)) None) (db w)))
    end.
    rewrite !find_campaign_update by reflexivity. rewrite Hc. simpl.
    eexists. repeat split.
Qed.

Lemma C9_no_recipient_ends_failed_witness :
  fst (startCampaign "k1" opted_out_world) = Normal false
  /\ history (snd (startCampaign "k1" opted_out_world))
     = [EvCampaignStatus "k1" Processing; EvCampaignStatus "k1" Failed].
Proof.
  assert (H : exists c, find_campaign (db opted_out_world) "k1" = Some c
                        /\ cp_scheduled_at c = None
                        /\ getTargetContacts c (db opted_out_world) = [])
    by (eexists; repeat split).
  destruct H as (c & Hc & Hs & Hn).
  destruct (C9_no_recipient_ends_failed "k1" opted_out_world Hc)
    as (H1 & _ & H3 & _).
  - intros at_ E. rewrite Hs in E. discriminate.
  - exact Hn.
  - split; [exact H1 | exact H3].
Defined.

(** ** One message of a campaign *)

Lemma processMessage_spec (col : Collaborators) (env : Config.Environment)
  (campaignId : string) (delayMs : Q) (m : BroadcastMessage)
  (sent failed : nat) (w : World) :
  let counts := counts_after col (bm_id m) sent failed in
  exists t upd,
    settles upd
    /\ processMessage col env campaignId delayMs m sent failed w
       = (if aborts col env counts then Throw threshold_error
          else Normal counts,
          {| db := update_campaign campaignId
                     (with_counts (fst counts) (snd counts))
                     (update_message (bm_id m) upd (db w));
             clock := t;
             trace := (rev (message_events col campaignId delayMs (bm_id m)
                              (fst counts) (snd counts))
                       ++ trace w)%list |}).
Proof.
  unfold counts_after, aborts, message_events, attempts_of, fails.
  unfold processMessage, withRetry, sendText.
  cbn [withRetry_from].
  unfold sleep, emit, update_db, now.
  unfold tryCatch, bind, modify, throw, ret.
  destruct (sendOk col (bm_id m) 0) eqn:E0;
    [| destruct (sendOk col (bm_id m) 1) eqn:E1;
       [| destruct (sendOk col (bm_id m) 2) eqn:E2]];
    cbn [negb andb fst snd db clock trace];
    match goal with
    | |- context [rateExceeds col ?f ?s ?th && (10 <? ?n)] =>
        destruct (rateExceeds col f s th && (10 <? n))
    end;
    cbn [fst snd db clock trace];
    eexists; eexists; (split; [| reflexivity]);
    intros x; repeat split.
Qed.

(** ** A batch *)

Lemma db_steps_app (campaignId : string) (a b : Processed) (d1 d2 d3 : Db) :
  db_steps campaignId a d1 d2 -> db_steps campaignId b d2 d3 ->
  db_steps campaignId (a ++ b)%list d1 d3.
Proof.
  induction 1; intros Hb; simpl; [exact Hb |].
  econstructor; eauto.
Qed.

Lemma events_of_app (col : Collaborators) (campaignId : string) (delayMs : Q)
  (a b : Processed) :
  events_of col campaignId delayMs (a ++ b)%list
  = (events_of col campaignId delayMs a
     ++ events_of col campaignId delayMs b)%list.
Proof. unfold events_of. now rewrite flat_map_app. Qed.

Lemma processMessages_spec (col : Collaborators) (env : Config.Environment)
  (campaignId : string) (delayMs : Q) :
  forall (batch : list BroadcastMessage) (sent failed : nat) (w : World),
  exists t d',
    processMessages col env campaignId delayMs batch sent failed w
    = (completion_of (snd (drain col env batch sent failed)),
       {| db := d'; clock := t;
          trace := (rev (events_of col campaignId delayMs
                           (fst (drain col env batch sent failed)))
                    ++ trace w)%list |})
    /\ db_steps campaignId (fst (drain col env batch sent failed)) (db w) d'.
Proof.
  induction batch as [|m rest IH]; intros sent failed w.
  - exists (clock w), (db w). split; [| constructor].
    destruct w; reflexivity.
  - cbn [processMessages drain]. unfold bind at 1.
    destruct (processMessage_spec col env campaignId delayMs m sent failed w)
      as (t & upd & Hupd & ->).
    cbv zeta.
    destruct (aborts col env (counts_after col (bm_id m) sent failed)) eqn:Ha.
    + do 2 eexists. split.
      * cbn [fst snd completion_of events_of flat_map]. rewrite app_nil_r.
        reflexivity.
      * cbn [fst]. econstructor; [exact Hupd | constructor].
    + set (c := counts_after col (bm_id m) sent failed) in *.
      match goal with
      | |- context [processMessages _ _ _ _ rest _ _ ?w1] =>
          destruct (IH (fst c) (snd c) w1) as (t' & d' & -> & Hsteps)
      end.
      destruct (drain col env rest (fst c) (snd c)) as [done r] eqn:Hd.
      exists t', d'. split.
      * cbn [fst snd trace events_of flat_map].
        fold (events_of col campaignId delayMs done).
        now rewrite rev_app_distr, <- app_assoc.
      * cbn [fst]. econstructor; [exact Hupd | exact Hsteps].
Qed.

Lemma drain_none (col : Collaborators) (env : Config.Environment) :
  forall (batch : list BroadcastMessage) (sent failed : nat),
    snd (drain col env batch sent failed) = None ->
    exists pre i c,
      fst (drain col env batch sent failed) = (pre ++ [(i, c)])%list
      /\ aborts col env c = true.
Proof.
  induction batch as [|m rest IH]; intros sent failed; cbn [drain].
  - discriminate.
  - cbv zeta.
    destruct (aborts col env (counts_after col (bm_id m) sent failed)) eqn:Ha.
    + intros _. exists [], (bm_id m). eexists. split; [reflexivity | exact Ha].
    + specialize (IH (fst (counts_after col (bm_id m) sent failed))
                    (snd (counts_after col (bm_id m) sent failed))).
      destruct (drain col env rest _ _) as [done r]. cbn [fst snd] in *.
      intros Hr. destruct (IH Hr) as (pre & i & c & -> & Hc).
      exists ((bm_id m, counts_after col (bm_id m) sent failed) :: pre), i, c.
      split; [reflexivity | exact Hc].
Qed.

(** ** The loop *)

Lemma processLoop_trace (col : Collaborators) (env : Config.Environment)
  (campaignId : string) (delayMs : Q) :
  forall (fuel sent failed : nat) (w : World),
  exists done,
    trace (snd (processLoop fuel col env campaignId delayMs sent failed w))
    = (rev (events_of col campaignId delayMs done) ++ trace w)%list
    /\ loop_result col env done
         (fst (processLoop fuel col env campaignId delayMs sent failed w)).
Proof.
  induction fuel as [|fuel IH]; intros sent failed w.
  - exists []. simpl. split; [reflexivity | discriminate].
  - cbn [processLoop]. rewrite bind_get.
    destruct (find_campaign (db w) campaignId) as [c|].
    2:{ exists []. split; [reflexivity | now left]. }
    assert (Hgo :
      exists done,
        trace (snd (match firstn 10 (pending_of campaignId (db w)) with
                    | [] => ret RunCompleted
                    | m :: l =>
                        bind (processMessages col env campaignId delayMs
                                (m :: l) sent failed)
                          (fun counts =>
                             processLoop fuel col env campaignId delayMs
                               (fst counts) (snd counts))
                    end w))
        = (rev (events_of col campaignId delayMs done) ++ trace w)%list
        /\ loop_result col env done
             (fst (match firstn 10 (pending_of campaignId (db w)) with
                   | [] => ret RunCompleted
                   | m :: l =>
                       bind (processMessages col env campaignId delayMs
                               (m :: l) sent failed)
                         (fun counts =>
                            processLoop fuel col env campaignId delayMs
                              (fst counts) (snd counts))
                   end w))).
    { destruct (firstn 10 (pending_of campaignId (db w))) as [|m l].
      - exists []. split; [reflexivity | discriminate].
      - unfold bind.
        destruct (processMessages_spec col env campaignId delayMs (m :: l)
                    sent failed w) as (t & d' & -> & _).
        destruct (drain col env (m :: l) sent failed) as [done r] eqn:Hd.
        destruct r as [counts|]; cbn [fst snd completion_of].
        + match goal with
          | |- context [processLoop fuel _ _ _ _ _ _ ?w1] =>
              destruct (IH (fst counts) (snd counts) w1) as (done' & Ht & Hr)
          end.
          exists (done ++ done')%list. split.
          * rewrite Ht. cbn [trace].
            now rewrite events_of_app, rev_app_distr, <- app_assoc.
          * destruct (fst (processLoop fuel _ _ _ _ _ _ _)) as [o|e|];
              cbn [loop_result] in *; auto.
            destruct Hr as [Hr | (He & pre & i & c' & -> & Hc)]; [now left |].
            right. split; [exact He |].
            exists (done ++ pre)%list, i, c'. split; [| exact Hc].
            now rewrite <- app_assoc.
        + exists done. split; [reflexivity |].
          cbn [loop_result]. right. split; [reflexivity |].
          pose proof (drain_none col env (m :: l) sent failed) as Hn.
          rewrite Hd in Hn. apply Hn. reflexivity. }
    destruct (cp_status c); try exact Hgo;
      exists []; (split; [reflexivity | discriminate]).
Qed.

(** ** A run of [processCampaign] *)

Lemma history_extend (w w' : World) (evs : list Event) :
  trace w' = (rev evs ++ trace w)%list ->
  history w' = (history w ++ evs)%list.
Proof.
  unfold history. intros ->. now rewrite rev_app_distr, rev_involutive.
Qed.

Lemma processCampaign_trace (col : Collaborators) (env : Config.Environment)
  (campaignId : string) (w : World) :
  exists done closing,
    history (snd (processCampaign col env campaignId w))
    = (history w
       ++ events_of col campaignId (delay_in env campaignId w) done
       ++ closing)%list
    /\ closing_events campaignId closing
    /\ (fst (processCampaign col env campaignId w)
        = Normal (RunFailed threshold_error) ->
        closing = [EvCampaignStatus campaignId Failed]
        /\ exists pre i c,
             done = (pre ++ [(i, c)])%list /\ aborts col env c = true).
Proof.
  unfold processCampaign, tryCatch, delay_in. rewrite bind_get.
  destruct (find_campaign (db w) campaignId) as [campaign|].
  2:{ exists [], [EvCampaignStatus campaignId Failed].
      split; [reflexivity | split; [right; eauto |]].
      intros H. discriminate H. }
  destruct (find_workspace (db w) (cp_workspace_id campaign)) as [ws|].
  2:{ exists [], [EvCampaignStatus campaignId Failed].
      split; [reflexivity | split; [right; eauto |]].
      intros H. discriminate H. }
  destruct (negb (configured (whatsapp_phone_number_id ws))
            || negb (configured (whatsapp_access_token ws))).
  { exists [], [EvCampaignStatus campaignId Failed].
    split; [reflexivity | split; [right; eauto |]].
    intros H. discriminate H. }
  destruct (processLoop_trace col env campaignId (delayMs_of env campaign)
              (S (List.length (pending_of campaignId (db w)))) 0 0 w)
    as (done & Ht & Hr).
  destruct (processLoop _ col env campaignId _ 0 0 w) as [r w1] eqn:E.
  cbn [fst snd] in Ht, Hr.
  destruct r as [o|e|]; [| | contradiction].
  - rewrite (bind_normal _ _ _ E).
    destruct o.
    + exists done, [EvCampaignStatus campaignId Completed].
      split; [| split; [right; eauto | intros H; discriminate H]].
      apply history_extend. cbn. rewrite Ht.
      now rewrite rev_app_distr, <- app_assoc.
    + exists done, []. rewrite app_nil_r.
      split; [now apply history_extend
             | split; [now left | intros H; cbn in H; discriminate H]].
    + exists done, []. rewrite app_nil_r.
      split; [now apply history_extend
             | split; [now left | intros H; cbn in H; discriminate H]].
    + exfalso. now apply (Hr error).
    + exists done, []. rewrite app_nil_r.
      split; [now apply history_extend
             | split; [now left | intros H; cbn in H; discriminate H]].
  - rewrite (bind_throw _ _ _ E).
    exists done, [EvCampaignStatus campaignId Failed].
    split; [| split; [right; eauto |]].
    + apply history_extend. cbn. rewrite Ht.
      now rewrite rev_app_distr, <- app_assoc.
    + cbn. intros H. inversion H; subst e.
      split; [reflexivity |].
      destruct Hr as [Hr | (_ & Hr)]; [discriminate Hr | exact Hr].
Qed.

Lemma waits_message_events (col : Collaborators) (campaignId : string)
  (delayMs : Q) (i sent failed : nat) (rest : list Event) :
  waits_after_sent_only campaignId delayMs rest ->
  no_wait_first rest ->
  waits_after_sent_only campaignId delayMs
    (message_events col campaignId delayMs i sent failed ++ rest)
  /\ no_wait_first (message_events col campaignId delayMs i sent failed ++ rest).
Proof.
  intros Hrest Hfirst.
  unfold message_events, attempts_of, fails, no_wait_first.
  destruct (sendOk col i 0); [| destruct (sendOk col i 1);
                                 [| destruct (sendOk col i 2)]];
    cbn [negb andb app waits_after_sent_only];
    (split; [repeat split; eauto; try discriminate | discriminate]).
Qed.

Lemma waits_events_of (col : Collaborators) (campaignId : string)
  (delayMs : Q) (rest : list Event) :
  waits_after_sent_only campaignId delayMs rest ->
  no_wait_first rest ->
  forall done : Processed,
    waits_after_sent_only campaignId delayMs
      (events_of col campaignId delayMs done ++ rest)
    /\ no_wait_first (events_of col campaignId delayMs done ++ rest).
Proof.
  intros Hrest Hfirst. induction done as [|[i [sent failed]] done IH].
  - split; assumption.
  - cbn [events_of flat_map fst snd]. fold (events_of col campaignId delayMs done).
    rewrite <- app_assoc. apply waits_message_events; apply IH.
Qed.

(** ** Rate limiting (C8) *)

(** C8, as the code has it: the effects of a run of [processCampaign]
    are those of its messages one after the other, then at most a last
    status.  For each message they are the attempts to send with the
    back-off of [withRetry] after each failure, the status of the
    message, the wait of [1000 / rateLimit] milliseconds when that
    status is [sent] ([rateLimit] being the [rate_limit] of the
    campaign, or the default when it is null or 0), and the counters.
    So the wait follows every message that ends [sent]; after a
    message that ends [failed] the counters are written at once and no
    wait follows them. *)
Theorem C8_rate_limit_wait_follows_sent_only
  (col : Collaborators) (env : Config.Environment) (campaignId : string)
  (w : World) (campaign : Campaign) :
  find_campaign (db w) campaignId = Some campaign ->
  exists done closing,
    history (snd (processCampaign col env campaignId w))
    = (history w
       ++ events_of col campaignId (delayMs_of env campaign) done
       ++ closing)%list
    /\ closing_events campaignId closing
    /\ waits_after_sent_only campaignId (delayMs_of env campaign)
         (events_of col campaignId (delayMs_of env campaign) done ++ closing).
Proof.
  intros Hc.
  destruct (processCampaign_trace col env campaignId w)
    as (done & closing & Hh & Hcl & _).
  unfold delay_in in Hh. rewrite Hc in Hh.
  exists done, closing. split; [exact Hh | split; [exact Hcl |]].
  apply waits_events_of.
  - destruct Hcl as [-> | (st & ->)]; exact I.
  - destruct Hcl as [-> | (st & ->)]; intros d rest'; discriminate.
Qed.

Lemma C8_rate_limit_wait_follows_sent_only_witness :
  exists done closing,
    history (snd (processCampaign (failing [1]) default_environment "k1"
                    (campaign_world 2)))
    = (history (campaign_world 2)
       ++ events_of (failing [1]) "k1"
            (delayMs_of default_environment running_campaign) done
       ++ closing)%list
    /\ closing_events "k1" closing
    /\ waits_after_sent_only "k1"
         (delayMs_of default_environment running_campaign)
         (events_of (failing [1]) "k1"
            (delayMs_of default_environment running_campaign) done
          ++ closing).
Proof.
  apply (C8_rate_limit_wait_follows_sent_only
           (failing [1]) default_environment "k1" (campaign_world 2)
           (campaign := running_campaign)).
  reflexivity.
Defined.

(** The first of two messages fails for good: the second one is
    attempted without the wait of 1000 / 10 milliseconds. *)
Lemma C8_counterexample :
  history (snd (processCampaign (failing [1]) default_environment "k1"
                  (campaign_world 2)))
  = [EvSendAttempt 1 0 false; EvSleep (inject_Z 1000);
     EvSendAttempt 1 1 false; EvSleep (inject_Z 2000);
     EvSendAttempt 1 2 false; EvSleep (inject_Z 4000);
     EvMessageStatus 1 MessageFailed; EvStats "k1" 0 1;
     EvSendAttempt 2 0 true; EvMessageStatus 2 Sent;
     EvSleep (delayMs_of default_environment running_campaign);
     EvStats "k1" 1 1; EvCampaignStatus "k1" Completed]
  /\ waits_after_every_message
       (delayMs_of default_environment running_campaign)
       (history (snd (processCampaign (failing [1]) default_environment "k1"
                        (campaign_world 2))))
     = false.
Proof. split; vm_compute; reflexivity. Qed.

(** ** The store along a run *)

Lemma pend_settled (campaignId : string)
  (upd : BroadcastMessage -> BroadcastMessage) (x : BroadcastMessage) :
  settles upd -> pend campaignId (upd x) = false.
Proof.
  intros H. unfold pend. destruct (H x) as (_ & _ & ->).
  apply andb_false_r.
Qed.

Lemma map_update_absent (i : nat)
  (upd : BroadcastMessage -> BroadcastMessage) (ms : list BroadcastMessage) :
  ~ In i (map bm_id ms) ->
  map (fun x => if bm_id x =? i then upd x else x) ms = ms.
Proof.
  induction ms as [|x ms IH]; simpl; intros H; [reflexivity |].
  destruct (bm_id x =? i) eqn:E.
  - apply Nat.eqb_eq in E. exfalso. apply H. now left.
  - rewrite IH; [reflexivity |]. intros Hin. apply H. now right.
Qed.

(** With unique keys, the update of the first pending message of a
    campaign removes it from the pending ones and leaves the others. *)
Lemma pending_after_update (campaignId : string)
  (upd : BroadcastMessage -> BroadcastMessage) (m : BroadcastMessage)
  (R : list BroadcastMessage) :
  settles upd ->
  forall ms : list BroadcastMessage,
    NoDup (map bm_id ms) ->
    filter (pend campaignId) ms = m :: R ->
    filter (pend campaignId)
      (map (fun x => if bm_id x =? bm_id m then upd x else x) ms)
    = R.
Proof.
  intros Hupd. induction ms as [|x ms IH]; simpl; intros Hnd Hf.
  - discriminate.
  - inversion Hnd as [|? ? Hx Hnd']; subst.
    destruct (pend campaignId x) eqn:Ex.
    + inversion Hf; subst. rewrite Nat.eqb_refl.
      rewrite (pend_settled campaignId m Hupd).
      now rewrite (map_update_absent _ _ _ Hx).
    + assert (Hm : In m ms).
      { assert (In m (filter (pend campaignId) ms))
          by (rewrite Hf; now left).
        now apply filter_In in H. }
      destruct (bm_id x =? bm_id m) eqn:E.
      * apply Nat.eqb_eq in E. exfalso. apply Hx. rewrite E.
        now apply in_map.
      * rewrite Ex. now apply IH.
Qed.

Lemma pending_of_update_campaign (campaignId i : string)
  (f : Campaign -> Campaign) (d : Db) :
  pending_of campaignId (update_campaign i f d) = pending_of campaignId d.
Proof. reflexivity. Qed.

Lemma db_steps_ids (campaignId : string) (done : Processed) (d d' : Db) :
  db_steps campaignId done d d' ->
  map bm_id (messages d') = map bm_id (messages d).
Proof.
  induction 1 as [|i c upd done d d' Hupd _ IH]; [reflexivity |].
  rewrite IH. cbn. rewrite map_map. apply map_ext.
  intros x. destruct (bm_id x =? i); [apply Hupd | reflexivity].
Qed.

(** The handled messages are the first pending ones, in order; the
    others stay pending. *)
Lemma db_steps_pending (campaignId : string) (done : Processed) (d d' : Db) :
  db_steps campaignId done d d' ->
  NoDup (map bm_id (messages d)) ->
  forall B R : list BroadcastMessage,
    pending_of campaignId d = (B ++ R)%list ->
    map bm_id B = map fst done ->
    pending_of campaignId d' = R.
Proof.
  induction 1 as [|i c upd done d d' Hupd Hsteps IH]; intros Hnd B R HP Hids.
  - destruct B; [exact HP | discriminate].
  - destruct B as [|m B]; [discriminate |].
    cbn in Hids. inversion Hids as [[Hi Hrest]].
    apply (IH) with (B := B).
    + cbn. rewrite map_map.
      erewrite map_ext; [exact Hnd |].
      intros x. cbn. destruct (bm_id x =? i); [apply Hupd | reflexivity].
    + rewrite pending_of_update_campaign. subst i.
      exact (pending_after_update campaignId Hupd (messages d) Hnd HP).
    + exact Hrest.
Qed.

Lemma last_cons_default {A : Type} (l : list A) (a d : A) :
  last (a :: l) d = last l a.
Proof.
  revert a d. induction l as [|b l IH]; intros a d; [reflexivity |].
  change (last (a :: b :: l) d) with (last (b :: l) d).
  now rewrite !IH.
Qed.

Lemma db_steps_campaign (campaignId : string) (done : Processed) (d d' : Db) :
  db_steps campaignId done d d' ->
  forall c, find_campaign d campaignId = Some c ->
    exists c',
      find_campaign d' campaignId = Some c'
      /\ cp_status c' = cp_status c
      /\ (cp_sent_count c', cp_failed_count c')
         = final_counts done (cp_sent_count c, cp_failed_count c).
Proof.
  induction 1 as [|i cnt upd done d d' Hupd Hsteps IH]; intros c Hc.
  - exists c. auto.
  - destruct (IH (with_counts (fst cnt) (snd cnt) c)) as (c' & Hf & Hs & Hn).
    + rewrite find_campaign_update by reflexivity.
      unfold find_campaign in *. cbn. now rewrite Hc.
    + exists c'. split; [exact Hf | split; [exact Hs |]].
      rewrite Hn. unfold final_counts. cbn [map snd].
      rewrite last_cons_default. destruct cnt. reflexivity.
Qed.

(** ** The loop on a store with unique keys *)

Lemma drain_app (col : Collaborators) (env : Config.Environment) :
  forall (B R : list BroadcastMessage) (sent failed : nat),
    drain col env (B ++ R) sent failed
    = match drain col env B sent failed with
      | (done, None) => (done, None)
      | (done, Some c) =>
          let (done', r) := drain col env R (fst c) (snd c) in
          ((done ++ done')%list, r)
      end.
Proof.
  induction B as [|m B IH]; intros R sent failed.
  - cbn. now destruct (drain col env R sent failed).
  - cbn [app drain]. cbv zeta.
    destruct (aborts col env (counts_after col (bm_id m) sent failed));
      [reflexivity |].
    rewrite IH.
    destruct (drain col env B _ _) as [done [c|]]; [| reflexivity].
    now destruct (drain col env R (fst c) (snd c)).
Qed.

Lemma drain_some_ids (col : Collaborators) (env : Config.Environment) :
  forall (B : list BroadcastMessage) (sent failed : nat) (c : nat * nat),
    snd (drain col env B sent failed) = Some c ->
    map fst (fst (drain col env B sent failed)) = map bm_id B.
Proof.
  induction B as [|m B IH]; intros sent failed c; cbn [drain].
  - reflexivity.
  - cbv zeta.
    destruct (aborts col env (counts_after col (bm_id m) sent failed));
      [discriminate |].
    specialize (IH (fst (counts_after col (bm_id m) sent failed))
                  (snd (counts_after col (bm_id m) sent failed)) c).
    destruct (drain col env B _ _) as [done r]. cbn [fst snd] in *.
    intros Hr. cbn. now rewrite (IH Hr).
Qed.

Lemma active_branch {A : Type} (st : CampaignStatus) (x y z : A) :
  active st ->
  match st with
  | Paused => x
  | Cancelled => y
  | _ => z
  end = z.
Proof. intros [H1 H2]. destruct st; congruence. Qed.

Lemma skipn_shorter {A : Type} (l : list A) :
  l <> [] -> List.length (skipn 10 l) < List.length l.
Proof.
  intros H. rewrite length_skipn. destruct l; [congruence | simpl; lia].
Qed.

(** With unique keys and enough fuel, the loop handles the pending
    messages in order until none is left or the threshold stops it. *)
Lemma processLoop_exact (col : Collaborators) (env : Config.Environment)
  (campaignId : string) (delayMs : Q) :
  forall (fuel : nat) (P : list BroadcastMessage) (sent failed : nat)
         (w : World) (c : Campaign),
    NoDup (map bm_id (messages (db w))) ->
    find_campaign (db w) campaignId = Some c ->
    active (cp_status c) ->
    pending_of campaignId (db w) = P ->
    List.length P < fuel ->
    exists t d',
      processLoop fuel col env campaignId delayMs sent failed w
      = (outcome_of (snd (drain col env P sent failed)),
         {| db := d'; clock := t;
            trace := (rev (events_of col campaignId delayMs
                             (fst (drain col env P sent failed)))
                      ++ trace w)%list |})
      /\ db_steps campaignId (fst (drain col env P sent failed)) (db w) d'.
Proof.
  induction fuel as [|fuel IH]; intros P sent failed w c Hnd Hc Hact HP Hfuel;
    [lia |].
  cbn [processLoop]. rewrite bind_get, Hc.
  rewrite (active_branch _ _ _ Hact). rewrite HP.
  destruct P as [|p P'] eqn:EP.
  - exists (clock w), (db w). split; [| constructor].
    destruct w; reflexivity.
  - rewrite <- EP in *.
    assert (Hne : P <> []) by (rewrite EP; discriminate).
    set (B := firstn 10 P). set (R := skipn 10 P).
    assert (HBR : P = (B ++ R)%list) by (symmetry; apply firstn_skipn).
    assert (HB : exists b B', B = b :: B')
      by (unfold B; rewrite EP; cbn; eauto).
    destruct HB as (b & B' & HB). rewrite HB. rewrite <- HB.
    destruct (processMessages_spec col env campaignId delayMs B sent failed w)
      as (t1 & d1 & Hrun & Hsteps).
    pose proof (drain_app col env B R sent failed) as Happ.
    rewrite <- HBR in Happ.
    destruct (drain col env B sent failed) as [done [cnt|]] eqn:HdB;
      cbn [fst snd completion_of] in *.
    + rewrite (bind_normal _ _ _ Hrun).
      pose proof (drain_some_ids col env B sent failed) as Hids.
      rewrite HdB in Hids. specialize (Hids cnt eq_refl). cbn [fst] in Hids.
      assert (HR : pending_of campaignId d1 = R).
      { apply (db_steps_pending Hsteps Hnd B R); [| now symmetry].
        now rewrite HP. }
      destruct (db_steps_campaign Hsteps Hc) as (c1 & Hc1 & Hst1 & _).
      destruct (IH R (fst cnt) (snd cnt)
                  {| db := d1; clock := t1;
                     trace := (rev (events_of col campaignId delayMs done)
                               ++ trace w)%list |} c1)
        as (t2 & d2 & Hrun2 & Hsteps2).
      * cbn. rewrite (db_steps_ids Hsteps). exact Hnd.
      * exact Hc1.
      * now rewrite Hst1.
      * exact HR.
      * pose proof (skipn_shorter Hne). fold R in H. lia.
      * rewrite Hrun2. rewrite Happ.
        destruct (drain col env R (fst cnt) (snd cnt)) as [done' r].
        cbn [fst snd trace db] in *.
        exists t2, d2. split.
        -- now rewrite events_of_app, rev_app_distr, <- app_assoc.
        -- exact (db_steps_app Hsteps Hsteps2).
    + rewrite (bind_throw _ _ _ Hrun). rewrite Happ. cbn [fst snd outcome_of].
      exists t1, d1. split; [reflexivity | exact Hsteps].
Qed.

(** ** The failure threshold (C4) *)

Lemma successes_failures (col : Collaborators) (B : list BroadcastMessage) :
  successes col B + failures col B = List.length B.
Proof.
  unfold successes, failures. induction B as [|m B IH]; simpl; [reflexivity |].
  destruct (fails col (bm_id m)); simpl; lia.
Qed.

(** Up to ten messages in all, the threshold cannot stop the run. *)
Lemma drain_small (col : Collaborators) (env : Config.Environment) :
  forall (B : list BroadcastMessage) (sent failed : nat),
    sent + failed + List.length B <= 10 ->
    exists done,
      drain col env B sent failed
      = (done, Some (sent + successes col B, failed + failures col B))
      /\ map fst done = map bm_id B.
Proof.
  induction B as [|m B IH]; intros sent failed Hle.
  - exists []. cbn. now rewrite !Nat.add_0_r.
  - cbn [drain]. cbv zeta. cbn [List.length] in Hle.
    assert (Ha : aborts col env (counts_after col (bm_id m) sent failed)
                 = false).
    { unfold aborts, counts_after. apply andb_false_iff. right.
      apply Nat.ltb_ge. destruct (fails col (bm_id m)); cbn; lia. }
    rewrite Ha. unfold counts_after, successes, failures. cbn [filter].
    destruct (fails col (bm_id m)); cbn [fst snd negb List.length].
    + destruct (IH sent (S failed)) as (done & -> & Hids); [lia |].
      exists ((bm_id m, (sent, S failed)) :: done).
      split; [| cbn; now rewrite Hids].
      unfold successes, failures. now rewrite Nat.add_succ_r.
    + destruct (IH (S sent) failed) as (done & -> & Hids); [lia |].
      exists ((bm_id m, (S sent, failed)) :: done).
      split; [| cbn; now rewrite Hids].
      unfold successes, failures. now rewrite Nat.add_succ_r.
Qed.

Lemma split_at_eleven {A : Type} (P : list A) :
  11 <= List.length P ->
  exists B m R,
    P = (B ++ m :: R)%list
    /\ List.length B = 10
    /\ firstn 11 P = (B ++ [m])%list
    /\ skipn 11 P = R.
Proof.
  intros H.
  assert (HB : List.length (firstn 10 P) = 10)
    by (rewrite length_firstn; lia).
  destruct (skipn 10 P) as [|m R] eqn:E.
  - pose proof (length_skipn 10 P) as Hl. rewrite E in Hl. simpl in Hl. lia.
  - exists (firstn 10 P), m, R.
    assert (HP : P = (firstn 10 P ++ m :: R)%list)
      by (rewrite <- E; symmetry; apply firstn_skipn).
    repeat split; [exact HP | exact HB | |].
    + rewrite HP at 1. change 11 with (10 + 1). rewrite <- HB at 1.
      now rewrite firstn_app_2.
    + rewrite HP at 1. rewrite skipn_app, HB.
      rewrite skipn_all2 by lia. reflexivity.
Qed.

Lemma attempt_of_message (col : Collaborators) (campaignId : string)
  (delayMs : Q) (i a j sent failed : nat) (ok : bool) :
  In (EvSendAttempt i a ok)
     (message_events col campaignId delayMs j sent failed) ->
  i = j.
Proof.
  unfold message_events, attempts_of.
  destruct (sendOk col j 0); [| destruct (sendOk col j 1);
                                 [| destruct (sendOk col j 2)]];
    destruct (fails col j); cbn;
    intros H; repeat (destruct H as [H | H]; try congruence); contradiction.
Qed.

Lemma attempt_of_processed (col : Collaborators) (campaignId : string)
  (delayMs : Q) (i a : nat) (ok : bool) (done : Processed) :
  In (EvSendAttempt i a ok) (events_of col campaignId delayMs done) ->
  In i (map fst done).
Proof.
  unfold events_of. intros H. apply in_flat_map in H.
  destruct H as (p & Hp & H). apply attempt_of_message in H. subst i.
  now apply in_map.
Qed.

(** The scenario of the specification, on a store with unique keys.
    The campaign is being processed, its workspace is configured, the
    threshold is 30 and, of the first eleven pending messages, four
    fail for good. *)
Lemma threshold_scenario (col : Collaborators) (env : Config.Environment)
  (campaignId : string) (w : World) (campaign : Campaign) (ws : Workspace) :
  NoDup (map bm_id (messages (db w))) ->
  find_campaign (db w) campaignId = Some campaign ->
  active (cp_status campaign) ->
  find_workspace (db w) (cp_workspace_id campaign) = Some ws ->
  configured (whatsapp_phone_number_id ws) = true ->
  configured (whatsapp_access_token ws) = true ->
  Config.failureThreshold env = 30%Z ->
  agrees_off_ties col ->
  11 <= List.length (pending_of campaignId (db w)) ->
  failures col (firstn 11 (pending_of campaignId (db w))) = 4 ->
  fst (processCampaign col env campaignId w)
  = Normal (RunFailed threshold_error)
  /\ (exists c',
        find_campaign (db (snd (processCampaign col env campaignId w)))
          campaignId = Some c'
        /\ cp_status c' = Failed
        /\ cp_sent_count c' = 7
        /\ cp_failed_count c' = 4)
  /\ pending_of campaignId (db (snd (processCampaign col env campaignId w)))
     = skipn 11 (pending_of campaignId (db w))
  /\ (forall i a ok,
        In (EvSendAttempt i a ok)
           (trace (snd (processCampaign col env campaignId w))) ->
        In (EvSendAttempt i a ok) (trace w)
        \/ In i (map bm_id (firstn 11 (pending_of campaignId (db w))))).
Proof.
  intros Hnd Hc Hact Hws Hphone Htoken Hth Hfp Hlen Hfail.
  set (P := pending_of campaignId (db w)) in *.
  destruct (split_at_eleven P Hlen) as (B & m & R & HP & HB & H11 & HR).
  rewrite H11 in Hfail. rewrite HR, H11.
  (* the counters along the pending messages *)
  destruct (drain_small col env B 0 0) as (done & HdB & Hids); [lia |].
  pose proof (successes_failures col B) as Hsum. rewrite HB in Hsum.
  assert (Hm : counts_after col (bm_id m) (successes col B) (failures col B)
               = (7, 4)).
  { unfold counts_after. unfold failures in Hfail.
    rewrite filter_app, length_app in Hfail. cbn [filter] in Hfail.
    fold (failures col B) in Hfail.
    destruct (fails col (bm_id m)); cbn in Hfail; f_equal; lia. }
  assert (Hab : aborts col env (7, 4) = true).
  { unfold aborts. cbn [fst snd]. rewrite Hth.
    destruct (Hfp 4 7 30%Z) as [Ht _]; [lia |].
    rewrite Ht; [reflexivity | cbn; lia]. }
  assert (Hd : drain col env P 0 0 = ((done ++ [(bm_id m, (7, 4))])%list, None)).
  { rewrite HP, drain_app, HdB. cbn [fst snd drain]. cbv zeta.
    cbn [Nat.add]. now rewrite Hm, Hab. }
  (* the run *)
  destruct (processLoop_exact col env campaignId (delayMs_of env campaign)
              (fuel := S (List.length P)) 0 0 w Hnd Hc Hact eq_refl)
    as (t1 & d1 & Hrun & Hsteps); [fold P; lia |].
  fold P in Hrun, Hsteps. rewrite Hd in Hrun, Hsteps.
  cbn [fst snd outcome_of] in Hrun, Hsteps.
  assert (Hall :
    processCampaign col env campaignId w
    = (Normal (RunFailed threshold_error),
       {| db := update_campaign campaignId
                  (with_status Failed None (Some t1)) d1;
          clock := t1;
          trace := (EvCampaignStatus campaignId Failed
                    :: rev (events_of col campaignId (delayMs_of env campaign)
                              (done ++ [(bm_id m, (7, 4))]))
                    ++ trace w)%list |})).
  { unfold processCampaign, tryCatch. rewrite bind_get, Hc, Hws.
    rewrite Hphone, Htoken. cbn [negb orb]. fold P.
    rewrite (bind_throw _ _ _ Hrun). reflexivity. }
  rewrite Hall. cbn [fst snd db trace].
  split; [reflexivity | split; [| split]].
  - destruct (db_steps_campaign Hsteps Hc) as (c1 & Hc1 & _ & Hn).
    rewrite find_campaign_update by reflexivity. rewrite Hc1. cbn.
    eexists. split; [reflexivity |].
    unfold final_counts in Hn. rewrite map_app in Hn. cbn [map] in Hn.
    rewrite last_last in Hn.
    cbn in Hn. inversion Hn. cbn. auto.
  - rewrite pending_of_update_campaign.
    apply (db_steps_pending Hsteps Hnd (B ++ [m])%list R).
    + fold P. rewrite HP. now rewrite <- app_assoc.
    + rewrite !map_app. cbn. now rewrite Hids.
  - intros i a ok [H | H]; [discriminate H |].
    apply in_app_or in H. destruct H as [H | H]; [| now left].
    right. apply in_rev in H. apply attempt_of_processed in H.
    rewrite map_app in H. cbn in H. rewrite Hids in H.
    rewrite map_app. exact H.
Qed.

Lemma exact_agrees_off_ties (ok : nat -> nat -> bool)
  (api : nat -> nat -> option string) :
  agrees_off_ties
    {| sendOk := ok; apiMessage := api; rateExceeds := exact_rate_exceeds |}.
Proof.
  intros failed sent threshold Hpos.
  cbn [rateExceeds]. unfold exact_rate_exceeds. split.
  - intros H. apply Z.ltb_lt. nia.
  - intros H. apply Z.ltb_ge. lia.
Qed.

(** C4: with a failure threshold of 30 and unique message keys, when
    four of the first eleven pending messages of a campaign fail for
    good, [processCampaign] stops after the eleventh with the failure
    rate error: the campaign ends [failed] with 7 sent and 4 failed,
    the messages after the eleventh stay pending and no send is
    attempted for them.  In every run that the threshold stops, the
    counters written last add up to more than 10. *)
Theorem C4_failure_threshold_abort :
  (forall (col : Collaborators) (env : Config.Environment)
          (campaignId : string) (w : World) (campaign : Campaign)
          (ws : Workspace),
      NoDup (map bm_id (messages (db w))) ->
      find_campaign (db w) campaignId = Some campaign ->
      active (cp_status campaign) ->
      find_workspace (db w) (cp_workspace_id campaign) = Some ws ->
      configured (whatsapp_phone_number_id ws) = true ->
      configured (whatsapp_access_token ws) = true ->
      Config.failureThreshold env = 30%Z ->
      agrees_off_ties col ->
      11 <= List.length (pending_of campaignId (db w)) ->
      failures col (firstn 11 (pending_of campaignId (db w))) = 4 ->
      fst (processCampaign col env campaignId w)
      = Normal (RunFailed threshold_error)
      /\ (exists c',
            find_campaign (db (snd (processCampaign col env campaignId w)))
              campaignId = Some c'
            /\ cp_status c' = Failed
            /\ cp_sent_count c' = 7
            /\ cp_failed_count c' = 4)
      /\ pending_of campaignId
           (db (snd (processCampaign col env campaignId w)))
         = skipn 11 (pending_of campaignId (db w))
      /\ (forall i a ok,
            In (EvSendAttempt i a ok)
               (trace (snd (processCampaign col env campaignId w))) ->
            In (EvSendAttempt i a ok) (trace w)
            \/ In i (map bm_id
                       (firstn 11 (pending_of campaignId (db w))))))
  /\ (forall (col : Collaborators) (env : Config.Environment)
             (campaignId : string) (w : World),
         fst (processCampaign col env campaignId w)
         = Normal (RunFailed threshold_error) ->
         exists before sent failed,
           history (snd (processCampaign col env campaignId w))
           = (history w ++ before
              ++ [EvStats campaignId sent failed;
                  EvCampaignStatus campaignId Failed])%list
           /\ 10 < sent + failed).
Proof.
  split.
  - intros col env campaignId w campaign ws.
    exact (@threshold_scenario col env campaignId w campaign ws).
  - intros col env campaignId w H.
    destruct (processCampaign_trace col env campaignId w)
      as (done & closing & Hh & _ & Hlast).
    destruct (Hlast H) as (-> & pre & i & c & -> & Hab).
    unfold aborts in Hab. apply andb_prop in Hab. destruct Hab as [_ Hab].
    apply Nat.ltb_lt in Hab.
    rewrite events_of_app in Hh. cbn [events_of flat_map fst snd] in Hh.
    rewrite app_nil_r in Hh. unfold message_events in Hh.
    exists (events_of col campaignId (delay_in env campaignId w) pre
            ++ attempts_of col i
            ++ (if fails col i then [EvMessageStatus i MessageFailed]
                else [EvMessageStatus i Sent;
                      EvSleep (delay_in env campaignId w)]))%list.
    exists (fst c), (snd c). split; [| exact Hab].
    rewrite Hh. rewrite <- !app_assoc. reflexivity.
Qed.

Lemma NoDup_seq_ids (n : nat) :
  NoDup (map bm_id (map pending_message (seq 1 n))).
Proof.
  rewrite map_map. cbn. rewrite map_id. apply seq_NoDup.
Qed.

Lemma C4_failure_threshold_abort_witness :
  fst (processCampaign (failing [2; 5; 7; 11]) default_environment "k1"
         (campaign_world 12))
  = Normal (RunFailed threshold_error)
  /\ pending_of "k1"
       (db (snd (processCampaign (failing [2; 5; 7; 11]) default_environment
                   "k1" (campaign_world 12))))
     = [pending_message 12].
Proof.
  destruct (proj1 C4_failure_threshold_abort
              (failing [2; 5; 7; 11]) default_environment "k1"
              (campaign_world 12) running_campaign
              {| ws_id := "w1"; whatsapp_phone_number_id := Some "p";
                 whatsapp_access_token := Some "t" |})
    as (H1 & _ & H3 & _).
  - apply NoDup_seq_ids.
  - reflexivity.
  - split; discriminate.
  - reflexivity.
  - reflexivity.
  - reflexivity.
  - reflexivity.
  - apply exact_agrees_off_ties.
  - vm_compute. lia.
  - vm_compute. reflexivity.
  - split; [exact H1 | exact H3].
Defined.

(** With unique keys the fuel given to the loop is never exhausted:
    the run of the embedding is the run of the code. *)
Lemma processCampaign_fuel_suffices (col : Collaborators)
  (env : Config.Environment) (campaignId : string) (w : World) :
  NoDup (map bm_id (messages (db w))) ->
  fst (processCampaign col env campaignId w) <> Normal OutOfFuel.
Proof.
  intros Hnd. unfold processCampaign, tryCatch. rewrite bind_get.
  destruct (find_campaign (db w) campaignId) as [campaign|] eqn:Hc;
    [| discriminate].
  destruct (find_workspace (db w) (cp_workspace_id campaign)) as [ws|];
    [| discriminate].
  destruct (negb (configured (whatsapp_phone_number_id ws))
            || negb (configured (whatsapp_access_token ws)));
    [discriminate |].
  assert (Hcases : active (cp_status campaign)
                   \/ cp_status campaign = Paused
                   \/ cp_status campaign = Cancelled).
  { unfold active. destruct (cp_status campaign); auto;
      left; split; discriminate. }
  destruct Hcases as [Hact | Hstop].
  - destruct (processLoop_exact col env campaignId (delayMs_of env campaign)
                (fuel := S (List.length (pending_of campaignId (db w))))
                0 0 w Hnd Hc Hact eq_refl)
      as (t & d' & Hrun & _); [lia |].
    destruct (snd (drain col env (pending_of campaignId (db w)) 0 0));
      cbn [outcome_of] in Hrun.
    + rewrite (bind_normal _ _ _ Hrun). discriminate.
    + rewrite (bind_throw _ _ _ Hrun). discriminate.
  - assert (Hrun :
      exists o,
        processLoop (S (List.length (pending_of campaignId (db w))))
          col env campaignId (delayMs_of env campaign) 0 0 w
        = (Normal o, w) /\ o <> OutOfFuel /\ o <> RunCompleted).
    { cbn [processLoop]. rewrite bind_get, Hc.
      destruct Hstop as [-> | ->]; eexists;
        (split; [reflexivity | split; discriminate]). }
    destruct Hrun as (o & Hrun & Ho & Ho').
    rewrite (bind_normal _ _ _ Hrun).
    destruct o; cbn; congruence.
Qed.

End BroadcastFacts.

(* ================================================================== *)
(** * The flow interpreter                                          *)
(* ================================================================== *)

Module FlowFacts.

Import Js WhatsApp Eff Flow EffFacts FlowSpec.
Local Open Scope eff_scope.

(** ** Counting the node executions of a run *)

Lemma executions_app (a b : list Event) :
  executions (a ++ b) = executions a + executions b.
Proof. unfold executions. now rewrite filter_app, length_app. Qed.

Lemma emits_weaken {A : Type} (n n' : nat) (m : M Engine A) :
  emits n m -> n <= n' -> emits n' m.
Proof.
  intros H Hle e. destruct (H e) as (new & Ht & Hn).
  exists new. split; [exact Ht | lia].
Qed.

Lemma emits_ret {A : Type} (a : A) : emits 0 (ret (S := Engine) a).
Proof. intros e. now exists []. Qed.

Lemma emits_throw {A : Type} (err : string) :
  emits 0 (throw (S := Engine) (A := A) err).
Proof. intros e. now exists []. Qed.

Lemma emits_lift {A : Type} (c : Completion A) :
  emits 0 (lift (S := Engine) c).
Proof. intros e. now exists []. Qed.

Lemma emits_get : emits 0 (get (S := Engine)).
Proof. intros e. now exists []. Qed.

Lemma emits_get_context : emits 0 get_context.
Proof. intros e. now exists []. Qed.

Lemma emits_now : emits 0 now.
Proof. intros e. now exists []. Qed.

Lemma emits_modify (f : Engine -> Engine) :
  (forall e, trace (f e) = trace e) -> emits 0 (modify f).
Proof. intros H e. exists []. cbn. now rewrite H. Qed.

Lemma emits_emit (ev : Event) :
  emits (if is_execution ev then 1 else 0) (emit ev).
Proof.
  intros e. exists [ev]. split; [reflexivity |].
  unfold executions. cbn. destruct (is_execution ev); cbn; lia.
Qed.

Lemma emits_bind {A B : Type} (a b : nat) (m : M Engine A)
  (k : A -> M Engine B) :
  emits a m -> (forall x, emits b (k x)) -> emits (a + b) (bind m k).
Proof.
  intros Hm Hk e. unfold bind.
  destruct (Hm e) as (new1 & Ht1 & Hn1).
  destruct (m e) as [[x | err |] e1]; cbn [snd] in *.
  - destruct (Hk x e1) as (new2 & Ht2 & Hn2).
    exists (new2 ++ new1)%list. split.
    + now rewrite Ht2, Ht1, app_assoc.
    + rewrite executions_app. lia.
  - exists new1. split; [exact Ht1 | lia].
  - exists new1. split; [exact Ht1 | lia].
Qed.

Lemma emits_tryCatch {A : Type} (a b : nat) (body : M Engine A)
  (handler : string -> M Engine A) :
  emits a body -> (forall err, emits b (handler err)) ->
  emits (a + b) (tryCatch body handler).
Proof.
  intros Hm Hk e. unfold tryCatch.
  destruct (Hm e) as (new1 & Ht1 & Hn1).
  destruct (body e) as [[x | err |] e1]; cbn [snd] in *.
  - exists new1. split; [exact Ht1 | lia].
  - destruct (Hk err e1) as (new2 & Ht2 & Hn2).
    exists (new2 ++ new1)%list. split.
    + now rewrite Ht2, Ht1, app_assoc.
    + rewrite executions_app. lia.
  - exists new1. split; [exact Ht1 | lia].
Qed.

(** Sequencing of computations that execute no node. *)
Lemma quiet_bind {A B : Type} (m : M Engine A) (k : A -> M Engine B) :
  emits 0 m -> (forall x, emits 0 (k x)) -> emits 0 (bind m k).
Proof. intros Hm Hk. exact (@emits_bind A B 0 0 m k Hm Hk). Qed.

Ltac quiet :=
  repeat first
    [ apply emits_ret | apply emits_throw | apply emits_lift
    | apply emits_get | apply emits_get_context | apply emits_now
    | apply (emits_emit (EvSend _ _ _)) | apply (emits_emit (EvLog _ _ _))
    | apply (emits_emit (EvSleep _)) | apply (emits_emit (EvSaveContext _))
    | apply (emits_emit (EvHttp _))
    | apply (emits_emit (EvConversationStatus _))
    | apply (emits_emit EvNoTrigger)
    | apply emits_modify; intros; reflexivity
    | apply quiet_bind; [| intros ?] ].

Lemma quiet_send (col : Collaborators) (ch : Channel) (content : string) :
  emits 0 (send col ch content).
Proof.
  unfold send. quiet.
  match goal with |- context [if ?b then _ else _] => destruct b end; quiet.
Qed.

Lemma quiet_logMessage (d c t : string) : emits 0 (logMessage d c t).
Proof. unfold logMessage. quiet. Qed.

Lemma quiet_saveContext : emits 0 saveContext.
Proof. unfold saveContext. quiet. Qed.

Lemma quiet_set_context (c : Context) : emits 0 (set_context c).
Proof. unfold set_context. quiet. Qed.

Lemma quiet_set_variable (k : string) (v : Value) : emits 0 (set_variable k v).
Proof. unfold set_variable. quiet. Qed.

Lemma quiet_sleep (ms : Z) : emits 0 (sleep ms).
Proof. unfold sleep. quiet. Qed.

Ltac quiet' :=
  repeat first
    [ apply quiet_send | apply quiet_logMessage | apply quiet_saveContext
    | apply quiet_set_context | apply quiet_set_variable | apply quiet_sleep
    | progress quiet
    | match goal with
      | |- emits 0 (if ?b then _ else _) => destruct b
      | |- emits 0 (match ?x with _ => _ end) => destruct x
      end ].

Lemma quiet_node_body (col : Collaborators) (node : Node) :
  emits 0
    match data node with
    | SendMessage message type _ buttons =>
        executeSendMessage col message type buttons
    | AskQuestion question _ _ => executeAskQuestion col node question
    | Condition variable operator value branch_true branch_false =>
        executeCondition col variable operator value branch_true branch_false
    | Delay duration => executeDelay duration
    | SetVariable variable_name value =>
        executeSetVariable variable_name value
    | HttpRequest url save_response_to =>
        executeHttpRequest col url save_response_to
    | AssignToHuman message => executeAssignToHuman col message
    | End => ret false
    | Trigger _ _ => ret true
    | OtherNode => ret true
    end.
Proof.
  destruct (data node);
    unfold executeSendMessage, executeAskQuestion, executeCondition,
      executeDelay, executeSetVariable, executeHttpRequest,
      executeAssignToHuman;
    quiet'.
Qed.

(** [executeNode] logs one execution. *)
Lemma executeNode_emits (col : Collaborators) (node : Node) :
  emits 1 (executeNode col node).
Proof.
  unfold executeNode.
  apply (emits_bind (a := 1) (b := 0)).
  - apply (emits_emit (EvExecute (id node))).
  - intros _. apply quiet_node_body.
Qed.

Lemma executeNodes_loop_emits (col : Collaborators) (bot : Bot) :
  forall (remaining : nat) (currentNode : option Node),
    emits remaining (executeNodes_loop col bot remaining currentNode).
Proof.
  induction remaining as [|remaining IH]; intros currentNode.
  - destruct currentNode; apply emits_ret.
  - destruct currentNode as [node|]; cbn [executeNodes_loop].
    2:{ apply emits_weaken with (n := 0); [apply emits_ret | lia]. }
    apply (emits_bind (a := 1) (b := remaining)).
    + apply executeNode_emits.
    + intros shouldContinue.
      destruct (negb shouldContinue).
      { apply emits_weaken with (n := 0); [apply emits_ret | lia]. }
      destruct (findNextNode bot node) as [nextNode|].
      2:{ apply emits_weaken with (n := 0); [apply emits_ret | lia]. }
      apply (emits_bind (a := 0) (b := remaining)); [apply emits_get_context |].
      intros c.
      apply (emits_bind (a := 0) (b := remaining));
        [apply quiet_set_context |].
      intros _. apply IH.
Qed.

Lemma executeNodes_emits (col : Collaborators) (bot : Bot) :
  emits maxIterations (executeNodes col bot).
Proof.
  unfold executeNodes.
  apply (emits_bind (a := 0) (b := maxIterations)); [apply emits_get_context |].
  intros c.
  apply emits_weaken with (n := maxIterations + 0); [| lia].
  apply emits_bind; [apply executeNodes_loop_emits |].
  intros _. apply quiet_saveContext.
Qed.

Lemma quiet_handleUserResponse (col : Collaborators) (bot : Bot)
  (message : Incoming) :
  emits 0 (handleUserResponse col bot message).
Proof. unfold handleUserResponse. quiet'. Qed.

Lemma quiet_handleError (col : Collaborators) (error : string) :
  emits 0 (handleError col error).
Proof. unfold handleError. quiet'. Qed.

(** The loop always ends: from every node, count of turns and engine
    the statement has a run, the one that [executeNodes_loop]
    computes. *)
Lemma while_loop_terminates (col : Collaborators) (bot : Bot) :
  forall (remaining iterations : nat) (currentNode : option Node) (e : Engine),
    iterations + remaining = maxIterations ->
    while_loop col bot currentNode iterations e
      (executeNodes_loop col bot remaining currentNode e).
Proof.
  induction remaining as [|remaining IH]; intros iterations currentNode e Hsum.
  - destruct currentNode; cbn; [apply loop_cap; lia | apply loop_no_node].
  - destruct currentNode as [node|]; cbn [executeNodes_loop];
      [| apply loop_no_node].
    unfold bind at 1.
    destruct (executeNode col node e) as [[[|] | err |] e1] eqn:E;
      cbn [negb].
    + destruct (findNextNode bot node) as [nextNode|] eqn:En.
      * apply loop_next with (nextNode := nextNode) (e1 := e1);
          [lia | exact E | exact En |].
        rewrite bind_get_context.
        change (bind (set_context _) _ e1)
          with (executeNodes_loop col bot remaining (Some nextNode)
                  (moved_to nextNode e1)).
        apply IH. lia.
      * apply loop_last; [lia | exact E | exact En].
    + apply loop_stop; [lia | exact E].
    + apply loop_throw; [lia | exact E].
    + apply loop_unmodelled; [lia | exact E].
Qed.

(** C2: whatever the flow graph, cyclic or not, the context and the
    behaviour of the collaborators, a run of [execute] returns or
    throws after at most 100 node executions. *)
Theorem C2_at_most_100_node_executions
  (col : Collaborators) (bot : Bot) (incomingMessage : option Incoming)
  (e : Engine) :
  exists (r : Completion unit) (e' : Engine) (new : list Event),
    execute col bot incomingMessage e = (r, e')
    /\ trace e' = (new ++ trace e)%list
    /\ executions new <= 100.
Proof.
  assert (H : emits maxIterations (execute col bot incomingMessage)).
  { unfold execute.
    apply emits_weaken with (n := maxIterations + 0); [| lia].
    apply emits_tryCatch; [| intros err; apply quiet_handleError].
    apply (emits_bind (a := 0) (b := maxIterations));
      [apply emits_get_context |].
    intros c.
    apply (emits_bind (a := 0) (b := maxIterations)).
    { quiet'. }
    intros found. destruct (negb found).
    { apply emits_weaken with (n := 0); [apply emits_ret | lia]. }
    apply (emits_bind (a := 0) (b := maxIterations));
      [apply emits_get_context |].
    intros c1.
    apply (emits_bind (a := 0) (b := maxIterations)).
    { destruct incomingMessage as [message|]; [| apply emits_ret].
      destruct (nonempty (waiting_for c1));
        [apply quiet_handleUserResponse | apply emits_ret]. }
    intros _. apply executeNodes_emits. }
  destruct (H e) as (new & Ht & Hn).
  destruct (execute col bot incomingMessage e) as [r e'] eqn:E.
  exists r, e', new. auto.
Qed.

Lemma cyclic_flow_stops_at_the_cap :
  fst (execute always_ok cyclic_flow None (engine_at "a" None 0)) = Normal tt
  /\ executions
       (trace (snd (execute always_ok cyclic_flow None (engine_at "a" None 0))))
     = 100.
Proof. split; vm_compute; reflexivity. Qed.

(** ** The delay node (C5) *)

(** C5, as the code has it: a delay of at most 30000 ms waits for that
    long in the run, goes on and saves nothing; a longer delay stores
    [resume_at], the time at which the node is executed plus the
    duration, saves the context by an upsert and stops the run
    (provided that this instant is a valid date, otherwise
    [toISOString] throws). *)
Theorem C5_delay_short_waits_long_defers (duration : Z) (e : Engine) :
  ((duration <= 30000)%Z ->
   executeDelay duration e
   = (Normal true,
      {| context := context e;
         clock := clock e + Z.max 1 duration;
         saved := saved e;
         trace := EvSleep duration :: trace e |}))
  /\ ((30000 < duration)%Z ->
      (Z.abs (clock e + duration) <= max_time)%Z ->
      exists stamp,
        toISOString (clock e + duration) = Normal stamp
        /\ let c' := with_variables
                       (obj_set (variables (context e)) "resume_at"
                          (VStr stamp))
                       (context e) in
           executeDelay duration e
           = (Normal false,
              {| context := c';
                 clock := clock e;
                 saved := Some (upserted c' (saved e));
                 trace := EvSaveContext c' :: trace e |})).
Proof.
  split.
  - intros H. unfold executeDelay.
    apply Z.leb_le in H. rewrite H. reflexivity.
  - intros H Hrange. unfold executeDelay.
    assert (Hgt : (duration <=? 30000)%Z = false) by (apply Z.leb_gt; lia).
    rewrite Hgt.
    assert (Hok : exists stamp, toISOString (clock e + duration) = Normal stamp).
    { unfold toISOString.
      assert (Hr : (Z.abs (clock e + duration) >? max_time)%Z = false)
        by (rewrite Z.gtb_ltb; apply Z.ltb_ge; exact Hrange).
      rewrite Hr. destruct (civil_from_days _) as [[y m] d]. eauto. }
    destruct Hok as (stamp & Hs). exists stamp. split; [exact Hs |].
    unfold bind, now, lift. rewrite Hs. reflexivity.
Qed.

Lemma C5_delay_short_waits_long_defers_witness :
  executeDelay 30000 (engine_at "d" None 0)
  = (Normal true,
     {| context := context (engine_at "d" None 0);
        clock := 30000;
        saved := None;
        trace := [EvSleep 30000] |})
  /\ exists stamp,
       toISOString 30001 = Normal stamp
       /\ saved (snd (executeDelay 30001 (engine_at "d" None 0)))
          = Some (with_variables [("resume_at", VStr stamp)]
                    (context (engine_at "d" None 0))).
Proof.
  split.
  - apply (proj1 (C5_delay_short_waits_long_defers 30000
                    (engine_at "d" None 0))).
    vm_compute. discriminate.
  - destruct (proj2 (C5_delay_short_waits_long_defers 30001
                       (engine_at "d" None 0)))
      as (stamp & Hs & Hrun).
    + reflexivity.
    + vm_compute. discriminate.
    + exists stamp. split; [exact Hs |]. cbv zeta in Hrun. now rewrite Hrun.
Defined.

(** C5 as the specification states it fails: in a run that starts at
    time 0 and waits one second before a delay of 60000 ms, the resume
    time that is saved is 61000, not the start of the run plus the
    duration. *)
Lemma C5_counterexample :
  ~ resume_time_is (0 + 60000)
      (snd (execute always_ok two_delays None (engine_at "d1" None 0)))
  /\ resume_time_is (0 + 1000 + 60000)
       (snd (execute always_ok two_delays None (engine_at "d1" None 0))).
Proof.
  split.
  - intros (c & stamp & Hc & Hs & Hr).
    vm_compute in Hc. inversion Hc; subst c.
    vm_compute in Hs. inversion Hs; subst stamp.
    vm_compute in Hr. discriminate Hr.
  - eexists. eexists.
    split; [vm_compute; reflexivity |].
    split; vm_compute; reflexivity.
Qed.

(** ** The reply to a question (C6) *)

(** C6 on a conversation that waits on the question "q": the valid
    reply "Sam" is stored under [name], but the run then executes the
    question node again: the question is sent once more, the
    conversation waits on "q" as before, and the node after the
    question is never executed. *)
Theorem C6_valid_reply_asks_the_question_again :
  execute always_ok question_flow (reply "Sam")
    (engine_at "q" (Some "q") 0)
  = (Normal tt,
     {| context := waiting_context [("name", VStr "Sam")];
        clock := 0;
        saved := Some (waiting_context [("name", VStr "Sam")]);
        trace := rev [EvExecute "q"; EvSend ChText "Name?" true;
                      EvLog "outgoing" "Name?" "text";
                      EvSaveContext (waiting_context [("name", VStr "Sam")]);
                      EvSaveContext (waiting_context [("name", VStr "Sam")])]
     |}).
Proof. vm_compute. reflexivity. Qed.

(** An invalid reply: the prompt is sent again, twice, and the
    conversation stays on the question. *)
Lemma invalid_reply_asks_the_question_again :
  execute always_ok question_flow (reply "")
    (engine_at "q" (Some "q") 0)
  = (Normal tt,
     {| context := waiting_context [];
        clock := 0;
        saved := Some (waiting_context []);
        trace := rev [EvSend ChText "Invalid response. Name?" true;
                      EvExecute "q"; EvSend ChText "Name?" true;
                      EvLog "outgoing" "Name?" "text";
                      EvSaveContext (waiting_context []);
                      EvSaveContext (waiting_context [])] |}).
Proof. vm_compute. reflexivity. Qed.

(** The same on every flow: when the conversation waits on the
    question node it stands on, which is the state [executeAskQuestion]
    leaves, a valid reply is stored and the question node is executed
    again; the run ends on the same node, waiting for a reply. *)
Lemma valid_reply_never_passes_the_question
  (col : Collaborators) (bot : Bot) (e : Engine) (message : Incoming)
  (q question variable_name asked : string)
  (validation : option ValidationType) :
  let stored := obj_set (variables (context e)) variable_name
                  (text_value (text message)) in
  let c' := {| current_node_id := Some q; waiting_for := Some q;
               variables := stored;
               flow_history := flow_history (context e) |} in
  q <> "" ->
  current_node_id (context e) = Some q ->
  waiting_for (context e) = Some q ->
  findNodeById bot (Some q)
  = Some {| id := q;
            data := AskQuestion question variable_name validation |} ->
  validateResponse (text message) validation = true ->
  interpolateVariables question stored = Normal asked ->
  sendOk col (S (List.length (trace e))) = true ->
  execute col bot (Some message) e
  = (Normal tt,
     {| context := c'; clock := clock e; saved := Some c';
        trace := EvSaveContext c' :: EvSaveContext c'
                 :: EvLog "outgoing" asked "text"
                 :: EvSend ChText asked true
                 :: EvExecute q :: trace e |}).
Proof.
  intros stored c' Hq Hcur Hwait Hnode Hvalid Hask Hsend.
  assert (Hne : String.eqb q "" = false) by now apply String.eqb_neq.
  destruct e as [[cur wait vars hist] t sv tr].
  cbn [context current_node_id waiting_for variables flow_history trace
       clock saved] in *.
  subst cur wait c'.
  set (node := {| id := q;
                  data := AskQuestion question variable_name validation |})
    in *.
  set (c1 := {| current_node_id := Some q; waiting_for := None;
                variables := stored; flow_history := hist |}).
  (* the reply is stored and the wait is cleared *)
  assert (Hreply :
    handleUserResponse col bot message
      {| context := {| current_node_id := Some q; waiting_for := Some q;
                       variables := vars; flow_history := hist |};
         clock := t; saved := sv; trace := tr |}
    = (Normal tt,
       {| context := c1; clock := t; saved := sv; trace := tr |})).
  { unfold handleUserResponse. rewrite bind_get_context.
    cbn [context waiting_for]. rewrite Hnode. cbn [data node].
    rewrite Hvalid. reflexivity. }
  (* the question node is executed once more *)
  assert (Hnode1 :
    executeNode col node
      {| context := c1; clock := t; saved := sv; trace := tr |}
    = (Normal false,
       {| context := with_waiting (Some q) c1; clock := t;
          saved := Some (with_waiting (Some q) c1);
          trace := EvSaveContext (with_waiting (Some q) c1)
                   :: EvLog "outgoing" asked "text"
                   :: EvSend ChText asked true
                   :: EvExecute q :: tr |})).
  { unfold executeNode, executeAskQuestion. cbn [data node id].
    unfold bind at 1. cbn [emit modify context clock saved trace].
    rewrite bind_get_context. cbn [context variables c1].
    unfold bind at 1, lift at 1. rewrite Hask.
    unfold send. unfold bind at 1. rewrite bind_get.
    cbn [trace List.length]. rewrite Hsend. reflexivity. }
  unfold execute, tryCatch. rewrite bind_get_context.
  cbn [context current_node_id nonempty]. rewrite Hne. cbn [negb].
  rewrite bind_ret. cbn [negb]. rewrite bind_get_context.
  cbn [context waiting_for nonempty]. rewrite Hne. cbn [negb].
  rewrite (bind_normal _ _ _ Hreply).
  unfold executeNodes. rewrite bind_get_context.
  cbn [context current_node_id c1]. rewrite Hnode.
  unfold maxIterations. cbn [executeNodes_loop].
  unfold bind at 1. unfold bind at 1. rewrite Hnode1. reflexivity.
Qed.

(** A long delay whose resume time is not a valid date throws. *)
Lemma delay_out_of_range_throws (e : Engine) :
  clock e = 0%Z ->
  executeDelay 9000000000000000 e = (Throw "Invalid time value", e).
Proof.
  destruct e as [c t sv tr]. cbn [clock]. intros ->. reflexivity.
Qed.

End FlowFacts.

(* ================================================================== *)
(** * The dead-letter queue                                         *)
(* ================================================================== *)

Module DLQFacts.

Import Js DLQ DLQSpec.

(** ** The back-off table *)

Lemma backoff_is_the_table (k : nat) :
  backoff_interval k = nth k backoff_table 86400000%Z.
Proof.
  do 6 (destruct k as [|k]; [reflexivity |]). destruct k; reflexivity.
Qed.

Lemma backoff_step (k : nat) :
  (backoff_interval k <= backoff_interval (S k))%Z.
Proof. do 5 (destruct k as [|k]; [cbn; lia |]). cbn. lia. Qed.

Lemma backoff_monotone (j k : nat) :
  j <= k -> (backoff_interval j <= backoff_interval k)%Z.
Proof.
  induction 1 as [|k _ IH]; [lia |].
  pose proof (backoff_step k). lia.
Qed.

Lemma backoff_positive (k : nat) : (0 < backoff_interval k)%Z.
Proof. do 5 (destruct k as [|k]; [cbn; lia |]). cbn. lia. Qed.

(** ** Rows and keys *)

Lemma same_key_same_row (es : list Entry) (a b : Entry) :
  NoDup (map id es) -> In a es -> In b es -> id a = id b -> a = b.
Proof.
  induction es as [|x es IH]; simpl; intros Hnd Ha Hb Heq; [contradiction |].
  inversion Hnd as [|? ? Hx Hnd']; subst.
  destruct Ha as [<- | Ha], Hb as [<- | Hb]; auto.
  - exfalso. apply Hx. rewrite Heq. now apply in_map.
  - exfalso. apply Hx. rewrite <- Heq. now apply in_map.
Qed.

Lemma update_entry_ids (i : nat) (f : Entry -> Entry) (d : Db) :
  (forall x, id (f x) = id x) ->
  map id (entries (update_entry i f d)) = map id (entries d).
Proof.
  intros Hf. cbn. rewrite map_map. apply map_ext.
  intros x. destruct (id x =? i); [apply Hf | reflexivity].
Qed.

Lemma update_entry_in (i : nat) (f : Entry -> Entry) (d : Db) (y : Entry) :
  In y (entries (update_entry i f d)) <->
  exists x, In x (entries d) /\ y = (if id x =? i then f x else x).
Proof.
  cbn. rewrite in_map_iff. split; intros (x & H1 & H2); exists x; auto.
Qed.

Lemma next_id_fresh (d : Db) (e : Entry) :
  In e (entries d) -> id e < next_id d.
Proof.
  unfold next_id. induction (entries d) as [|x es IH]; simpl;
    [contradiction |].
  intros [<- | H]; [lia |]. specialize (IH H). lia.
Qed.

(** ** The body of the loop of [processRetries]

    No call reaches the loop; these lemmas say what its body writes for
    a row. *)

Lemma outcome_id (now : Z) (ch : Channel) (d : Db) (e : Entry) :
  id (outcome now ch d e) = id e.
Proof.
  unfold outcome.
  destruct (message_type e); try reflexivity;
    destruct (retry ch d e); try reflexivity;
    destruct (max_retries e <=? retry_count e + 1); reflexivity.
Qed.

Lemma outcome_bounded (now : Z) (ch : Channel) (d : Db) (e : Entry) :
  retry_count e < max_retries e ->
  retry_count (outcome now ch d e) <= max_retries (outcome now ch d e).
Proof.
  intros H. unfold outcome.
  destruct (message_type e); try lia;
    destruct (retry ch d e); cbn; try lia;
    destruct (max_retries e <=? retry_count e + 1) eqn:E; cbn; try lia;
    apply Nat.leb_gt in E; lia.
Qed.

(** [processEntry] replaces the row of the entry by its outcome and
    leaves the other rows. *)
Lemma processEntry_spec (now : Z) (ch : Channel) (e : Entry) (d : Db) :
  NoDup (map id (entries d)) ->
  In e (entries d) ->
  workspaces (processEntry now ch e d) = workspaces d
  /\ map id (entries (processEntry now ch e d)) = map id (entries d)
  /\ forall y, In y (entries (processEntry now ch e d)) <->
               y = outcome now ch d e
               \/ (In y (entries d) /\ id y <> id e).
Proof.
  intros Hnd He.
  assert (Hupd : forall f : Entry -> Entry,
            (forall x, id (f x) = id x) ->
            workspaces (update_entry (id e) f d) = workspaces d
            /\ map id (entries (update_entry (id e) f d)) = map id (entries d)
            /\ forall y, In y (entries (update_entry (id e) f d)) <->
                         y = f e \/ (In y (entries d) /\ id y <> id e)).
  { intros f Hf. split; [reflexivity | split; [now apply update_entry_ids |]].
    intros y. rewrite update_entry_in. split.
    - intros (x & Hx & ->). destruct (id x =? id e) eqn:E.
      + apply Nat.eqb_eq in E.
        left. f_equal. now apply (same_key_same_row (entries d)).
      + apply Nat.eqb_neq in E. right. auto.
    - intros [-> | [Hy Hne]].
      + exists e. split; [exact He | now rewrite Nat.eqb_refl].
      + exists y. split; [exact Hy |].
        apply Nat.eqb_neq in Hne. now rewrite Hne. }
  unfold processEntry, outcome.
  destruct (message_type e) eqn:Et.
  - destruct (retry ch d e); [now apply Hupd |].
    destruct (max_retries e <=? retry_count e + 1); now apply Hupd.
  - destruct (retry ch d e); [now apply Hupd |].
    destruct (max_retries e <=? retry_count e + 1); now apply Hupd.
  - split; [reflexivity | split; [reflexivity |]].
    intros y. split.
    + intros Hy. destruct (Nat.eq_dec (id y) (id e)) as [Heq | Hne].
      * left. now apply (same_key_same_row (entries d)).
      * right. auto.
    + intros [-> | [Hy _]]; assumption.
Qed.

Lemma outcome_same_workspaces (now : Z) (ch : Channel) (d d' : Db)
  (e : Entry) :
  workspaces d' = workspaces d -> outcome now ch d' e = outcome now ch d e.
Proof.
  intros H. unfold outcome, retry, workspace_found. now rewrite H.
Qed.

(** A row that the query asks for. *)
Lemma due_spec (now : Z) (e : Entry) :
  due now e = true ->
  status e = Retrying
  /\ (exists t, next_retry_at e = Some t /\ (t <= now)%Z)
  /\ retry_count e < max_retries e.
Proof.
  unfold due, is_retrying. intros H.
  apply andb_prop in H. destruct H as [H H3].
  apply andb_prop in H. destruct H as [H1 H2].
  split; [destruct (status e); congruence || reflexivity |].
  split; [| now apply Nat.ltb_lt].
  destruct (next_retry_at e) as [t|]; [| discriminate].
  exists t. split; [reflexivity | now apply Z.leb_le].
Qed.

(** A failed resend in the body of the loop. *)
Lemma failed_retry (now : Z) (ch : Channel) (d : Db) (e : Entry) :
  due now e = true ->
  (forall name, message_type e <> OtherType name) ->
  retry ch d e = false ->
  let e' := outcome now ch d e in
  id e' = id e
  /\ retry_count e' = retry_count e + 1
  /\ max_retries e' = max_retries e
  /\ retry_count e' <= max_retries e'
  /\ ((retry_count e' < max_retries e'
       /\ status e' = Retrying
       /\ next_retry_at e'
          = Some (now + backoff_interval (retry_count e'))%Z)
      \/ (retry_count e' = max_retries e'
          /\ status e' = StatusFailed
          /\ next_retry_at e' = next_retry_at e))
  /\ (forall t t', next_retry_at e = Some t -> next_retry_at e' = Some t' ->
                   (t <= t')%Z).
Proof.
  intros Hdue Htype Hfail.
  destruct (due_spec now e Hdue) as (Hst & (t0 & Ht0 & Hle) & Hlt).
  cbv zeta. unfold outcome. rewrite Hfail.
  assert (Hgo :
    let e' := if max_retries e <=? retry_count e + 1
              then exhaust (retry_count e + 1) e
              else reschedule now (retry_count e + 1)
                     (calculate_next_retry now (retry_count e + 1)) e in
    id e' = id e
    /\ retry_count e' = retry_count e + 1
    /\ max_retries e' = max_retries e
    /\ retry_count e' <= max_retries e'
    /\ ((retry_count e' < max_retries e'
         /\ status e' = Retrying
         /\ next_retry_at e'
            = Some (now + backoff_interval (retry_count e'))%Z)
        \/ (retry_count e' = max_retries e'
            /\ status e' = StatusFailed
            /\ next_retry_at e' = next_retry_at e))
    /\ (forall t t', next_retry_at e = Some t -> next_retry_at e' = Some t' ->
                     (t <= t')%Z)).
  { cbv zeta. destruct (max_retries e <=? retry_count e + 1) eqn:E; cbn.
    - apply Nat.leb_le in E.
      repeat split; try lia.
      + right. repeat split. lia.
      + intros t t' H1 H2. rewrite H1 in H2. inversion H2. lia.
    - apply Nat.leb_gt in E.
      repeat split; try lia.
      + left. repeat split; [lia | exact Hst].
      + intros t t' H1 H2. rewrite Ht0 in H1. inversion H1; subst t.
        inversion H2; subst t'. unfold calculate_next_retry.
        pose proof (backoff_positive (retry_count e + 1)). lia. }
  destruct (message_type e) as [| | name] eqn:Et;
    [exact Hgo | exact Hgo | now destruct (Htype name)].
Qed.

(** ** The call of [processRetries] *)

Lemma processRetries_returns (now : Z) (ch : Channel) (d : Db) :
  processRetries now ch d = d.
Proof. reflexivity. Qed.

Lemma manualRetry_resets (now : Z) (ch : Channel) (i : nat) (d : Db) :
  manualRetry now ch i d
  = match find (fun e => id e =? i) (entries d) with
    | Some _ => Normal (update_entry i (reset now) d)
    | None => Throw "DLQ entry not found"
    end.
Proof. reflexivity. Qed.

(** ** The invariant *)

Lemma update_entry_well_formed (i : nat) (f : Entry -> Entry) (d : Db) :
  (forall x, id (f x) = id x) ->
  (forall x, retry_count x <= max_retries x ->
             retry_count (f x) <= max_retries (f x)) ->
  well_formed d -> well_formed (update_entry i f d).
Proof.
  intros Hid Hb [Hnd Hle]. split.
  - now rewrite update_entry_ids.
  - intros y Hy. apply update_entry_in in Hy.
    destruct Hy as (x & Hx & ->).
    destruct (id x =? i); [apply Hb |]; now apply Hle.
Qed.

Lemma addToDLQ_well_formed (now : Z) (w : string) (t : MessageType)
  (p : Obj) (err : string) (m : nat) (d : Db) :
  well_formed d -> well_formed (addToDLQ now w t p err m d).
Proof.
  intros [Hnd Hle]. unfold addToDLQ. split; cbn.
  - rewrite map_app. cbn.
    apply NoDup_app; [exact Hnd | repeat constructor; intros [] |].
    intros x Hx [<- | []]. apply in_map_iff in Hx.
    destruct Hx as (e & He & Hin). apply next_id_fresh in Hin. lia.
  - intros e He. apply in_app_or in He.
    destruct He as [He | [<- | []]]; [now apply Hle | cbn; lia].
Qed.

Lemma step_well_formed (op : Op) (d : Db) :
  well_formed d -> well_formed (step op d).
Proof.
  intros Hwf.
  destruct op as [now w t p err m | now ch | now ch i | i]; cbn [step].
  - now apply addToDLQ_well_formed.
  - now rewrite processRetries_returns.
  - rewrite manualRetry_resets. destruct (find _ _); [| exact Hwf].
    apply update_entry_well_formed; [reflexivity | cbn; lia | exact Hwf].
  - unfold archiveEntry.
    apply update_entry_well_formed; [reflexivity | cbn; lia | exact Hwf].
Qed.

Lemma reachable_well_formed (d : Db) : reachable d -> well_formed d.
Proof.
  induction 1 as [ws | op d _ IH].
  - split; [constructor | intros e []].
  - now apply step_well_formed.
Qed.

(** No operation writes a retry: in the stores that the four
    operations build, every row is as [addToDLQ] made it, up to its
    status and its next retry time. *)
Lemma reachable_untouched (d : Db) :
  reachable d ->
  forall e, In e (entries d) ->
    retry_count e = 0
    /\ last_retry_at e = None
    /\ resolved_at e = None
    /\ (status e = Retrying \/ status e = Archived).
Proof.
  induction 1 as [ws | op d _ IH]; [intros e [] |].
  intros e He.
  destruct op as [now w t p err m | now ch | now ch i | i]; cbn [step] in He.
  - unfold addToDLQ in He. cbn in He. apply in_app_or in He.
    destruct He as [He | [<- | []]]; [now apply IH | cbn; auto].
  - rewrite processRetries_returns in He. now apply IH.
  - rewrite manualRetry_resets in He.
    destruct (find _ _); [| now apply IH].
    apply update_entry_in in He. destruct He as (x & Hx & ->).
    destruct (IH x Hx) as (H1 & H2 & H3 & H4).
    destruct (id x =? i); cbn; auto.
  - unfold archiveEntry in He.
    apply update_entry_in in He. destruct He as (x & Hx & ->).
    destruct (IH x Hx) as (H1 & H2 & H3 & H4).
    destruct (id x =? i); cbn; auto.
Qed.

(** ** Retry counts and back-off (C3) *)

(** C3: no retry is ever made.  The delays of [calculate_next_retry]
    are those of the table 1 min, 5 min, 30 min, 2 h, 12 h, 24 h, the
    last one for every higher count, and they do not decrease; but
    [processRetries] returns before it fetches a row, whatever the
    store, the time and the channel.  On a queue whose one entry is due
    and whose resend would fail, the entry keeps [retry_count = 0] and
    its next retry time: the count is not increased and no delay of the
    table is assigned.  [manualRetry] throws for an unknown key, and
    otherwise puts the row to [retrying] with [retry_count = 0]
    and [next_retry_at] the time of the call, not a delay of the table,
    and resends nothing.  So in every store that [addToDLQ],
    [processRetries], [manualRetry] and [archiveEntry] build from an
    empty queue, every entry has [retry_count = 0], which is within its
    maximum, was never retried, and is [retrying] or [archived]. *)
Theorem C3_no_retry_is_ever_made :
  (forall k,
      backoff_interval k = nth k backoff_table 86400000%Z
      /\ forall j, j <= k -> (backoff_interval j <= backoff_interval k)%Z)
  /\ (forall now ch d, processRetries now ch d = d)
  /\ entries (processRetries 60000 (fun _ => false) one_entry)
     = [ {| id := 1; workspace_id := "w1"; message_type := Broadcast;
            original_payload := [("workspace_id", VStr "w1")];
            error_message := "timeout"; retry_count := 0;
            max_retries := 3; last_retry_at := None;
            next_retry_at := Some 60000%Z; status := Retrying;
            resolved_at := None |} ]
  /\ (forall now ch i d,
        manualRetry now ch i d
        = match find (fun e => id e =? i) (entries d) with
          | Some _ => Normal (update_entry i (reset now) d)
          | None => Throw "DLQ entry not found"
          end)
  /\ (forall now e,
        status (reset now e) = Retrying
        /\ retry_count (reset now e) = 0
        /\ next_retry_at (reset now e) = Some now
        /\ last_retry_at (reset now e) = last_retry_at e
        /\ resolved_at (reset now e) = resolved_at e)
  /\ forall d, reachable d ->
       forall e, In e (entries d) ->
         retry_count e = 0
         /\ retry_count e <= max_retries e
         /\ last_retry_at e = None
         /\ resolved_at e = None
         /\ (status e = Retrying \/ status e = Archived).
Proof.
  split; [| split; [| split; [| split; [| split]]]].
  - intros k. split; [apply backoff_is_the_table |].
    intros j. apply backoff_monotone.
  - apply processRetries_returns.
  - reflexivity.
  - apply manualRetry_resets.
  - intros now e. cbn. auto.
  - intros d Hr e He.
    destruct (reachable_untouched Hr e He) as (H1 & H2 & H3 & H4).
    repeat split; auto. lia.
Qed.

Lemma C3_no_retry_is_ever_made_witness :
  Forall (fun e => retry_count e = 0
                   /\ (status e = Retrying \/ status e = Archived))
    (entries (step (OpManualRetry 70000 (fun _ => false) 1)
                (step (OpProcess 60000 (fun _ => false)) one_entry))).
Proof.
  apply Forall_forall. intros e He.
  destruct (proj2 (proj2 (proj2 (proj2 (proj2 C3_no_retry_is_ever_made))))
              (step (OpManualRetry 70000 (fun _ => false) 1)
                 (step (OpProcess 60000 (fun _ => false)) one_entry))
              ltac:(apply reach_step, reach_step, reach_step, reach_empty)
              e He) as (H1 & _ & _ & _ & H5).
  split; [exact H1 | exact H5].
Defined.

End DLQFacts.

(* ================================================================== *)
(** * Patterns that match a text literally                          *)
(* ================================================================== *)

Module RegexFacts.

Import Js TemplateSpec.

(** An atom taken exactly once. *)
Lemma rep_once (cs : CharSet) (k : bool -> string -> option string)
  (pos0 : bool) (s : string) :
  rep cs k 0 1 (Some 1%N) pos0 s
  = match s with
    | EmptyString => None
    | String c s' => if cs_matches cs c then k false s' else None
    end.
Proof.
  destruct s as [|c s']; [reflexivity |].
  cbn [rep]. change (below_max 0 (Some 1%N)) with true.
  change (1 <=? 0)%N with false. cbn [andb].
  destruct (cs_matches cs c); [| reflexivity].
  assert (H : rep cs k (N.succ 0) 1 (Some 1%N) false s' = k false s').
  { destruct s' as [|c' s'']; reflexivity. }
  rewrite H. now destruct (k false s').
Qed.

Lemma match_literal (t : string) :
  forall (pos0 : bool) (s : string),
    match_terms (literal t) pos0 s
    = if prefix t s then Some (drop (String.length t) s) else None.
Proof.
  induction t as [|c t IH]; intros pos0 s; cbn [literal match_terms].
  - now destruct s.
  - rewrite rep_once. destruct s as [|c' s']; [reflexivity |].
    cbn [cs_matches prefix String.length drop].
    destruct (Ascii.eqb c c'); [apply IH | reflexivity].
Qed.

Lemma match_pattern_literal (t : string) (pos0 : bool) (s : string) :
  match_pattern [literal t] pos0 s
  = if prefix t s then Some (drop (String.length t) s) else None.
Proof.
  cbn [match_pattern]. rewrite match_literal. now destruct (prefix t s).
Qed.

Lemma prefix_app (t b : string) : prefix t (t ++ b) = true.
Proof.
  induction t as [|c t IH]; [reflexivity |].
  cbn. now rewrite Ascii.eqb_refl.
Qed.

Lemma prefix_split (t s : string) :
  prefix t s = true -> s = t ++ drop (String.length t) s.
Proof.
  revert s. induction t as [|c t IH]; intros s H; [now destruct s |].
  destruct s as [|c' s]; [discriminate |]. cbn in H.
  apply andb_prop in H. destruct H as [Hc Ht].
  apply Ascii.eqb_eq in Hc. subst c'. cbn. f_equal. now apply IH.
Qed.

Lemma drop_app (t b : string) : drop (String.length t) (t ++ b) = b.
Proof. induction t as [|c t IH]; [now destruct b | exact IH]. Qed.

Lemma length_app (a b : string) :
  String.length (a ++ b) = String.length a + String.length b.
Proof. induction a as [|c a IH]; cbn; [reflexivity | now rewrite IH]. Qed.

Lemma take_app (t b : string) : take (String.length t) (t ++ b) = t.
Proof. induction t as [|c t IH]; cbn; [now destruct b | now rewrite IH]. Qed.

Lemma app_nil_r_s (a : string) : a ++ "" = a.
Proof. induction a as [|x a IH]; cbn; [reflexivity | now rewrite IH]. Qed.

Lemma app_assoc_s (a b c : string) : (a ++ b) ++ c = a ++ b ++ c.
Proof. induction a as [|x a IH]; cbn; [reflexivity | now rewrite IH]. Qed.

Lemma getSubstitution_dollar_free (matched pre post template : string) :
  dollar_free template = true ->
  getSubstitution matched pre post template = template.
Proof.
  unfold dollar_free.
  induction template as [|c t IH]; cbn [getSubstitution occurs];
    [reflexivity |].
  intros H. apply negb_true_iff in H. apply orb_false_iff in H.
  destruct H as [Hc Ht]. rewrite Hc.
  f_equal. apply IH. now rewrite Ht.
Qed.


(** ** Sources without syntax *)

Lemma parse_tame :
  forall (fuel : nat) (s : string) (cur : list Term) (done : list Alternative),
    tame s = true ->
    String.length s < fuel ->
    parse_terms fuel s cur done
    = CPattern (rev ((rev cur ++ literal s)%list :: done)).
Proof.
  induction fuel as [|fuel IH]; intros s cur done Ht Hlen; [lia |].
  destruct s as [|c r]; cbn [parse_terms literal].
  - now rewrite app_nil_r.
  - cbn [tame] in Ht. apply andb_prop in Ht. destruct Ht as [Hc Hr].
    unfold tame_char in Hc.
    repeat (apply andb_prop in Hc; destruct Hc as [Hc ?]).
    repeat match goal with
           | H : negb _ = true |- _ => apply negb_true_iff in H
           end.
    repeat match goal with
           | H : _ = false |- _ => rewrite H
           end.
    destruct (parse_quantifier r); try discriminate.
    rewrite IH; [| exact Hr | cbn in Hlen; lia].
    cbn [rev]. now rewrite <- app_assoc.
Qed.

Lemma compile_tame (source : string) :
  tame source = true -> compile source = CPattern [literal source].
Proof.
  intros H. unfold compile. rewrite parse_tame; [reflexivity | exact H | lia].
Qed.

Lemma ordinary_head (c : ascii) (r : string) :
  ordinary c = true ->
  negb (Ascii.eqb c "|") && negb (Ascii.eqb c "^") && negb (Ascii.eqb c "$")
  && negb (Ascii.eqb c "\" || Ascii.eqb c "(" || Ascii.eqb c "[")
  && negb (Ascii.eqb c ")") && negb (is_quantifier_start c r)
  && negb (Ascii.eqb c ".")
  = true
  /\ parse_quantifier (String c r) = QNone
  /\ Ascii.eqb c "}" = false
  /\ Ascii.eqb c "," = false.
Proof.
  destruct c as [b0 b1 b2 b3 b4 b5 b6 b7].
  destruct b0, b1, b2, b3, b4, b5, b6, b7; intros H;
    try discriminate H; repeat split; reflexivity.
Qed.

Lemma tame_tail (key : string) :
  all_chars ordinary key = true -> tame (key ++ "}}") = true.
Proof.
  induction key as [|c key IH]; intros H; [reflexivity |].
  cbn [all_chars] in H. apply andb_prop in H. destruct H as [Hc Hk].
  cbn [append tame]. rewrite (IH Hk), andb_true_r.
  unfold tame_char.
  destruct (ordinary_head c (key ++ "}}") Hc) as (-> & _).
  cbn [andb].
  destruct key as [|c' key']; [reflexivity |].
  cbn [all_chars] in Hk. apply andb_prop in Hk. destruct Hk as [Hc' _].
  cbn [append].
  now destruct (ordinary_head c' (key' ++ "}}") Hc') as (_ & -> & _).
Qed.

Lemma read_digits_stops (key : string) :
  all_chars ordinary key = true ->
  all_digits key = false ->
  exists d c r,
    read_digits (key ++ "}}") = (d, String c r)
    /\ Ascii.eqb c "}" = false /\ Ascii.eqb c "," = false.
Proof.
  induction key as [|c key IH]; intros Ho Hd; [discriminate |].
  cbn [all_chars] in Ho. apply andb_prop in Ho. destruct Ho as [Hc Hk].
  cbn [all_digits] in Hd. cbn [append read_digits].
  destruct (is_digit c) eqn:E.
  - cbn [andb] in Hd. destruct (IH Hk Hd) as (d & c' & r & -> & H1 & H2).
    now exists (String c d), c', r.
  - destruct (ordinary_head c "" Hc) as (_ & _ & H1 & H2).
    now exists "", c, (key ++ "}}").
Qed.

Lemma parse_braced_plain (key : string) :
  plain_key key = true -> parse_braced (key ++ "}}") = None.
Proof.
  unfold plain_key. intros H. apply andb_prop in H. destruct H as [Ho Hd].
  apply orb_prop in Hd. destruct Hd as [Hd | Hd].
  - apply String.eqb_eq in Hd. now subst key.
  - apply negb_true_iff in Hd.
    destruct (read_digits_stops key Ho Hd) as (d & c & r & E & H1 & H2).
    unfold parse_braced. rewrite E.
    destruct (String.eqb d ""); [reflexivity |]. now rewrite H1, H2.
Qed.

Lemma parse_quantifier_tail (key : string) :
  all_chars ordinary key = true ->
  parse_quantifier (key ++ "}}") = QNone.
Proof.
  destruct key as [|c key]; [reflexivity |]. intros H.
  cbn [all_chars] in H. apply andb_prop in H. destruct H as [Hc _].
  cbn [append].
  now destruct (ordinary_head c (key ++ "}}") Hc) as (_ & -> & _).
Qed.

Lemma compile_token (key : string) :
  plain_key key = true ->
  compile (token key) = CPattern [literal (token key)].
Proof.
  intros H. apply compile_tame.
  pose proof (parse_braced_plain key H) as Hb.
  unfold plain_key in H. apply andb_prop in H. destruct H as [Ho _].
  unfold token. cbn [append tame].
  rewrite (tame_tail key Ho), andb_true_r.
  unfold tame_char, is_quantifier_start. cbn [parse_quantifier].
  rewrite Hb, (parse_quantifier_tail key Ho). reflexivity.
Qed.

(** A pattern anchored at the start is tried at the start only. *)
Lemma search_anchored (ts : list Term) (s : string) :
  search [TAssertStart :: ts] false s = false.
Proof. induction s as [|c s IH]; cbn; [reflexivity | exact IH]. Qed.

Lemma test_anchored (ts : list Term) (s : string) :
  test [TAssertStart :: ts] s
  = match match_terms ts true s with
    | Some _ => true
    | None => false
    end.
Proof.
  unfold test. destruct s as [|c s]; cbn [search match_pattern match_terms].
  - now destruct (match_terms ts true "").
  - destruct (match_terms ts true (String c s)); [reflexivity |].
    apply search_anchored.
Qed.

(** A greedy repetition without upper bound finds a match exactly when
    some run of characters of the set, long enough, is followed by a
    match of the rest. *)
Lemma rep_unbounded (cs : CharSet) (k : bool -> string -> option string)
  (mn : N) :
  forall (s : string) (cnt : N) (pos0 : bool),
    rep cs k cnt mn None pos0 s <> None
    <-> exists pre post,
          s = pre ++ post
          /\ all_chars (cs_matches cs) pre = true
          /\ (mn <= cnt + N.of_nat (String.length pre))%N
          /\ k match pre with
               | EmptyString => pos0
               | String _ _ => false
               end post <> None.
Proof.
  induction s as [|c s IH]; intros cnt pos0; cbn [rep below_max andb].
  - split.
    + intros H. exists "", "". repeat split.
      * destruct (mn <=? cnt)%N eqn:E; [| now destruct H].
        apply N.leb_le in E. cbn. lia.
      * destruct (mn <=? cnt)%N; [exact H | now destruct H].
    + intros (pre & post & Hs & _ & Hm & Hk).
      destruct pre; [| discriminate]. destruct post; [| discriminate].
      cbn in Hm. replace (mn <=? cnt)%N with true; [exact Hk |].
      symmetry. apply N.leb_le. lia.
  - assert (Hstop :
      (if (mn <=? cnt)%N then k pos0 (String c s) else None) <> None
      <-> (mn <= cnt)%N /\ k pos0 (String c s) <> None).
    { destruct (mn <=? cnt)%N eqn:E.
      - apply N.leb_le in E. tauto.
      - apply N.leb_gt in E. split; [now intros [] | lia]. }
    destruct (cs_matches cs c) eqn:Ec.
    + specialize (IH (N.succ cnt) false).
      destruct (rep cs k (N.succ cnt) mn None false s) as [r|] eqn:Er.
      * split; [| discriminate]. intros _.
        destruct (proj1 IH ltac:(discriminate))
          as (pre & post & Hs & Hall & Hm & Hk).
        exists (String c pre), post. cbn. rewrite Ec, Hall, Hs.
        repeat split; [lia |].
        now destruct pre.
      * rewrite Hstop. split.
        -- intros [Hm Hk]. exists "", (String c s). cbn.
           repeat split; [lia | exact Hk].
        -- intros (pre & post & Hs & Hall & Hm & Hk).
           destruct pre as [|c' pre].
           ++ cbn in Hs, Hm. subst post. split; [lia | exact Hk].
           ++ exfalso. cbn in Hs. inversion Hs; subst.
              cbn in Hall. rewrite Ec in Hall. cbn in Hall.
              apply (proj2 IH); [| reflexivity].
              exists pre, post. repeat split; auto.
              ** cbn in Hm. lia.
              ** now destruct pre.
    + rewrite Hstop. split.
      * intros [Hm Hk]. exists "", (String c s). cbn.
        repeat split; [lia | exact Hk].
      * intros (pre & post & Hs & Hall & Hm & Hk).
        destruct pre as [|c' pre].
        -- cbn in Hs, Hm. subst post. split; [lia | exact Hk].
        -- cbn in Hs. inversion Hs; subst. cbn in Hall.
           rewrite Ec in Hall. discriminate.
Qed.

End RegexFacts.

Module TemplateFacts.

Import Js WhatsApp TemplateSpec RegexFacts InterpolationFacts.

Section Literal.

Variable tok : string.
Variable value : string.
Hypothesis Hvalue : dollar_free value = true.

(** Neither the position nor the text before it matters to a literal
    pattern and a value without [$]. *)
Lemma replace_literal_anywhere :
  forall (s : string) (skip : nat) (pos0 pos0' : bool) (pre pre' : string),
    replace_from [literal tok] value skip pos0 pre s
    = replace_from [literal tok] value skip pos0' pre' s.
Proof.
  induction s as [|c s IH]; intros skip pos0 pos0' pre pre'.
  - destruct skip; cbn [replace_from]; [| reflexivity].
    rewrite !match_pattern_literal.
    destruct (prefix tok ""); [| reflexivity].
    now rewrite !getSubstitution_dollar_free.
  - destruct skip as [|k]; cbn [replace_from]; [| apply IH].
    rewrite !match_pattern_literal.
    destruct (prefix tok (String c s)).
    + rewrite !getSubstitution_dollar_free by exact Hvalue.
      destruct (String.length (String c s)
                - String.length (drop (String.length tok) (String c s)));
        f_equal; [f_equal |]; apply IH.
    + f_equal. apply IH.
Qed.

Lemma replace_literal_skip :
  forall (k : nat) (s : string) (pos0 : bool) (pre : string),
    k <= String.length s ->
    replace_from [literal tok] value k pos0 pre s
    = replace_from [literal tok] value 0 true "" (drop k s).
Proof.
  induction k as [|k IH]; intros s pos0 pre Hk.
  - destruct s; apply replace_literal_anywhere.
  - destruct s as [|c s]; cbn in Hk; [lia |].
    cbn [replace_from drop]. apply IH. lia.
Qed.

Lemma replace_literal_here (s : string) (pos0 : bool) (pre : string) :
  tok <> "" ->
  prefix tok s = true ->
  replace_from [literal tok] value 0 pos0 pre s
  = value
    ++ replace_from [literal tok] value 0 true "" (drop (String.length tok) s).
Proof.
  intros Hne Hp.
  pose proof (prefix_split tok s Hp) as Hs.
  assert (Hlen : String.length s
                 - String.length (drop (String.length tok) s)
                 = String.length tok).
  { rewrite Hs at 1. rewrite length_app. lia. }
  assert (Hle : String.length tok <= String.length s).
  { rewrite Hs, length_app. lia. }
  destruct s as [|c s'].
  - destruct tok; [now destruct Hne | discriminate Hp].
  - cbn [replace_from]. rewrite match_pattern_literal, Hp.
    rewrite getSubstitution_dollar_free by exact Hvalue.
    rewrite Hlen.
    destruct (String.length tok) as [|k] eqn:E.
    + destruct tok; [now destruct Hne | discriminate E].
    + f_equal. cbn [drop]. apply replace_literal_skip.
      cbn in Hle. lia.
Qed.

Lemma replace_literal_first (b : string) :
  tok <> "" ->
  forall (a pre : string) (pos0 : bool),
    starts_after a tok (tok ++ b) = true ->
    replace_from [literal tok] value 0 pos0 pre (a ++ tok ++ b)
    = a ++ value ++ replace_from [literal tok] value 0 true "" b.
Proof.
  intros Hne. induction a as [|c a IH]; intros pre pos0 Ha.
  - cbn [append]. rewrite replace_literal_here;
      [now rewrite drop_app | exact Hne | apply prefix_app].
  - cbn [starts_after] in Ha. apply andb_prop in Ha. destruct Ha as [H0 Ha].
    apply negb_true_iff in H0. cbn [append] in H0.
    cbn [append replace_from]. rewrite match_pattern_literal, H0.
    f_equal. now apply IH.
Qed.

Lemma search_literal (s : string) (pos0 : bool) :
  search [literal tok] pos0 s = includes s tok.
Proof.
  revert pos0. induction s as [|c s IH]; intros pos0; cbn [search includes];
    rewrite match_pattern_literal.
  - destruct (prefix tok ""); reflexivity.
  - destruct (prefix tok (String c s)); [reflexivity | apply IH].
Qed.

End Literal.

(** X1: for a key without syntax characters that is not a number, and a
    value that prints without [$] (a number being a safe integer),
    [interpolateVariables] with this one
    variable is the literal substitution of the token: it returns; a
    template in which the token does not occur is returned as it is; and
    where the first occurrence of the token stands after [a], the result
    is [a], then the value (the empty string for a falsy one), then the
    result for the rest of the template. *)
Theorem plain_key_is_substituted_literally (key : string) (v : Value) :
  plain_key key = true ->
  dollar_free (inserted v) = true ->
  safe_value v = true ->
  (forall t, exists r, interpolateVariables t [(key, v)] = Normal r)
  /\ (forall t, includes t (token key) = false ->
                interpolateVariables t [(key, v)] = Normal t)
  /\ (forall a b r,
         starts_after a (token key) (token key ++ b) = true ->
         interpolateVariables b [(key, v)] = Normal r ->
         interpolateVariables (a ++ token key ++ b) [(key, v)]
         = Normal (a ++ inserted v ++ r)).
Proof.
  intros Hk Hv _.
  assert (Hrun : forall t,
            interpolateVariables t [(key, v)]
            = Normal (replace_all [literal (token key)] (inserted v) t)).
  { intros t. unfold interpolateVariables, entries.
    cbn [index_entries filter fst].
    destruct (array_index key);
      cbn [insert_by_index map snd app interpolate_entries];
      fold (token key); now rewrite (compile_token key Hk). }
  split; [| split].
  - intros t. eexists. apply Hrun.
  - intros t Ht. rewrite Hrun. f_equal. apply replace_all_no_match.
    unfold test. now rewrite search_literal.
  - intros a b r Ha Hb. rewrite Hrun in *. inversion Hb as [Hr].
    f_equal. unfold replace_all.
    apply replace_literal_first; [exact Hv | discriminate | exact Ha].
Qed.

Lemma plain_key_is_substituted_literally_witness :
  interpolateVariables "Hello {{name}}, {{name}}!" [("name", VStr "Sam")]
  = Normal "Hello Sam, Sam!".
Proof.
  apply (proj2 (proj2 (@plain_key_is_substituted_literally
                         "name" (VStr "Sam") eq_refl eq_refl eq_refl))
           "Hello " ", {{name}}!" ", Sam!" eq_refl).
  apply (proj2 (proj2 (@plain_key_is_substituted_literally
                         "name" (VStr "Sam") eq_refl eq_refl eq_refl))
           ", " "!" "!" eq_refl).
  apply (proj1 (proj2 (@plain_key_is_substituted_literally
                         "name" (VStr "Sam") eq_refl eq_refl eq_refl))
           "!" eq_refl).
Defined.

End TemplateFacts.

Module MissingFacts.
Import Js WhatsApp TemplateSpec RegexFacts InterpolationFacts TemplateFacts.

Lemma ordinary_no_brace (c : ascii) : ordinary c = true -> no_brace c = true.
Proof. now destruct c as [[] [] [] [] [] [] [] []]. Qed.

Lemma plain_brace_free (k : string) :
  all_chars ordinary k = true -> brace_free k = true.
Proof.
  unfold brace_free. induction k as [|c k IH]; cbn [all_chars];
    [reflexivity |].
  intros H. apply andb_prop in H. destruct H as [Hc Hk].
  now rewrite (ordinary_no_brace c Hc), IH.
Qed.

(** The text after the two opening braces of a token. *)
Lemma tail_no_open (k : string) :
  brace_free k = true ->
  all_chars (fun c => negb (Ascii.eqb c "{")) (k ++ "}}") = true.
Proof.
  unfold brace_free. induction k as [|c k IH]; cbn [all_chars append];
    [reflexivity |].
  intros H. apply andb_prop in H. destruct H as [Hc Hk].
  unfold no_brace in Hc. apply andb_prop in Hc. destruct Hc as [Hc _].
  now rewrite Hc, IH.
Qed.

(** A text without opening brace does not run into a text that starts
    with one. *)
Lemma prefix_before_open (y : string) :
  forall x a : string,
    all_chars (fun c => negb (Ascii.eqb c "{")) x = true ->
    prefix x (a ++ String "{" y) = prefix x a.
Proof.
  induction x as [|c x IH]; intros a Hx; [now destruct a |].
  cbn [all_chars] in Hx. apply andb_prop in Hx. destruct Hx as [Hc Hx].
  destruct a as [|d a]; cbn [append prefix].
  - apply negb_true_iff in Hc. now rewrite Hc.
  - now rewrite IH.
Qed.

(** The tokens of two names differ where the names do. *)
Lemma prefix_other_name (b : string) :
  forall k m : string,
    brace_free k = true -> brace_free m = true -> k <> m ->
    prefix (k ++ "}}") (m ++ "}}" ++ b) = false.
Proof.
  unfold brace_free.
  induction k as [|c k IH]; intros m Hk Hm Hne.
  - destruct m as [|d m]; [now destruct Hne |].
    cbn [all_chars] in Hm. apply andb_prop in Hm. destruct Hm as [Hd _].
    unfold no_brace in Hd. apply andb_prop in Hd. destruct Hd as [_ Hd].
    apply negb_true_iff in Hd. cbn [append prefix].
    rewrite Ascii.eqb_sym, Hd. reflexivity.
  - cbn [all_chars] in Hk. apply andb_prop in Hk. destruct Hk as [Hc Hk].
    destruct m as [|d m]; cbn [append prefix].
    + unfold no_brace in Hc. apply andb_prop in Hc. destruct Hc as [_ Hc].
      apply negb_true_iff in Hc. now rewrite Hc.
    + cbn [all_chars] in Hm. apply andb_prop in Hm. destruct Hm as [_ Hm].
      destruct (Ascii.eqb c d) eqn:E; [| reflexivity].
      apply Ascii.eqb_eq in E. subst d. cbn [andb].
      apply IH; auto. congruence.
Qed.

Lemma tail_after_open (k y : string) :
  brace_free k = true -> prefix (k ++ "}}") (String "{" y) = false.
Proof.
  destruct k as [|c k]; [reflexivity |]. unfold brace_free.
  cbn [all_chars append prefix]. intros H.
  apply andb_prop in H. destruct H as [Hc _].
  unfold no_brace in Hc. apply andb_prop in Hc. destruct Hc as [Hc _].
  apply negb_true_iff in Hc. now rewrite Hc.
Qed.

(** No occurrence of the token of [k] runs into the token of another
    name [m]. *)
Lemma prefix_token_apart (k m a b : string) :
  brace_free k = true -> brace_free m = true -> k <> m ->
  prefix (token k) (a ++ token m ++ b) = prefix (token k) a.
Proof.
  intros Hk Hm Hne. unfold token. cbn [append].
  destruct a as [|c1 a]; cbn [append prefix].
  - rewrite !Ascii.eqb_refl. cbn [andb]. rewrite app_assoc_s.
    now apply prefix_other_name.
  - f_equal. destruct a as [|c2 a]; cbn [append prefix].
    + rewrite Ascii.eqb_refl. cbn [andb]. now apply tail_after_open.
    + f_equal. apply prefix_before_open. now apply tail_no_open.
Qed.

Lemma prefix_longer (t a x : string) :
  prefix t a = true -> prefix t (a ++ x) = true.
Proof.
  revert a. induction t as [|c t IH]; intros a H; [reflexivity |].
  destruct a as [|d a]; [discriminate |]. cbn [append prefix] in *.
  apply andb_prop in H. destruct H as [Hc Ht]. now rewrite Hc, IH.
Qed.

Lemma drop_longer (t a x : string) :
  prefix t a = true ->
  drop (String.length t) (a ++ x) = drop (String.length t) a ++ x.
Proof.
  revert a. induction t as [|c t IH]; intros a H.
  - cbn. now destruct a.
  - destruct a as [|d a]; [discriminate |]. cbn [prefix] in H.
    apply andb_prop in H. destruct H as [_ Ht]. cbn. now apply IH.
Qed.

Section Apart.

Variable k : string.
Variable value : string.
Hypothesis Hvalue : dollar_free value = true.
Hypothesis Hk : brace_free k = true.

Lemma replace_step (c : ascii) (s : string) :
  prefix (token k) (String c s) = false ->
  substitute k value (String c s) = String c (substitute k value s).
Proof.
  intros H. unfold substitute. cbn [replace_from].
  rewrite match_pattern_literal, H. f_equal.
  now apply (@replace_literal_anywhere (token k) value Hvalue).
Qed.

Lemma replace_nil : substitute k value "" = "".
Proof. reflexivity. Qed.

(** A text without opening brace is copied. *)
Lemma replace_no_open (y : string) :
  forall x : string,
    all_chars (fun c => negb (Ascii.eqb c "{")) x = true ->
    substitute k value (x ++ y) = x ++ substitute k value y.
Proof.
  induction x as [|c x IH]; intros Hx; [reflexivity |].
  cbn [all_chars] in Hx. apply andb_prop in Hx. destruct Hx as [Hc Hx].
  cbn [append]. rewrite replace_step, IH; auto.
  unfold token. cbn [append prefix].
  apply negb_true_iff in Hc. now rewrite Ascii.eqb_sym, Hc.
Qed.

(** The token of another name is copied. *)
Lemma replace_token_other (m b : string) :
  brace_free m = true -> k <> m ->
  substitute k value (token m ++ b) = token m ++ substitute k value b.
Proof.
  intros Hm Hne.
  pose proof (prefix_token_apart "" b Hk Hm Hne) as Hp.
  change ("" ++ token m ++ b)
    with (String "{" (String "{" ((m ++ "}}") ++ b))) in Hp.
  change (prefix (token k) "") with false in Hp.
  change (token m ++ b) with (String "{" (String "{" ((m ++ "}}") ++ b))).
  change (token m ++ substitute k value b)
    with (String "{" (String "{" ((m ++ "}}") ++ substitute k value b))).
  rewrite (@replace_step _ _ Hp). f_equal.
  rewrite replace_step.
  - f_equal. apply replace_no_open. now apply tail_no_open.
  - change (token k) with (String "{" (String "{" (k ++ "}}"))).
    cbn [prefix]. rewrite Ascii.eqb_refl. cbn [andb].
    pose proof (tail_no_open m Hm) as Hno.
    destruct ((m ++ "}}") ++ b) as [|d r] eqn:E; [reflexivity |].
    assert (Hd : Ascii.eqb d "{" = false).
    { destruct m as [|d' m'].
      - cbn in E. now inversion E.
      - cbn in E. inversion E; subst.
        cbn [append all_chars] in Hno.
        apply andb_prop in Hno. destruct Hno as [Hno _].
        now apply negb_true_iff in Hno. }
    now rewrite Ascii.eqb_sym, Hd.
Qed.

(** The substitution of one token goes around the token of another
    name. *)
Lemma replace_around (m b : string) :
  brace_free m = true -> k <> m ->
  forall (n : nat) (a : string),
    String.length a < n ->
    substitute k value (a ++ token m ++ b)
    = substitute k value a ++ token m ++ substitute k value b.
Proof.
  intros Hm Hne. induction n as [|n IH]; intros a Hn; [lia |].
  pose proof (prefix_token_apart a b Hk Hm Hne) as Hp.
  destruct (prefix (token k) a) eqn:Ea.
  - assert (Hne' : token k <> "") by discriminate.
    unfold substitute.
    rewrite (@replace_literal_here (token k) value Hvalue _ true "" Hne' Hp).
    rewrite (@replace_literal_here (token k) value Hvalue _ true "" Hne' Ea).
    rewrite drop_longer by exact Ea.
    set (rest := drop (String.length (token k)) a).
    fold (substitute k value (rest ++ token m ++ b)).
    fold (substitute k value rest). fold (substitute k value b).
    rewrite IH.
    + now rewrite app_assoc_s.
    + pose proof (prefix_split _ _ Ea) as Hs.
      assert (Hl : String.length a
                   = String.length (token k) + String.length rest).
      { rewrite Hs at 1. apply length_app. }
      change (String.length (token k)) with (S (S (String.length (k ++ "}}"))))
        in Hl at 1.
      lia.
  - destruct a as [|c a].
    + now apply replace_token_other.
    + change (String c a ++ token m ++ b) with (String c (a ++ token m ++ b))
        in *.
      rewrite (@replace_step _ _ Hp), (@replace_step _ _ Ea).
      cbn [append]. f_equal. apply IH. cbn in Hn. lia.
Qed.

End Apart.


(** ** The whole map *)

Lemma plain_not_index (k : string) :
  plain_key k = true -> array_index k = None.
Proof.
  unfold plain_key. intros H. apply andb_prop in H. destruct H as [_ H].
  apply orb_prop in H. destruct H as [H | H].
  - apply String.eqb_eq in H. now subst k.
  - apply negb_true_iff in H. destruct k as [|c k]; [reflexivity |].
    unfold array_index. now rewrite H.
Qed.

Lemma entries_plain (o : Obj) : plain_map o = true -> entries o = o.
Proof.
  unfold plain_map, entries.
  assert (H : forallb plain_entry o = true ->
              index_entries o = []
              /\ filter (fun kv : string * Value =>
                           match array_index (fst kv) with
                           | Some _ => false
                           | None => true
                           end) o = o).
  { induction o as [|[k v] o IH]; [now split |].
    cbn [forallb]. intros H. apply andb_prop in H. destruct H as [Hkv Ho].
    unfold plain_entry in Hkv. cbn [fst snd] in Hkv.
    apply andb_prop in Hkv. destruct Hkv as [Hkv _].
    apply andb_prop in Hkv. destruct Hkv as [Hk _].
    destruct (IH Ho) as [H1 H2]. cbn [index_entries filter fst].
    rewrite (plain_not_index k Hk). split; [exact H1 | now rewrite H2]. }
  intros Ho. destruct (H Ho) as [-> ->]. reflexivity.
Qed.

Lemma missing_key (o : Obj) (name : string) :
  obj_has o name = false -> forall k v, In (k, v) o -> k <> name.
Proof.
  induction o as [|[k' v'] o IH]; cbn [obj_has]; intros H k v Hin;
    [destruct Hin |].
  apply orb_false_iff in H. destruct H as [H1 H2].
  destruct Hin as [Hin | Hin].
  - inversion Hin; subst. now apply String.eqb_neq.
  - now apply (IH H2 k v).
Qed.

Lemma interpolate_entries_literal (k : string) (v : Value)
  (es : list (string * Value)) (s : string) :
  plain_key k = true ->
  interpolate_entries ((k, v) :: es) s
  = interpolate_entries es (substitute k (inserted v) s).
Proof.
  intros Hk. cbn [interpolate_entries]. fold (token k).
  now rewrite (compile_token k Hk).
Qed.

Lemma interpolate_entries_around (name : string) :
  brace_free name = true ->
  forall (es : list (string * Value)) (a b : string),
    plain_map es = true ->
    (forall k v, In (k, v) es -> k <> name) ->
    exists a' b',
      interpolate_entries es a = Normal a'
      /\ interpolate_entries es b = Normal b'
      /\ interpolate_entries es (a ++ token name ++ b)
         = Normal (a' ++ token name ++ b').
Proof.
  intros Hname. induction es as [|[k v] es IH]; intros a b Hes Hmiss.
  - exists a, b. repeat split.
  - unfold plain_map in Hes. cbn [forallb] in Hes.
    apply andb_prop in Hes. destruct Hes as [Hkv Hes].
    unfold plain_entry in Hkv. cbn [fst snd] in Hkv.
    apply andb_prop in Hkv. destruct Hkv as [Hkv _].
    apply andb_prop in Hkv. destruct Hkv as [Hk Hv].
    rewrite !(@interpolate_entries_literal k v es _ Hk).
    assert (Hb : brace_free k = true).
    { apply plain_brace_free. unfold plain_key in Hk.
      now apply andb_prop in Hk. }
    rewrite (@replace_around k (inserted v) Hv Hb name b Hname
               (Hmiss k v (or_introl eq_refl)) (S (String.length a)) a)
      by lia.
    apply IH; [exact Hes |].
    intros k' v' Hin. apply (Hmiss k' v'). now right.
Qed.

Lemma interpolate_entries_untouched (template : string) :
  forall es : list (string * Value),
    plain_map es = true ->
    (forall k v, In (k, v) es -> includes template (token k) = false) ->
    interpolate_entries es template = Normal template.
Proof.
  induction es as [|[k v] es IH]; intros Hes Hno; [reflexivity |].
  unfold plain_map in Hes. cbn [forallb] in Hes.
  apply andb_prop in Hes. destruct Hes as [Hkv Hes].
  unfold plain_entry in Hkv. cbn [fst snd] in Hkv.
  apply andb_prop in Hkv. destruct Hkv as [Hkv _].
  apply andb_prop in Hkv. destruct Hkv as [Hk _].
  rewrite (@interpolate_entries_literal k v es _ Hk).
  change (substitute k (inserted v) template)
    with (replace_all [literal (token k)] (inserted v) template).
  rewrite replace_all_no_match.
  - apply IH; [exact Hes |]. intros k' v' Hin. apply (Hno k' v'). now right.
  - unfold test. rewrite search_literal. apply (Hno k v). now left.
Qed.

(** C7, as the code has it: the token of a variable that is missing
    from the map stays in the output.  On the example of the
    specification the result is "Hello Sam, you owe {{amt}}".  In
    general, take a map whose keys hold no character with a meaning in
    a regular expression and are not numbers, and whose values are
    inserted as they print (no [$] in them, no number beyond the safe
    integers).  Then the token of every name without braces that is
    not a key of the map is left where it is: the result for a text
    [a], the token and a text [b] is the result for [a], then the
    token, then the result for [b].  And a template in which the token
    of no key of the map occurs is returned unchanged. *)
Theorem C7_missing_variable_token_is_kept :
  interpolateVariables "Hello {{name}}, you owe {{amt}}"
    [("name", VStr "Sam")]
  = Normal "Hello Sam, you owe {{amt}}"
  /\ (forall (variables : Obj) (name a b : string),
         plain_map variables = true ->
         brace_free name = true ->
         obj_has variables name = false ->
         exists a' b',
           interpolateVariables a variables = Normal a'
           /\ interpolateVariables b variables = Normal b'
           /\ interpolateVariables (a ++ token name ++ b) variables
              = Normal (a' ++ token name ++ b'))
  /\ (forall (variables : Obj) (template : string),
         plain_map variables = true ->
         (forall k v, In (k, v) variables ->
                      includes template (token k) = false) ->
         interpolateVariables template variables = Normal template).
Proof.
  split; [vm_compute; reflexivity | split].
  - intros variables name a b Hmap Hname Hmiss.
    unfold interpolateVariables. rewrite (entries_plain variables Hmap).
    apply interpolate_entries_around; auto.
    now apply missing_key.
  - intros variables template Hmap Hno.
    unfold interpolateVariables. rewrite (entries_plain variables Hmap).
    now apply interpolate_entries_untouched.
Qed.

Lemma C7_missing_variable_token_is_kept_witness :
  exists a' b',
    interpolateVariables "Hello {{name}}, you owe " [("name", VStr "Sam")]
    = Normal a'
    /\ interpolateVariables "" [("name", VStr "Sam")] = Normal b'
    /\ interpolateVariables ("Hello {{name}}, you owe " ++ token "amt" ++ "")
         [("name", VStr "Sam")]
       = Normal (a' ++ token "amt" ++ b').
Proof.
  apply (proj1 (proj2 C7_missing_variable_token_is_kept)
           [("name", VStr "Sam")] "amt" "Hello {{name}}, you owe " "");
    reflexivity.
Defined.

End MissingFacts.

Module DollarFacts.

Import Js WhatsApp TemplateSpec RegexFacts InterpolationFacts TemplateFacts.

Lemma skip_then_none (tok value b : string) :
  includes b tok = false ->
  forall (t : string) (pos0 : bool) (pre : string),
    replace_from [literal tok] value (String.length t) pos0 pre (t ++ b) = b.
Proof.
  intros Hb. induction t as [|c t IH]; intros pos0 pre.
  - cbn [String.length append]. apply replace_from_no_match.
    now rewrite search_literal.
  - cbn [String.length append replace_from]. apply IH.
Qed.

Lemma replace_once_here (tok value b : string) (pos0 : bool) (pre : string) :
  tok <> "" ->
  includes b tok = false ->
  replace_from [literal tok] value 0 pos0 pre (tok ++ b)
  = getSubstitution tok pre b value ++ b.
Proof.
  intros Hne Hb. destruct tok as [|c t] eqn:E; [now destruct Hne |].
  rewrite <- E.
  assert (Hs : tok ++ b = String c (t ++ b)) by now rewrite E.
  rewrite Hs. cbn [replace_from]. rewrite <- Hs.
  rewrite match_pattern_literal, prefix_app, drop_app.
  rewrite length_app, Nat.add_sub, take_app.
  assert (Hl : String.length tok = S (String.length t)) by now rewrite E.
  rewrite Hl. f_equal. rewrite <- E in Hb. now apply skip_then_none.
Qed.

Lemma replace_once (tok value b : string) :
  tok <> "" ->
  includes b tok = false ->
  forall (a pre : string) (pos0 : bool),
    starts_after a tok (tok ++ b) = true ->
    replace_from [literal tok] value 0 pos0 pre (a ++ tok ++ b)
    = a ++ getSubstitution tok (pre ++ a) b value ++ b.
Proof.
  intros Hne Hb. induction a as [|c a IH]; intros pre pos0 Ha.
  - cbn [append]. rewrite replace_once_here by assumption.
    now rewrite app_nil_r_s.
  - cbn [starts_after] in Ha. apply andb_prop in Ha. destruct Ha as [H0 Ha].
    apply negb_true_iff in H0. cbn [append] in H0.
    cbn [append replace_from]. rewrite match_pattern_literal, H0.
    f_equal. rewrite (IH _ _ Ha). now rewrite app_assoc_s.
Qed.

(** X2: a value is read as a replacement pattern of [String.replace],
    not copied.  In a template [a ++ "{{key}}" ++ b] where the token of
    a plain key occurs once, the value [$$] inserts a single [$], the
    value [$&] leaves the token in place, and the values [$`] and [$']
    insert the text before the token and the text after it. *)
Theorem dollar_in_a_value_is_a_replacement_pattern
  (key : string) (v : Value) (a b : string) :
  plain_key key = true ->
  starts_after a (token key) (token key ++ b) = true ->
  includes b (token key) = false ->
  (inserted v = "$$" ->
   interpolateVariables (a ++ token key ++ b) [(key, v)]
   = Normal (a ++ "$" ++ b))
  /\ (inserted v = "$&" ->
      interpolateVariables (a ++ token key ++ b) [(key, v)]
      = Normal (a ++ token key ++ b))
  /\ (inserted v = "$`" ->
      interpolateVariables (a ++ token key ++ b) [(key, v)]
      = Normal (a ++ a ++ b))
  /\ (inserted v = "$'" ->
      interpolateVariables (a ++ token key ++ b) [(key, v)]
      = Normal (a ++ b ++ b)).
Proof.
  intros Hk Ha Hb.
  assert (Hrun :
    interpolateVariables (a ++ token key ++ b) [(key, v)]
    = Normal (a ++ getSubstitution (token key) a b (inserted v) ++ b)).
  { unfold interpolateVariables, entries.
    cbn [index_entries filter fst].
    destruct (array_index key);
      cbn [insert_by_index map snd app interpolate_entries];
      fold (token key); rewrite (compile_token key Hk); f_equal;
      unfold replace_all;
      now rewrite (@replace_once (token key) (inserted v) b). }
  rewrite Hrun.
  repeat split; intros ->; cbn [getSubstitution];
    rewrite ?app_nil_r_s; reflexivity.
Qed.

Lemma dollar_in_a_value_is_a_replacement_pattern_witness :
  interpolateVariables "Pay {{amount}} now" [("amount", VStr "$$")]
  = Normal "Pay $ now".
Proof.
  apply (proj1 (@dollar_in_a_value_is_a_replacement_pattern
                  "amount" (VStr "$$") "Pay " " now"
                  eq_refl eq_refl eq_refl)).
  reflexivity.
Defined.

End DollarFacts.

(* ================================================================== *)
(** * Campaigns: start, run, pause and schedule                     *)
(* ================================================================== *)

Module BroadcastMoreFacts.

Import Js WhatsApp Eff Broadcast BroadcastControl Scheduler.
Import BroadcastSpec BroadcastRunSpec EffFacts BroadcastFacts.
Local Open Scope eff_scope.

(** ** Runs that are not stopped *)

Lemma drain_final (col : Collaborators) (env : Config.Environment) :
  forall (P : list BroadcastMessage) (sent failed : nat)
         (cnt init : nat * nat),
    snd (drain col env P sent failed) = Some cnt ->
    final_counts (fst (drain col env P sent failed)) init
    = match P with
      | [] => init
      | _ :: _ => cnt
      end.
Proof.
  induction P as [|m P IH]; intros sent failed cnt init; cbn [drain].
  - reflexivity.
  - cbv zeta.
    destruct (aborts col env (counts_after col (bm_id m) sent failed));
      [discriminate |].
    set (c := counts_after col (bm_id m) sent failed).
    specialize (IH (fst c) (snd c) cnt c).
    destruct (drain col env P (fst c) (snd c)) as [done r] eqn:Hd.
    cbn [fst snd] in *. intros Hr. specialize (IH Hr).
    unfold final_counts in *. cbn [map snd]. rewrite last_cons_default.
    rewrite IH. destruct P; [| reflexivity].
    cbn in Hd. injection Hd as <- <-. injection Hr as <-.
    apply surjective_pairing.
Qed.

Lemma run_to_completion (col : Collaborators) (env : Config.Environment)
  (campaignId : string) (w : World) (c : Campaign) (cnt : nat * nat) :
  NoDup (map bm_id (messages (db w))) ->
  find_campaign (db w) campaignId = Some c ->
  active (cp_status c) ->
  workspace_ready (db w) c ->
  snd (drain col env (pending_of campaignId (db w)) 0 0) = Some cnt ->
  let w' := snd (processCampaign col env campaignId w) in
  fst (processCampaign col env campaignId w) = Normal RunCompleted
  /\ pending_of campaignId (db w') = []
  /\ exists c',
       find_campaign (db w') campaignId = Some c'
       /\ cp_status c' = Completed
       /\ cp_completed_at c' = Some (clock w')
       /\ (cp_sent_count c', cp_failed_count c')
          = match pending_of campaignId (db w) with
            | [] => (cp_sent_count c, cp_failed_count c)
            | _ :: _ => cnt
            end.
Proof.
  intros Hnd Hc Hact (ws & Hws & Hphone & Htoken) Hd.
  set (P := pending_of campaignId (db w)) in *.
  destruct (processLoop_exact col env campaignId (delayMs_of env c)
              (fuel := S (List.length P)) 0 0 w Hnd Hc Hact eq_refl)
    as (t1 & d1 & Hrun & Hsteps); [fold P; lia |].
  fold P in Hrun, Hsteps.
  pose proof (@drain_some_ids col env P 0 0 cnt Hd) as Hids.
  pose proof (@drain_final col env P 0 0 cnt
                (cp_sent_count c, cp_failed_count c) Hd) as Hfin.
  destruct (drain col env P 0 0) as [done r].
  cbn [fst snd] in *. subst r. cbn [outcome_of] in Hrun.
  assert (Hall :
    processCampaign col env campaignId w
    = (Normal RunCompleted,
       {| db := update_campaign campaignId
                  (with_status Completed None (Some t1)) d1;
          clock := t1;
          trace := (EvCampaignStatus campaignId Completed
                    :: rev (events_of col campaignId (delayMs_of env c) done)
                    ++ trace w)%list |})).
  { unfold processCampaign, tryCatch. rewrite bind_get, Hc, Hws.
    rewrite Hphone, Htoken. cbn [negb orb]. fold P.
    rewrite (bind_normal _ _ _ Hrun). reflexivity. }
  cbv zeta. rewrite Hall. cbn [fst snd db clock].
  split; [reflexivity | split].
  - rewrite pending_of_update_campaign.
    apply (db_steps_pending Hsteps Hnd P []).
    + fold P. now rewrite app_nil_r.
    + now symmetry.
  - destruct (db_steps_campaign Hsteps Hc) as (c1 & Hc1 & _ & Hn).
    rewrite find_campaign_update by reflexivity. rewrite Hc1. cbn.
    eexists. split; [reflexivity |]. cbn.
    split; [reflexivity | split; [reflexivity |]].
    now rewrite Hn, Hfin.
Qed.

(** X7: a run over at most ten pending messages cannot be stopped by the
    failure threshold, whatever fails: it ends [completed] with no
    message left pending.  The counters that it writes are those of this
    run, started from zero: what the row held before, from an earlier
    run that was paused, is overwritten. *)
Theorem small_run_always_completes
  (col : Collaborators) (env : Config.Environment) (campaignId : string)
  (w : World) (c : Campaign) :
  NoDup (map bm_id (messages (db w))) ->
  find_campaign (db w) campaignId = Some c ->
  active (cp_status c) ->
  workspace_ready (db w) c ->
  pending_of campaignId (db w) <> [] ->
  List.length (pending_of campaignId (db w)) <= 10 ->
  let w' := snd (processCampaign col env campaignId w) in
  fst (processCampaign col env campaignId w) = Normal RunCompleted
  /\ pending_of campaignId (db w') = []
  /\ exists c',
       find_campaign (db w') campaignId = Some c'
       /\ cp_status c' = Completed
       /\ cp_completed_at c' = Some (clock w')
       /\ cp_sent_count c' = successes col (pending_of campaignId (db w))
       /\ cp_failed_count c' = failures col (pending_of campaignId (db w)).
Proof.
  intros Hnd Hc Hact Hws Hne Hlen.
  destruct (drain_small col env (pending_of campaignId (db w)) 0 0)
    as (done & Hd & _); [lia |].
  destruct (@run_to_completion col env campaignId w c
              (successes col (pending_of campaignId (db w)),
               failures col (pending_of campaignId (db w))) Hnd Hc Hact Hws)
    as (H1 & H2 & c' & H3 & H4 & H5 & H6).
  { now rewrite Hd. }
  cbv zeta. split; [exact H1 | split; [exact H2 |]].
  exists c'. split; [exact H3 | split; [exact H4 | split; [exact H5 |]]].
  destruct (pending_of campaignId (db w)); [now destruct Hne |].
  now inversion H6.
Qed.

Lemma small_run_always_completes_witness :
  fst (processCampaign (failing [1; 2]) default_environment "k1"
         (campaign_world 3))
  = Normal RunCompleted
  /\ pending_of "k1"
       (db (snd (processCampaign (failing [1; 2]) default_environment "k1"
                   (campaign_world 3))))
     = [].
Proof.
  destruct (@small_run_always_completes (failing [1; 2]) default_environment
              "k1" (campaign_world 3) running_campaign)
    as (H1 & H2 & _).
  - apply NoDup_seq_ids.
  - reflexivity.
  - split; discriminate.
  - eexists. split; [reflexivity | split; reflexivity].
  - discriminate.
  - vm_compute. lia.
  - split; [exact H1 | exact H2].
Defined.

Lemma drain_no_failure (col : Collaborators) (env : Config.Environment) :
  agrees_off_ties col ->
  (0 < Config.failureThreshold env)%Z ->
  forall (B : list BroadcastMessage) (sent : nat),
    (forall m, In m B -> fails col (bm_id m) = false) ->
    snd (drain col env B sent 0) = Some (sent + List.length B, 0).
Proof.
  intros Hfp Hth. induction B as [|m B IH]; intros sent Hok; cbn [drain].
  - cbn. now rewrite Nat.add_0_r.
  - cbv zeta. unfold counts_after.
    rewrite (Hok m (or_introl eq_refl)).
    assert (Ha : aborts col env (S sent, 0) = false).
    { unfold aborts. cbn [fst snd].
      destruct (Hfp 0 (S sent) (Config.failureThreshold env)) as [_ Hf];
        [lia |].
      rewrite Hf; [reflexivity |]. nia. }
    rewrite Ha. cbn [fst snd].
    specialize (IH (S sent) (fun x Hx => Hok x (or_intror Hx))).
    destruct (drain col env B (S sent) 0) as [done r]. cbn [snd] in *.
    rewrite IH. cbn [List.length]. f_equal. f_equal. lia.
Qed.

(** X8: when every pending message goes through at one of its three
    attempts, a run with a positive failure threshold ends [completed]
    whatever the number of messages: none is left pending, [sent_count]
    is their number and [failed_count] is 0. *)
Theorem run_without_failure_completes
  (col : Collaborators) (env : Config.Environment) (campaignId : string)
  (w : World) (c : Campaign) :
  NoDup (map bm_id (messages (db w))) ->
  find_campaign (db w) campaignId = Some c ->
  active (cp_status c) ->
  workspace_ready (db w) c ->
  agrees_off_ties col ->
  (0 < Config.failureThreshold env)%Z ->
  pending_of campaignId (db w) <> [] ->
  (forall m, In m (pending_of campaignId (db w)) ->
             fails col (bm_id m) = false) ->
  let w' := snd (processCampaign col env campaignId w) in
  fst (processCampaign col env campaignId w) = Normal RunCompleted
  /\ pending_of campaignId (db w') = []
  /\ exists c',
       find_campaign (db w') campaignId = Some c'
       /\ cp_status c' = Completed
       /\ cp_sent_count c' = List.length (pending_of campaignId (db w))
       /\ cp_failed_count c' = 0.
Proof.
  intros Hnd Hc Hact Hws Hfp Hth Hne Hok.
  pose proof (drain_no_failure env Hfp Hth
                (pending_of campaignId (db w)) 0 Hok) as Hd.
  destruct (@run_to_completion col env campaignId w c _ Hnd Hc Hact Hws Hd)
    as (H1 & H2 & c' & H3 & H4 & _ & H6).
  cbv zeta. split; [exact H1 | split; [exact H2 |]].
  exists c'. split; [exact H3 | split; [exact H4 |]].
  destruct (pending_of campaignId (db w)); [now destruct Hne |].
  now inversion H6.
Qed.

Lemma run_without_failure_completes_witness :
  fst (processCampaign second_attempt default_environment "k1"
         (campaign_world 12))
  = Normal RunCompleted
  /\ exists c',
       find_campaign
         (db (snd (processCampaign second_attempt default_environment "k1"
                     (campaign_world 12)))) "k1" = Some c'
       /\ cp_sent_count c' = 12
       /\ cp_failed_count c' = 0.
Proof.
  destruct (@run_without_failure_completes second_attempt default_environment
              "k1" (campaign_world 12) running_campaign)
    as (H1 & _ & c' & H3 & _ & H5 & H6).
  - apply NoDup_seq_ids.
  - reflexivity.
  - split; discriminate.
  - eexists. split; [reflexivity | split; reflexivity].
  - apply exact_agrees_off_ties.
  - reflexivity.
  - discriminate.
  - intros m _. reflexivity.
  - split; [exact H1 |]. exists c'. split; [exact H3 |].
    split; [exact H5 | exact H6].
Defined.


(** ** Pause, cancel and resume *)

Lemma find_campaign_update_in (id : string) (allowed : list CampaignStatus)
  (f : Campaign -> Campaign) (d : Db) :
  (forall c, cp_id (f c) = cp_id c) ->
  find_campaign (update_campaign_in id allowed f d) id
  = option_map (fun c => if status_in allowed c then f c else c)
      (find_campaign d id).
Proof.
  intros Hf. unfold find_campaign, update_campaign_in. cbn.
  induction (campaigns d) as [|c cs IH]; cbn; [reflexivity |].
  destruct (String.eqb (cp_id c) id) eqn:E; cbn.
  - destruct (status_in allowed c); [now rewrite Hf, E | now rewrite E].
  - now rewrite E.
Qed.

Lemma stopped_run (col : Collaborators) (env : Config.Environment)
  (campaignId : string) (w : World) (c : Campaign) :
  find_campaign (db w) campaignId = Some c ->
  workspace_ready (db w) c ->
  (cp_status c = Paused ->
   processCampaign col env campaignId w = (Normal RunPaused, w))
  /\ (cp_status c = Cancelled ->
      processCampaign col env campaignId w = (Normal RunCancelled, w)).
Proof.
  intros Hc (ws & Hws & Hphone & Htoken).
  split; intros Hst;
    unfold processCampaign, tryCatch; rewrite bind_get, Hc, Hws;
    rewrite Hphone, Htoken; cbn [negb orb processLoop];
    unfold bind at 1; rewrite bind_get, Hc, Hst; reflexivity.
Qed.

(** X10: in a workspace that is configured for WhatsApp, after
    [pauseCampaign] or [cancelCampaign] on a campaign that is being
    processed or is scheduled (for [cancelCampaign], also on a paused
    one), a run of [processCampaign] makes no send and writes nothing:
    the status stays [paused] or [cancelled], and is not turned into
    [completed]. *)
Theorem paused_or_cancelled_campaign_sends_nothing
  (col : Collaborators) (env : Config.Environment) (campaignId : string)
  (w : World) (c : Campaign) :
  find_campaign (db w) campaignId = Some c ->
  workspace_ready (db w) c ->
  (cp_status c = Processing \/ cp_status c = Scheduled ->
   exists w',
     pauseCampaign campaignId w = (Normal tt, w')
     /\ find_campaign (db w') campaignId
        = Some (with_status Paused None None c)
     /\ trace w' = trace w
     /\ processCampaign col env campaignId w' = (Normal RunPaused, w'))
  /\ (cp_status c = Processing \/ cp_status c = Scheduled
      \/ cp_status c = Paused ->
      exists w',
        cancelCampaign campaignId w = (Normal tt, w')
        /\ find_campaign (db w') campaignId
           = Some (with_status Cancelled None (Some (clock w)) c)
        /\ trace w' = trace w
        /\ processCampaign col env campaignId w'
           = (Normal RunCancelled, w')).
Proof.
  intros Hc Hws. split; intros Hst.
  - set (w' := {| db := update_campaign_in campaignId [Processing; Scheduled]
                          (with_status Paused None None) (db w);
                  clock := clock w; trace := trace w |}).
    assert (Hf : find_campaign (db w') campaignId
                 = Some (with_status Paused None None c)).
    { cbn [db w']. rewrite find_campaign_update_in by reflexivity.
      rewrite Hc. cbn.
      unfold status_in. destruct Hst as [-> | ->]; reflexivity. }
    exists w'. split; [reflexivity |].
    split; [exact Hf | split; [reflexivity |]].
    apply (proj1 (@stopped_run col env campaignId w' _ Hf Hws)).
    reflexivity.
  - set (w' := {| db := update_campaign_in campaignId
                          [Processing; Scheduled; Paused]
                          (with_status Cancelled None (Some (clock w)))
                          (db w);
                  clock := clock w; trace := trace w |}).
    assert (Hf : find_campaign (db w') campaignId
                 = Some (with_status Cancelled None (Some (clock w)) c)).
    { cbn [db w']. rewrite find_campaign_update_in by reflexivity.
      rewrite Hc. cbn.
      unfold status_in. destruct Hst as [-> | [-> | ->]]; reflexivity. }
    exists w'. split; [reflexivity |].
    split; [exact Hf | split; [reflexivity |]].
    apply (proj2 (@stopped_run col env campaignId w' _ Hf Hws)).
    reflexivity.
Qed.

Lemma paused_or_cancelled_campaign_sends_nothing_witness :
  exists w',
    pauseCampaign "k1" (campaign_world 3) = (Normal tt, w')
    /\ processCampaign (failing []) default_environment "k1" w'
       = (Normal RunPaused, w').
Proof.
  destruct (@paused_or_cancelled_campaign_sends_nothing
              (failing []) default_environment "k1" (campaign_world 3)
              running_campaign) as [H _].
  - reflexivity.
  - eexists. split; [reflexivity | split; reflexivity].
  - destruct (H (or_introl eq_refl)) as (w' & H1 & _ & _ & H4).
    exists w'. split; [exact H1 | exact H4].
Defined.

(** X11: [resumeCampaign] starts [processCampaign] whether or not the
    campaign was paused.  On a campaign that has no pending message, for
    instance a draft or a campaign that is still scheduled, the run that
    it starts sends nothing and ends with the status [completed]; only a
    cancelled campaign is left alone. *)
Theorem resumeCampaign_runs_whatever_the_status
  (col : Collaborators) (env : Config.Environment) (campaignId : string)
  (w : World) (c : Campaign) :
  find_campaign (db w) campaignId = Some c ->
  workspace_ready (db w) c ->
  cp_status c <> Cancelled ->
  pending_of campaignId (db w) = [] ->
  exists w',
    (resumeCampaign campaignId ;;; processCampaign col env campaignId) w
    = (Normal RunCompleted, w')
    /\ history w'
       = (history w ++ [EvLaunchProcess campaignId;
                        EvCampaignStatus campaignId Completed])%list
    /\ messages (db w') = messages (db w)
    /\ exists c',
         find_campaign (db w') campaignId = Some c'
         /\ cp_status c' = Completed
         /\ cp_completed_at c' = Some (clock w).
Proof.
  intros Hc (ws & Hws & Hphone & Htoken) Hst Hp.
  set (c1 := if status_in [Paused] c
             then with_status Processing None None c else c).
  set (d1 := update_campaign_in campaignId [Paused]
               (with_status Processing None None) (db w)).
  assert (Hf : find_campaign d1 campaignId = Some c1).
  { unfold d1. rewrite find_campaign_update_in by reflexivity.
    now rewrite Hc. }
  assert (Hws1 : find_workspace d1 (cp_workspace_id c1) = Some ws).
  { unfold c1. destruct (status_in [Paused] c); exact Hws. }
  assert (Hact : active (cp_status c1)).
  { unfold c1, status_in.
    destruct (cp_status c) eqn:E; cbn; rewrite ?E; split; congruence. }
  eexists. split.
  - unfold resumeCampaign, update_db, emit, modify. unfold bind at 1 2.
    fold d1. unfold processCampaign, tryCatch. rewrite bind_get.
    cbn [db]. rewrite Hf, Hws1, Hphone, Htoken.
    cbn [negb orb processLoop]. unfold bind at 1. rewrite bind_get.
    cbn [db]. rewrite Hf. rewrite (active_branch _ _ _ Hact).
    change (pending_of campaignId d1) with (pending_of campaignId (db w)).
    rewrite Hp. cbn [firstn]. reflexivity.
  - cbn [db trace]. split; [| split].
    + unfold history. cbn [trace rev]. now rewrite <- app_assoc.
    + reflexivity.
    + rewrite find_campaign_update by reflexivity. rewrite Hf. cbn.
      eexists. repeat split.
Qed.

Lemma resumeCampaign_runs_whatever_the_status_witness :
  exists w' c',
    (resumeCampaign "k1" ;;; processCampaign (failing []) default_environment
                               "k1")
      (one_contact_world [] Scheduled (Some 5000%Z))
    = (Normal RunCompleted, w')
    /\ find_campaign (db w') "k1" = Some c'
    /\ cp_status c' = Completed.
Proof.
  destruct (@resumeCampaign_runs_whatever_the_status
              (failing []) default_environment "k1"
              (one_contact_world [] Scheduled (Some 5000%Z))
              {| cp_id := "k1"; cp_workspace_id := "w1";
                 cp_message_content := "Hello {{name}}";
                 cp_target_type := TargetAll; cp_target_filters := None;
                 cp_scheduled_at := Some 5000%Z; cp_status := Scheduled;
                 cp_rate_limit := Some 10%Z; cp_total_recipients := 0;
                 cp_sent_count := 0; cp_failed_count := 0;
                 cp_started_at := None; cp_completed_at := None |})
    as (w' & H1 & _ & _ & c' & H2 & H3 & _).
  - reflexivity.
  - eexists. split; [reflexivity | split; reflexivity].
  - discriminate.
  - reflexivity.
  - exists w', c'. auto.
Defined.


(** ** [startCampaign], case by case *)

Lemma not_later_test (t : Z) (c : Campaign) :
  not_later t c ->
  match cp_scheduled_at c with
  | Some at_ => (t <? at_)%Z
  | None => false
  end = false.
Proof.
  unfold not_later. intros H.
  destruct (cp_scheduled_at c) as [at_|]; [| reflexivity].
  apply Z.ltb_ge. now apply H.
Qed.

Lemma startCampaign_result (campaignId : string) (w : World) (c : Campaign) :
  find_campaign (db w) campaignId = Some c ->
  not_later (clock w) c ->
  let targets := getTargetContacts c (db w) in
  let t := clock w in
  let d1 := update_campaign campaignId
              (with_status Processing (Some t) None) (db w) in
  let d2 := update_campaign campaignId
              (with_total (List.length targets)) d1 in
  startCampaign campaignId w
  = match targets with
    | [] =>
        (Normal false,
         {| db := update_campaign campaignId
                    (with_status Failed None (Some t)) d1;
            clock := t;
            trace := EvCampaignStatus campaignId Failed
                     :: EvCampaignStatus campaignId Processing :: trace w |})
    | _ :: _ =>
        match build_messages c (next_message_id (db w)) targets with
        | Normal msgs =>
            (Normal true,
             {| db := set_messages d2 (messages (db w) ++ msgs)%list;
                clock := t;
                trace := EvLaunchProcess campaignId
                         :: EvInsertMessages campaignId (List.length msgs)
                         :: EvTotalRecipients campaignId (List.length targets)
                         :: EvCampaignStatus campaignId Processing
                         :: trace w |})
        | Throw _ =>
            (Normal false,
             {| db := update_campaign campaignId
                        (with_status Failed None (Some t)) d2;
                clock := t;
                trace := EvCampaignStatus campaignId Failed
                         :: EvTotalRecipients campaignId (List.length targets)
                         :: EvCampaignStatus campaignId Processing
                         :: trace w |})
        | Unmodelled =>
            (Unmodelled,
             {| db := d2;
                clock := t;
                trace := EvTotalRecipients campaignId (List.length targets)
                         :: EvCampaignStatus campaignId Processing
                         :: trace w |})
        end
    end.
Proof.
  intros Hc Hs. cbv zeta.
  unfold startCampaign, tryCatch, bind, get, now, set_status, update_db, emit,
    modify, throw, ret, lift. simpl.
  rewrite Hc. simpl. rewrite (not_later_test Hs). simpl.
  rewrite getTargetContacts_update_campaign.
  set (T := getTargetContacts c (db w)). clearbody T.
  destruct T as [|x T]; [reflexivity |].
  cbn [List.length Nat.eqb]. cbv beta iota. cbn [db clock trace].
  change (next_message_id _) with (next_message_id (db w)).
  destruct (build_messages c (next_message_id (db w)) (x :: T));
    reflexivity.
Qed.


(** ** The rows of a campaign that starts *)

Lemma next_message_id_fresh (d : Db) (m : BroadcastMessage) :
  In m (messages d) -> bm_id m < next_message_id d.
Proof.
  unfold next_message_id. induction (messages d) as [|x ms IH]; simpl;
    [contradiction |].
  intros [<- | H]; [lia |]. specialize (IH H). lia.
Qed.

Lemma build_messages_all (campaign : Campaign) :
  forall (cs : list Contact) (next : nat),
    (forall c, In c cs ->
       exists s, interpolateContactVariables (cp_message_content campaign) c
                 = Normal s) ->
    exists msgs,
      build_messages campaign next cs = Normal msgs
      /\ Forall2 (row_for campaign) cs msgs
      /\ map bm_id msgs = seq next (List.length cs).
Proof.
  induction cs as [|c cs IH]; intros next Hok; cbn [build_messages].
  - exists []. repeat split. constructor.
  - destruct (Hok c (or_introl eq_refl)) as (s & Hs).
    destruct (IH (S next) (fun x Hx => Hok x (or_intror Hx)))
      as (msgs & Hb & Hrows & Hids).
    rewrite Hs, Hb. cbn [bindC]. eexists. split; [reflexivity |].
    split; [| cbn; now rewrite Hids].
    constructor; [| exact Hrows]. unfold row_for. cbn. auto.
Qed.

Lemma build_messages_throw (campaign : Campaign) (x : Contact) (e : string)
  (post : list Contact) :
  interpolateContactVariables (cp_message_content campaign) x = Throw e ->
  forall (pre : list Contact) (next : nat),
    (forall c, In c pre ->
       exists s, interpolateContactVariables (cp_message_content campaign) c
                 = Normal s) ->
    build_messages campaign next (pre ++ x :: post) = Throw e.
Proof.
  intros Hx. induction pre as [|c pre IH]; intros next Hok;
    cbn [app build_messages].
  - now rewrite Hx.
  - destruct (Hok c (or_introl eq_refl)) as (s & Hs). rewrite Hs.
    cbn [bindC]. now rewrite (IH (S next) (fun y Hy => Hok y (or_intror Hy))).
Qed.

(** X5: when the template can be filled in for every recipient,
    [startCampaign] adds exactly one pending row for each eligible
    contact, in the order of the query and with keys that are new, so
    that unique keys stay unique; [total_recipients] is their number,
    the campaign is left [processing] and [processCampaign] is started. *)
Theorem startCampaign_one_row_per_recipient
  (campaignId : string) (w : World) (c : Campaign) :
  find_campaign (db w) campaignId = Some c ->
  not_later (clock w) c ->
  getTargetContacts c (db w) <> [] ->
  (forall x, In x (getTargetContacts c (db w)) ->
     exists s, interpolateContactVariables (cp_message_content c) x
               = Normal s) ->
  let w' := snd (startCampaign campaignId w) in
  let n := List.length (getTargetContacts c (db w)) in
  exists created,
    fst (startCampaign campaignId w) = Normal true
    /\ messages (db w') = (messages (db w) ++ created)%list
    /\ Forall2 (row_for c) (getTargetContacts c (db w)) created
    /\ (NoDup (map bm_id (messages (db w))) ->
        NoDup (map bm_id (messages (db w'))))
    /\ history w'
       = (history w ++ [EvCampaignStatus campaignId Processing;
                        EvTotalRecipients campaignId n;
                        EvInsertMessages campaignId n;
                        EvLaunchProcess campaignId])%list
    /\ exists c',
         find_campaign (db w') campaignId = Some c'
         /\ cp_status c' = Processing
         /\ cp_started_at c' = Some (clock w)
         /\ cp_total_recipients c' = n.
Proof.
  intros Hc Hs Hne Hok. cbv zeta.
  rewrite (@startCampaign_result campaignId w c Hc Hs). cbv zeta.
  destruct (build_messages_all c (getTargetContacts c (db w))
              (next_message_id (db w)) Hok) as (msgs & Hb & Hrows & Hids).
  rewrite Hb.
  destruct (getTargetContacts c (db w)) as [|x T] eqn:HT;
    [now destruct Hne |].
  cbn [fst snd db messages set_messages].
  exists msgs. split; [reflexivity | split; [reflexivity |]].
  split; [exact Hrows | split; [| split]].
  - intros Hnd. rewrite map_app. apply NoDup_app.
    + exact Hnd.
    + rewrite Hids. apply seq_NoDup.
    + intros i Hi Hi'. rewrite Hids in Hi'. apply in_seq in Hi'.
      apply in_map_iff in Hi. destruct Hi as (m & <- & Hm).
      apply next_message_id_fresh in Hm. lia.
  - unfold history. cbn [trace rev].
    rewrite (Forall2_length Hrows). rewrite <- !app_assoc. reflexivity.
  - match goal with
    | |- context [find_campaign (set_messages ?d ?ms) campaignId] =>
        change (find_campaign (set_messages d ms) campaignId)
          with (find_campaign d campaignId)
    end.
    rewrite !find_campaign_update by reflexivity.
    rewrite Hc. cbn. eexists. repeat split.
Qed.


Lemma startCampaign_one_row_per_recipient_witness :
  exists created,
    fst (startCampaign "k1" (one_contact_world [] Draft None)) = Normal true
    /\ messages (db (snd (startCampaign "k1"
                            (one_contact_world [] Draft None))))
       = created
    /\ map bm_message_content created = ["Hello Sam"].
Proof.
  destruct (@startCampaign_one_row_per_recipient "k1"
              (one_contact_world [] Draft None)
              {| cp_id := "k1"; cp_workspace_id := "w1";
                 cp_message_content := "Hello {{name}}";
                 cp_target_type := TargetAll; cp_target_filters := None;
                 cp_scheduled_at := None; cp_status := Draft;
                 cp_rate_limit := Some 10%Z; cp_total_recipients := 0;
                 cp_sent_count := 0; cp_failed_count := 0;
                 cp_started_at := None; cp_completed_at := None |})
    as (created & H1 & H2 & _).
  - reflexivity.
  - intros at_ H. discriminate H.
  - discriminate.
  - intros x [<- | []]. eexists. vm_compute. reflexivity.
  - exists created. split; [exact H1 |]. split; [exact H2 |].
    cbv zeta in H2. vm_compute in H2. subst created. reflexivity.
Defined.

(** X6: the template is filled in for all the recipients before any row
    is written.  If this throws for one of them, which it does when a
    key of the custom fields of the contact does not compile as a
    pattern, the whole campaign ends [failed]: no row is added, for this
    contact or for any other, and [processCampaign] is not started. *)
Theorem one_bad_field_key_fails_the_campaign
  (campaignId : string) (w : World) (c : Campaign)
  (pre post : list Contact) (x : Contact) (e : string) :
  find_campaign (db w) campaignId = Some c ->
  not_later (clock w) c ->
  getTargetContacts c (db w) = (pre ++ x :: post)%list ->
  (forall y, In y pre ->
     exists s, interpolateContactVariables (cp_message_content c) y
               = Normal s) ->
  interpolateContactVariables (cp_message_content c) x = Throw e ->
  let w' := snd (startCampaign campaignId w) in
  let n := List.length (getTargetContacts c (db w)) in
  fst (startCampaign campaignId w) = Normal false
  /\ messages (db w') = messages (db w)
  /\ history w'
     = (history w ++ [EvCampaignStatus campaignId Processing;
                      EvTotalRecipients campaignId n;
                      EvCampaignStatus campaignId Failed])%list
  /\ exists c',
       find_campaign (db w') campaignId = Some c'
       /\ cp_status c' = Failed
       /\ cp_completed_at c' = Some (clock w)
       /\ cp_total_recipients c' = n.
Proof.
  intros Hc Hs HT Hok Hx. cbv zeta.
  rewrite (@startCampaign_result campaignId w c Hc Hs). cbv zeta.
  rewrite HT.
  rewrite (@build_messages_throw c x e post Hx pre (next_message_id (db w))
             Hok).
  destruct pre; cbn [app fst snd db messages];
    (split; [reflexivity | split; [reflexivity | split]];
     [unfold history; cbn [trace rev]; rewrite <- !app_assoc; reflexivity
     | rewrite !find_campaign_update by reflexivity; rewrite Hc; cbn;
       eexists; repeat split]).
Qed.

Lemma one_bad_field_key_fails_the_campaign_witness :
  fst (startCampaign "k1"
         (one_contact_world [(")", VStr "x")] Draft None))
  = Normal false
  /\ messages (db (snd (startCampaign "k1"
                          (one_contact_world [(")", VStr "x")] Draft None))))
     = [].
Proof.
  destruct (@one_bad_field_key_fails_the_campaign "k1"
              (one_contact_world [(")", VStr "x")] Draft None)
              {| cp_id := "k1"; cp_workspace_id := "w1";
                 cp_message_content := "Hello {{name}}";
                 cp_target_type := TargetAll; cp_target_filters := None;
                 cp_scheduled_at := None; cp_status := Draft;
                 cp_rate_limit := Some 10%Z; cp_total_recipients := 0;
                 cp_sent_count := 0; cp_failed_count := 0;
                 cp_started_at := None; cp_completed_at := None |}
              [] []
              {| c_id := "c1"; c_workspace_id := "w1";
                 c_phone := "+33612345678";
                 c_name := Some "Sam"; c_email := None;
                 c_custom_fields := [(")", VStr "x")]; c_tags := [];
                 c_whatsapp_verified := Some true;
                 c_opted_in := Some true |}
              "Invalid regular expression")
    as (H1 & H2 & _).
  - reflexivity.
  - intros at_ H. discriminate H.
  - reflexivity.
  - intros y [].
  - vm_compute. reflexivity.
  - split; [exact H1 | exact H2].
Defined.


(** ** The scheduler and the campaigns that are due *)

Lemma test_not_later (t : Z) (c : Campaign) :
  match cp_scheduled_at c with
  | Some at_ => (t <? at_)%Z
  | None => false
  end = false ->
  not_later t c.
Proof.
  intros H at_ E. rewrite E in H. now apply Z.ltb_ge.
Qed.

Lemma map_if_same {A : Type} (p : A -> bool) (l : list A) :
  map (fun c => if p c then c else c) l = l.
Proof.
  induction l as [|x l IH]; cbn; [reflexivity |].
  rewrite IH. now destruct (p x).
Qed.

(** What a call of [startCampaign] does to [broadcast_campaigns]: it
    rewrites the rows of its campaign and no other, and does not
    throw. *)
Lemma startCampaign_shape (campaignId : string) (w : World) :
  exists F : Campaign -> Campaign,
    (forall c, cp_id (F c) = cp_id c)
    /\ campaigns (db (snd (startCampaign campaignId w)))
       = map (fun c => if String.eqb (cp_id c) campaignId then F c else c)
           (campaigns (db w))
    /\ clock (snd (startCampaign campaignId w)) = clock w
    /\ (forall e, fst (startCampaign campaignId w) <> Throw e)
    /\ (forall c0, find_campaign (db w) campaignId = Some c0 ->
                   not_later (clock w) c0 ->
                   forall c, started (F c)).
Proof.
  destruct (find_campaign (db w) campaignId) as [c0|] eqn:Hc.
  - destruct (match cp_scheduled_at c0 with
              | Some at_ => (clock w <? at_)%Z
              | None => false
              end) eqn:Hs.
    + exists (fun c => c).
      assert (Hrun : startCampaign campaignId w = (Normal false, w)).
      { unfold startCampaign, tryCatch, bind, get, now, ret. simpl.
        rewrite Hc. simpl. rewrite Hs. now destruct w. }
      rewrite Hrun. cbn [fst snd].
      split; [reflexivity | split; [now rewrite map_if_same |]].
      split; [reflexivity | split; [discriminate |]].
      intros c1 H1 Hn. inversion H1; subst c1.
      rewrite (not_later_test Hn) in Hs. discriminate.
    + apply test_not_later in Hs.
      rewrite (@startCampaign_result campaignId w c0 Hc Hs). cbv zeta.
      destruct (getTargetContacts c0 (db w)) as [|x T].
      * exists (fun c => with_status Failed None (Some (clock w))
                           (with_status Processing (Some (clock w)) None c)).
        cbn [fst snd db clock campaigns update_campaign set_campaigns].
        split; [reflexivity | split].
        { rewrite map_map. apply map_ext. intros y.
          destruct (String.eqb (cp_id y) campaignId) eqn:E; cbn;
            now rewrite E. }
        split; [reflexivity | split; [discriminate |]].
        intros _ _ _ c. now right.
      * destruct (build_messages c0 (next_message_id (db w)) (x :: T))
          as [msgs|err|].
        -- exists (fun c => with_total (List.length (x :: T))
                              (with_status Processing (Some (clock w)) None c)).
           cbn [fst snd db clock campaigns update_campaign set_campaigns
                  set_messages].
           split; [reflexivity | split].
           { rewrite map_map. apply map_ext. intros y.
             destruct (String.eqb (cp_id y) campaignId) eqn:E; cbn;
               now rewrite E. }
           split; [reflexivity | split; [discriminate |]].
           intros _ _ _ c. now left.
        -- exists (fun c => with_status Failed None (Some (clock w))
                              (with_total (List.length (x :: T))
                                 (with_status Processing (Some (clock w))
                                    None c))).
           cbn [fst snd db clock campaigns update_campaign set_campaigns].
           split; [reflexivity | split].
           { rewrite !map_map. apply map_ext. intros y.
             destruct (String.eqb (cp_id y) campaignId) eqn:E; cbn;
               rewrite ?E; cbn; now rewrite ?E. }
           split; [reflexivity | split; [discriminate |]].
           intros _ _ _ c. now right.
        -- exists (fun c => with_total (List.length (x :: T))
                              (with_status Processing (Some (clock w)) None c)).
           cbn [fst snd db clock campaigns update_campaign set_campaigns].
           split; [reflexivity | split].
           { rewrite map_map. apply map_ext. intros y.
             destruct (String.eqb (cp_id y) campaignId) eqn:E; cbn;
               now rewrite E. }
           split; [reflexivity | split; [discriminate |]].
           intros _ _ _ c. now left.
  - exists (with_status Failed None (Some (clock w))).
    assert (Hrun :
      startCampaign campaignId w
      = (Normal false,
         {| db := update_campaign campaignId
                    (with_status Failed None (Some (clock w))) (db w);
            clock := clock w;
            trace := EvCampaignStatus campaignId Failed :: trace w |})).
    { unfold startCampaign, tryCatch, bind, get, now, set_status, update_db,
        emit, modify, throw, ret. simpl. rewrite Hc. reflexivity. }
    rewrite Hrun. cbn [fst snd db clock].
    split; [reflexivity | split; [reflexivity |]].
    split; [reflexivity | split; [discriminate |]].
    intros c1 H1. discriminate H1.
Qed.

Lemma unique_id_same_campaign (cs : list Campaign) (a b : Campaign) :
  NoDup (map cp_id cs) -> In a cs -> In b cs -> cp_id a = cp_id b -> a = b.
Proof.
  induction cs as [|x cs IH]; simpl; intros Hnd Ha Hb Heq; [contradiction |].
  inversion Hnd as [|? ? Hx Hnd']; subst.
  destruct Ha as [<- | Ha], Hb as [<- | Hb]; auto.
  - exfalso. apply Hx. rewrite Heq. now apply in_map.
  - exfalso. apply Hx. rewrite <- Heq. now apply in_map.
Qed.

Lemma find_campaign_unique (d : Db) (c : Campaign) :
  NoDup (map cp_id (campaigns d)) ->
  In c (campaigns d) ->
  find_campaign d (cp_id c) = Some c.
Proof.
  intros Hnd Hin. unfold find_campaign.
  destruct (find (fun x => String.eqb (cp_id x) (cp_id c)) (campaigns d))
    as [x|] eqn:E.
  - apply find_some in E. destruct E as [Hx E]. apply String.eqb_eq in E.
    f_equal. now apply (unique_id_same_campaign (campaigns d)).
  - apply (find_none _ _ E) in Hin. now rewrite String.eqb_refl in Hin.
Qed.

Lemma insert_by_schedule_perm (c : Campaign) (l : list Campaign) :
  Permutation (c :: l) (insert_by_schedule c l).
Proof.
  induction l as [|x l IH]; cbn; [reflexivity |].
  destruct (cp_scheduled_at c) as [a|], (cp_scheduled_at x) as [b|];
    try (rewrite perm_swap; now apply perm_skip).
  destruct (a <? b)%Z; [reflexivity |].
  rewrite perm_swap. now apply perm_skip.
Qed.

Lemma order_by_schedule_perm (l : list Campaign) :
  Permutation l (order_by_schedule l).
Proof.
  induction l as [|x l IH]; cbn; [reflexivity |].
  rewrite <- insert_by_schedule_perm. now apply perm_skip.
Qed.

Lemma filter_ids_unique (p : Campaign -> bool) (l : list Campaign) :
  NoDup (map cp_id l) -> NoDup (map cp_id (filter p l)).
Proof.
  induction l as [|x l IH]; cbn; intros H; [constructor |].
  inversion H as [|? ? Hx Hl]; subst.
  destruct (p x); cbn; [| now apply IH].
  constructor; [| now apply IH].
  intros Hin. apply Hx. apply in_map_iff in Hin.
  destruct Hin as (y & Hy & Hin). apply filter_In in Hin.
  rewrite <- Hy. apply in_map. tauto.
Qed.

(** The loop over the campaigns that are due. *)
Lemma startEach_spec :
  forall (L : list string) (w : World),
    NoDup L ->
    NoDup (map cp_id (campaigns (db w))) ->
    (forall i, In i L ->
       exists c, In c (campaigns (db w)) /\ cp_id c = i
                 /\ not_later (clock w) c) ->
    let r := startEach L w in
    (forall e, fst r <> Throw e)
    /\ clock (snd r) = clock w
    /\ map cp_id (campaigns (db (snd r))) = map cp_id (campaigns (db w))
    /\ (forall c, In c (campaigns (db w)) -> ~ In (cp_id c) L ->
                  In c (campaigns (db (snd r))))
    /\ (fst r = Normal tt ->
        forall c', In c' (campaigns (db (snd r))) -> In (cp_id c') L ->
                   started c').
Proof.
  induction L as [|i L IH]; intros w HL Hnd Hdue; cbv zeta.
  - cbn. repeat split; auto; try discriminate. intros _ c' _ [].
  - inversion HL as [|? ? Hi HL']; subst.
    destruct (startCampaign_shape i w) as (F & HF & Hmap & Hclock & Hno & Hst).
    destruct (Hdue i (or_introl eq_refl)) as (c0 & Hc0 & Hid0 & Hn0).
    assert (Hfind : find_campaign (db w) i = Some c0).
    { rewrite <- Hid0. now apply find_campaign_unique. }
    specialize (Hst c0 Hfind Hn0).
    destruct (startCampaign i w) as [r1 w1] eqn:E1. cbn [fst snd] in *.
    assert (Hids1 : map cp_id (campaigns (db w1)) = map cp_id (campaigns (db w))).
    { rewrite Hmap, map_map. apply map_ext. intros a.
      destruct (String.eqb (cp_id a) i); [apply HF | reflexivity]. }
    assert (Hkeep1 : forall c, In c (campaigns (db w)) -> cp_id c <> i ->
                               In c (campaigns (db w1))).
    { intros c Hc Hne. rewrite Hmap. apply in_map_iff. exists c.
      split; [| exact Hc]. apply String.eqb_neq in Hne. now rewrite Hne. }
    assert (Hdue1 : forall j, In j L ->
              exists c, In c (campaigns (db w1)) /\ cp_id c = j
                        /\ not_later (clock w1) c).
    { intros j Hj. destruct (Hdue j (or_intror Hj)) as (c & Hc & Hid & Hn).
      exists c. split; [| split; [exact Hid | now rewrite Hclock]].
      apply Hkeep1; [exact Hc |]. intros Heq. apply Hi. congruence. }
    assert (Hnd1 : NoDup (map cp_id (campaigns (db w1))))
      by now rewrite Hids1.
    destruct (IH w1 HL' Hnd1 Hdue1) as (Hthrow & Hclk & Hids & Hkeep & Hstart).
    assert (Hrun : startEach (i :: L) w
                   = match r1 with
                     | Normal _ => startEach L w1
                     | Throw e => (Throw e, w1)
                     | Unmodelled => (Unmodelled, w1)
                     end).
    { cbn [startEach]. unfold bind at 1. unfold tryCatch.
      unfold bind at 1. rewrite E1.
      destruct r1 as [b|e|]; [reflexivity | now destruct (Hno e) |
                              reflexivity]. }
    rewrite Hrun.
    assert (Hstarted1 : forall c', In c' (campaigns (db w1)) -> cp_id c' = i ->
                                   started c').
    { intros c' Hc' Hid'. rewrite Hmap in Hc'. apply in_map_iff in Hc'.
      destruct Hc' as (a & <- & Ha).
      destruct (String.eqb (cp_id a) i) eqn:Ea; [apply Hst |].
      apply String.eqb_neq in Ea. contradiction. }
    destruct r1 as [b|e|]; [| now destruct (Hno e) |].
    + split; [exact Hthrow | split; [congruence | split; [congruence |]]].
      split.
      * intros c Hc Hnot. apply Hkeep.
        -- apply Hkeep1; [exact Hc |]. intros Heq. apply Hnot. now left.
        -- intros Hin. apply Hnot. now right.
      * intros Hok c' Hc' [Hid | Hin]; [| now apply Hstart].
        assert (Hin1 : In (cp_id c') (map cp_id (campaigns (db w1)))).
        { rewrite <- Hids. now apply in_map. }
        apply in_map_iff in Hin1. destruct Hin1 as (a & Ha & Hain).
        assert (Haf : In a (campaigns (db (snd (startEach L w1))))).
        { apply Hkeep; [exact Hain |]. rewrite Ha, <- Hid. exact Hi. }
        assert (a = c').
        { apply (unique_id_same_campaign
                   (campaigns (db (snd (startEach L w1))))); auto.
          now rewrite Hids. }
        subst a. apply Hstarted1; [exact Hain | now symmetry].
    + cbn [fst snd].
      split; [discriminate | split; [exact Hclock | split; [exact Hids1 |]]].
      split; [| discriminate].
      intros c Hc Hnot. apply Hkeep1; [exact Hc |].
      intros Heq. apply Hnot. now left.
Qed.


Lemma due_campaign_spec (t : Z) (c : Campaign) :
  due_campaign t c = true ->
  cp_status c = Scheduled /\ not_later t c.
Proof.
  unfold due_campaign, is_scheduled, not_later. intros H.
  apply andb_prop in H. destruct H as [H1 H2]. split.
  - destruct (cp_status c); congruence || reflexivity.
  - intros at_ E. rewrite E in H2. now apply Z.leb_le.
Qed.

Lemma started_not_due (t : Z) (c : Campaign) :
  started c -> due_campaign t c = false.
Proof.
  unfold started, due_campaign, is_scheduled. now intros [-> | ->].
Qed.

Lemma filter_none {A : Type} (p : A -> bool) (l : list A) :
  (forall x, In x l -> p x = false) -> filter p l = [].
Proof.
  induction l as [|x l IH]; cbn; intros H; [reflexivity |].
  rewrite (H x (or_introl eq_refl)). apply IH. intros y Hy. apply H.
  now right.
Qed.

(** X12: a tick of [checkScheduledBroadcasts] that returns has started
    every campaign that was scheduled and due, and those only: a
    campaign that is not scheduled, or is scheduled for later, keeps its
    row, and each campaign that was due is left [processing] or
    [failed], neither of which is due at any later time.  A second tick
    at the same instant finds nothing to start and changes nothing. *)
Theorem scheduler_starts_each_due_campaign_once (w : World) :
  NoDup (map cp_id (campaigns (db w))) ->
  fst (checkScheduledBroadcasts w) = Normal tt ->
  let w' := snd (checkScheduledBroadcasts w) in
  (forall c, In c (campaigns (db w)) -> due_campaign (clock w) c = false ->
             In c (campaigns (db w')))
  /\ (forall c, In c (campaigns (db w)) -> due_campaign (clock w) c = true ->
        exists c', In c' (campaigns (db w'))
                   /\ cp_id c' = cp_id c /\ started c')
  /\ checkScheduledBroadcasts w' = (Normal tt, w').
Proof.
  intros Hnd Hok.
  set (D := filter (due_campaign (clock w)) (campaigns (db w))).
  set (L := map cp_id (order_by_schedule D)).
  assert (HinL : forall i, In i L <-> exists c, In c D /\ cp_id c = i).
  { intros i. unfold L. rewrite in_map_iff. split; intros (c & H1 & H2).
    - exists c. split; [| exact H1].
      now apply (Permutation_in _ (Permutation_sym (order_by_schedule_perm D))).
    - exists c. split; [exact H2 |].
      now apply (Permutation_in _ (order_by_schedule_perm D)). }
  assert (HL : NoDup L).
  { unfold L.
    apply (Permutation_NoDup
             (Permutation_map cp_id (order_by_schedule_perm D))).
    now apply filter_ids_unique. }
  assert (Hdue : forall i, In i L ->
            exists c, In c (campaigns (db w)) /\ cp_id c = i
                      /\ not_later (clock w) c).
  { intros i Hi. apply HinL in Hi. destruct Hi as (c & Hc & Hid).
    apply filter_In in Hc. destruct Hc as [Hc Hd].
    exists c. split; [exact Hc | split; [exact Hid |]].
    now apply due_campaign_spec in Hd. }
  destruct (@startEach_spec L w HL Hnd Hdue)
    as (Hthrow & Hclk & Hids & Hkeep & Hstart).
  assert (Hrun : checkScheduledBroadcasts w = startEach L w).
  { unfold checkScheduledBroadcasts, tryCatch, bind, now, get.
    fold D. fold L.
    destruct (startEach L w) as [[u|e|] w1] eqn:E; try reflexivity.
    now destruct (Hthrow e). }
  rewrite Hrun in *. cbv zeta.
  assert (Hsame : forall c, In c (campaigns (db w)) ->
                    In (cp_id c) L -> due_campaign (clock w) c = true).
  { intros c Hc Hi. apply HinL in Hi. destruct Hi as (a & Ha & Hid).
    apply filter_In in Ha. destruct Ha as [Ha Hd].
    assert (a = c) by now apply (unique_id_same_campaign (campaigns (db w))).
    now subst a. }
  assert (H1 : forall c, In c (campaigns (db w)) ->
                 due_campaign (clock w) c = false ->
                 In c (campaigns (db (snd (startEach L w))))).
  { intros c Hc Hd. apply Hkeep; [exact Hc |].
    intros Hi. rewrite (Hsame c Hc Hi) in Hd. discriminate. }
  split; [exact H1 | split].
  - intros c Hc Hd.
    assert (Hi : In (cp_id c) L).
    { apply HinL. exists c. split; [| reflexivity].
      apply filter_In. now split. }
    assert (Hin : In (cp_id c) (map cp_id (campaigns (db (snd (startEach L w)))))).
    { rewrite Hids. now apply in_map. }
    apply in_map_iff in Hin. destruct Hin as (c' & Hid & Hc').
    exists c'. split; [exact Hc' | split; [exact Hid |]].
    apply (Hstart Hok c' Hc'). now rewrite Hid.
  - assert (Hnone : forall c', In c' (campaigns (db (snd (startEach L w)))) ->
                      due_campaign (clock (snd (startEach L w))) c' = false).
    { intros c' Hc'. rewrite Hclk.
      destruct (in_dec string_dec (cp_id c') L) as [Hi | Hi].
      - apply started_not_due. now apply (Hstart Hok).
      - assert (Hin : In (cp_id c') (map cp_id (campaigns (db w)))).
        { rewrite <- Hids. now apply in_map. }
        apply in_map_iff in Hin. destruct Hin as (a & Hid & Ha).
        assert (Haf : In a (campaigns (db (snd (startEach L w))))).
        { apply Hkeep; [exact Ha | now rewrite Hid]. }
        assert (a = c').
        { apply (unique_id_same_campaign
                   (campaigns (db (snd (startEach L w))))); auto.
          now rewrite Hids. }
        subst a.
        destruct (due_campaign (clock w) c') eqn:Hd; [| reflexivity].
        exfalso. apply Hi. apply HinL. exists c'. split; [| reflexivity].
        apply filter_In. now split. }
    unfold checkScheduledBroadcasts, tryCatch, bind, now, get.
    rewrite (filter_none _ _ Hnone). reflexivity.
Qed.

Lemma scheduler_starts_each_due_campaign_once_witness :
  checkScheduledBroadcasts
    (snd (checkScheduledBroadcasts
            (one_contact_world [] Scheduled (Some 500%Z))))
  = (Normal tt,
     snd (checkScheduledBroadcasts
            (one_contact_world [] Scheduled (Some 500%Z)))).
Proof.
  apply (@scheduler_starts_each_due_campaign_once
           (one_contact_world [] Scheduled (Some 500%Z))).
  - cbn. repeat constructor. intros [].
  - vm_compute. reflexivity.
Defined.


(** ** [withRetry] *)

Lemma sleep_seconds (z : Z) (w : World) :
  (1 <= z)%Z ->
  sleep (inject_Z z) w
  = (Normal tt,
     {| db := db w; clock := clock w + z;
        trace := EvSleep (inject_Z z) :: trace w |}).
Proof.
  intros Hz. unfold sleep, emit, modify, bind. cbn [db clock trace].
  rewrite Qfloor_Z. now rewrite Z.max_r by lia.
Qed.

Lemma pow2_succ (i : nat) :
  (2 ^ Z.of_nat (S i) = 2 * 2 ^ Z.of_nat i)%Z.
Proof. rewrite Nat2Z.inj_succ. apply Z.pow_succ_r. lia. Qed.

Lemma pow2_pos (i : nat) : (1 <= 2 ^ Z.of_nat i)%Z.
Proof.
  induction i as [|i IH]; [reflexivity |]. rewrite pow2_succ. lia.
Qed.

Section WithRetry.

Variable A : Type.
Variable fn : nat -> M World A.
Variable err : nat -> string.

Lemma withRetry_from_gives_up :
  forall (r i : nat) (lastError : string) (w : World),
    fails_before fn err (i + r) ->
    exists w',
      withRetry_from fn r i lastError w
      = (Throw (match r with
                | O => lastError
                | S r' => err (i + r')
                end), w')
      /\ clock w'
         = (clock w + (2 ^ Z.of_nat (i + r) - 2 ^ Z.of_nat i) * 1000)%Z.
Proof.
  induction r as [|r IH]; intros i lastError w Hf.
  - exists w. split; [reflexivity |]. rewrite Nat.add_0_r. lia.
  - cbn [withRetry_from]. unfold tryCatch.
    destruct (Hf i w) as (w1 & H1 & Hc1); [lia |]. rewrite H1.
    unfold bind at 1.
    rewrite sleep_seconds by (pose proof (pow2_pos i); lia).
    destruct (IH (S i) (err i)
                {| db := db w1;
                   clock := clock w1 + 2 ^ Z.of_nat i * 1000;
                   trace := EvSleep (inject_Z (2 ^ Z.of_nat i * 1000))
                            :: trace w1 |})
      as (w2 & H2 & Hc2).
    { intros j w0 Hj. apply Hf. lia. }
    exists w2. split.
    + rewrite H2. destruct r as [|r']; [now rewrite Nat.add_0_r |].
      now rewrite Nat.add_succ_r.
    + rewrite Hc2. cbn [clock]. rewrite Hc1.
      replace (S i + r) with (i + S r) by lia.
      rewrite (pow2_succ i). lia.
Qed.

Lemma withRetry_from_succeeds (a : A) :
  forall (r i k : nat) (lastError : string) (w : World),
    fails_before fn err (i + k) ->
    (forall w0, exists w', fn (i + k) w0 = (Normal a, w')
                           /\ clock w' = clock w0) ->
    k < r ->
    exists w',
      withRetry_from fn r i lastError w = (Normal a, w')
      /\ clock w'
         = (clock w + (2 ^ Z.of_nat (i + k) - 2 ^ Z.of_nat i) * 1000)%Z.
Proof.
  induction r as [|r IH]; intros i k lastError w Hf Hok Hk; [lia |].
  cbn [withRetry_from]. unfold tryCatch.
  destruct k as [|k].
  - rewrite Nat.add_0_r in *. destruct (Hok w) as (w1 & H1 & Hc1).
    rewrite H1. exists w1. split; [reflexivity |]. lia.
  - destruct (Hf i w) as (w1 & H1 & Hc1); [lia |]. rewrite H1.
    unfold bind at 1.
    rewrite sleep_seconds by (pose proof (pow2_pos i); lia).
    destruct (IH (S i) k (err i)
                {| db := db w1;
                   clock := clock w1 + 2 ^ Z.of_nat i * 1000;
                   trace := EvSleep (inject_Z (2 ^ Z.of_nat i * 1000))
                            :: trace w1 |})
      as (w2 & H2 & Hc2).
    { intros j w0 Hj. apply Hf. lia. }
    { intros w0. replace (S i + k) with (i + S k) by lia. apply Hok. }
    { lia. }
    exists w2. split; [exact H2 |].
    rewrite Hc2. cbn [clock]. rewrite Hc1.
    replace (S i + k) with (i + S k) by lia.
    rewrite (pow2_succ i). lia.
Qed.

(** X3: [withRetry(fn, n)] calls [fn] until it returns, at most [n]
    times, and waits 1 s, 2 s, 4 s, ... after each call that throws,
    also after the last one.  So when the [k]-th call is the first to
    return, the result comes [2^k - 1] seconds later; when all [n] calls
    throw, the error of the last one is thrown again after [2^n - 1]
    seconds; with [n = 0], [fn] is not called and [undefined] is thrown. *)
Theorem withRetry_waits_after_every_failed_attempt (n : nat) (w : World) :
  (forall (k : nat) (a : A),
      k < n ->
      fails_before fn err k ->
      (forall w0, exists w', fn k w0 = (Normal a, w')
                             /\ clock w' = clock w0) ->
      exists w',
        withRetry fn n w = (Normal a, w')
        /\ clock w' = (clock w + (2 ^ Z.of_nat k - 1) * 1000)%Z)
  /\ (fails_before fn err n ->
      exists w',
        withRetry fn n w
        = (Throw (match n with
                  | O => "undefined"
                  | S n' => err n'
                  end), w')
        /\ clock w' = (clock w + (2 ^ Z.of_nat n - 1) * 1000)%Z).
Proof.
  split.
  - intros k a Hk Hf Hok.
    destruct (@withRetry_from_succeeds a n 0 k "undefined" w Hf Hok Hk)
      as (w' & H1 & H2).
    exists w'. split; [exact H1 |]. rewrite H2. cbn [Nat.add Z.of_nat].
    change (2 ^ 0)%Z with 1%Z. reflexivity.
  - intros Hf.
    destruct (@withRetry_from_gives_up n 0 "undefined" w Hf)
      as (w' & H1 & H2).
    exists w'. split; [exact H1 |]. rewrite H2. cbn [Nat.add Z.of_nat].
    change (2 ^ 0)%Z with 1%Z. reflexivity.
Qed.

End WithRetry.

Lemma withRetry_waits_after_every_failed_attempt_witness :
  exists w',
    withRetry (sendText (failing [1]) (pending_message 1)) 3
      (campaign_world 1)
    = (Throw "Failed to send message", w')
    /\ clock w' = 7000%Z.
Proof.
  destruct (@withRetry_waits_after_every_failed_attempt
              unit (sendText (failing [1]) (pending_message 1))
              (fun _ => "Failed to send message") 3 (campaign_world 1))
    as [_ H].
  destruct H as (w' & H1 & H2).
  - intros i w _. eexists. split; reflexivity.
  - exists w'. split; [exact H1 | exact H2].
Defined.

(** ** The rate limit *)

(** X9: the rate limit of a run is never 0, so that [1000 / rateLimit]
    is a number: a [rate_limit] of the campaign that is null or 0 gives
    the default of the configuration, which is 10 when the variable of
    the environment is missing, does not parse or is 0. For a
    [rate_limit] between 1 and 100, the range that the route accepts,
    the wait after a message sent is between 10 ms and 1 s. *)
Theorem rate_limit_is_never_zero
  (env : Config.Environment) (c : Campaign) :
  rateLimit_of env c <> 0%Z
  /\ (forall r, cp_rate_limit c = Some r -> r <> 0%Z ->
                rateLimit_of env c = r)
  /\ (cp_rate_limit c = None \/ cp_rate_limit c = Some 0%Z ->
      rateLimit_of env c = Config.defaultRateLimit env)
  /\ (forall r, cp_rate_limit c = Some r -> (1 <= r <= 100)%Z ->
                (10 <= delayMs_of env c)%Q /\ (delayMs_of env c <= 1000)%Q).
Proof.
  assert (Hd : Config.defaultRateLimit env <> 0%Z).
  { unfold Config.defaultRateLimit, Config.or_default.
    destruct (Config.BROADCAST_DEFAULT_RATE_LIMIT env) as [n|];
      [| discriminate].
    destruct (n =? 0)%Z eqn:E; [discriminate | now apply Z.eqb_neq]. }
  assert (Hr : forall r, cp_rate_limit c = Some r -> r <> 0%Z ->
                         rateLimit_of env c = r).
  { intros r E Hne. unfold rateLimit_of, Config.or_default. rewrite E.
    apply Z.eqb_neq in Hne. now rewrite Hne. }
  split; [| split; [exact Hr | split]].
  - unfold rateLimit_of, Config.or_default.
    destruct (cp_rate_limit c) as [n|]; [| exact Hd].
    destruct (n =? 0)%Z eqn:E; [exact Hd | now apply Z.eqb_neq].
  - unfold rateLimit_of, Config.or_default. now intros [-> | ->].
  - intros r E Hrange. unfold delayMs_of. rewrite (Hr r E) by lia.
    destruct r as [|p|p]; try lia.
    unfold Qle, Qdiv, Qmult, Qinv, inject_Z. cbn. lia.
Qed.

Lemma rate_limit_is_never_zero_witness :
  (10 <= delayMs_of default_environment running_campaign)%Q
  /\ (delayMs_of default_environment running_campaign <= 1000)%Q.
Proof.
  apply (proj2 (proj2 (proj2 (rate_limit_is_never_zero
                                default_environment running_campaign)))
           10%Z).
  - reflexivity.
  - lia.
Defined.

End BroadcastMoreFacts.

Module TargetFacts.
Import Js Broadcast BroadcastSpec BroadcastRunSpec TargetSpec.

(** X4: a campaign that narrows its audience by nothing reaches every
    opted-in, verified contact of its workspace, whatever its target
    type: a campaign for named contacts that carries no list of them is
    sent to all, and so is a filtered campaign without tags and fields.
    A campaign for named contacts with an empty list reaches nobody. *)
Theorem campaign_without_filters_reaches_every_eligible_contact
  (campaign : Campaign) (d : Db) :
  (unfiltered campaign = true ->
   getTargetContacts campaign d = filter (base_query campaign) (contacts d))
  /\ (cp_target_type campaign = TargetSpecific ->
      (exists f, cp_target_filters campaign = Some f
                 /\ contact_ids f = Some []) ->
      getTargetContacts campaign d = []).
Proof.
  split.
  - intros Hu. unfold getTargetContacts. apply filter_ext. intros c.
    assert (Hs : specific_query campaign c = true).
    { unfold specific_query. unfold unfiltered in Hu.
      destruct (cp_target_type campaign); try reflexivity.
      destruct (cp_target_filters campaign) as [[ids tg cf]|];
        [| reflexivity].
      cbn [contact_ids] in Hu. now destruct ids. }
    assert (Hf : filtered_query campaign c = true).
    { unfold filtered_query. unfold unfiltered in Hu.
      destruct (cp_target_type campaign); try reflexivity.
      destruct (cp_target_filters campaign) as [[ids tg cf]|];
        [| reflexivity].
      cbn [tags custom_fields] in *.
      apply andb_prop in Hu. destruct Hu as [Ht Hc].
      destruct tg as [[|t ts]|]; try discriminate;
        (destruct cf as [o|]; [| reflexivity];
         destruct (entries o); [reflexivity | discriminate]). }
    now rewrite Hs, Hf, !andb_true_r.
  - intros Ht (f & Hf & Hids). unfold getTargetContacts.
    induction (contacts d) as [|c l IH]; [reflexivity |].
    cbn [filter]. rewrite IH.
    unfold specific_query. rewrite Ht, Hf. destruct f as [ids tg cf].
    cbn [contact_ids] in Hids. subst ids. cbn [mem_string existsb].
    now rewrite andb_false_r.
Qed.

Lemma campaign_without_filters_reaches_every_eligible_contact_witness :
  getTargetContacts listless_campaign
    (db (one_contact_world [] Draft None))
  = filter (base_query listless_campaign)
      (contacts (db (one_contact_world [] Draft None))).
Proof.
  apply (proj1 (campaign_without_filters_reaches_every_eligible_contact
                  listless_campaign
                  (db (one_contact_world [] Draft None)))).
  reflexivity.
Defined.

End TargetFacts.

Module UnconfiguredFacts.
Import Js WhatsApp Eff Broadcast BroadcastControl BroadcastSpec.
Import UnconfiguredSpec EffFacts BroadcastFacts BroadcastMoreFacts.
Local Open Scope eff_scope.

Lemma unconfigured_run (col : Collaborators) (env : Config.Environment)
  (campaignId : string) (w : World) (c : Campaign) (ws : Workspace) :
  find_campaign (db w) campaignId = Some c ->
  find_workspace (db w) (cp_workspace_id c) = Some ws ->
  configured (whatsapp_phone_number_id ws) = false
  \/ configured (whatsapp_access_token ws) = false ->
  processCampaign col env campaignId w
  = (Normal (RunFailed "WhatsApp not configured"),
     {| db := update_campaign campaignId
                (with_status Failed None (Some (clock w))) (db w);
        clock := clock w;
        trace := EvCampaignStatus campaignId Failed :: trace w |}).
Proof.
  intros Hc Hws Hno. unfold processCampaign, tryCatch.
  rewrite bind_get, Hc, Hws.
  assert (H : negb (configured (whatsapp_phone_number_id ws))
              || negb (configured (whatsapp_access_token ws)) = true).
  { destruct Hno as [-> | ->]; [reflexivity | apply orb_true_r]. }
  rewrite H. destruct w as [d t tr]. reflexivity.
Qed.

(** X26: in a workspace that is not configured for WhatsApp, a run of
    [processCampaign] ends [failed] whatever the status of the
    campaign, before it looks at the status or at a message: nothing
    is sent, the messages stay as they are, and the campaign is
    written [failed] with [completed_at] set.  So a campaign that was
    paused or cancelled just before does not stay so. *)
Theorem unconfigured_workspace_fails_a_paused_campaign
  (col : Collaborators) (env : Config.Environment) (campaignId : string)
  (w : World) (c : Campaign) (ws : Workspace) :
  find_campaign (db w) campaignId = Some c ->
  find_workspace (db w) (cp_workspace_id c) = Some ws ->
  configured (whatsapp_phone_number_id ws) = false
  \/ configured (whatsapp_access_token ws) = false ->
  processCampaign col env campaignId w
  = (Normal (RunFailed "WhatsApp not configured"),
     {| db := update_campaign campaignId
                (with_status Failed None (Some (clock w))) (db w);
        clock := clock w;
        trace := EvCampaignStatus campaignId Failed :: trace w |})
  /\ (cp_status c = Processing \/ cp_status c = Scheduled ->
      exists w',
        (pauseCampaign campaignId ;;; processCampaign col env campaignId) w
        = (Normal (RunFailed "WhatsApp not configured"), w')
        /\ messages (db w') = messages (db w)
        /\ trace w' = EvCampaignStatus campaignId Failed :: trace w
        /\ find_campaign (db w') campaignId
           = Some (with_status Failed None (Some (clock w))
                     (with_status Paused None None c)))
  /\ (cp_status c = Processing \/ cp_status c = Scheduled
      \/ cp_status c = Paused ->
      exists w',
        (cancelCampaign campaignId ;;; processCampaign col env campaignId) w
        = (Normal (RunFailed "WhatsApp not configured"), w')
        /\ messages (db w') = messages (db w)
        /\ trace w' = EvCampaignStatus campaignId Failed :: trace w
        /\ find_campaign (db w') campaignId
           = Some (with_status Failed None (Some (clock w))
                     (with_status Cancelled None (Some (clock w)) c))).
Proof.
  intros Hc Hws Hno. split; [exact (@unconfigured_run col env campaignId w c ws Hc Hws Hno) |].
  split; intros Hst.
  - set (w1 := {| db := update_campaign_in campaignId [Processing; Scheduled]
                          (with_status Paused None None) (db w);
                  clock := clock w; trace := trace w |}).
    assert (Hf : find_campaign (db w1) campaignId
                 = Some (with_status Paused None None c)).
    { cbn [db w1]. rewrite find_campaign_update_in by reflexivity.
      rewrite Hc. cbn. unfold status_in.
      destruct Hst as [-> | ->]; reflexivity. }
    assert (Hrun := @unconfigured_run col env campaignId w1 _ ws Hf Hws Hno).
    eexists. split.
    + change ((pauseCampaign campaignId ;;;
               processCampaign col env campaignId) w)
        with (processCampaign col env campaignId w1).
      exact Hrun.
    + cbn [db messages trace w1 clock].
      split; [reflexivity | split; [reflexivity |]].
      rewrite find_campaign_update by reflexivity.
      change (find_campaign (update_campaign_in campaignId _ _ (db w))
                campaignId) with (find_campaign (db w1) campaignId).
      now rewrite Hf.
  - set (w1 := {| db := update_campaign_in campaignId
                          [Processing; Scheduled; Paused]
                          (with_status Cancelled None (Some (clock w)))
                          (db w);
                  clock := clock w; trace := trace w |}).
    assert (Hf : find_campaign (db w1) campaignId
                 = Some (with_status Cancelled None (Some (clock w)) c)).
    { cbn [db w1]. rewrite find_campaign_update_in by reflexivity.
      rewrite Hc. cbn. unfold status_in.
      destruct Hst as [-> | [-> | ->]]; reflexivity. }
    assert (Hrun := @unconfigured_run col env campaignId w1 _ ws Hf Hws Hno).
    eexists. split.
    + change ((cancelCampaign campaignId ;;;
               processCampaign col env campaignId) w)
        with (processCampaign col env campaignId w1).
      exact Hrun.
    + cbn [db messages trace w1 clock].
      split; [reflexivity | split; [reflexivity |]].
      rewrite find_campaign_update by reflexivity.
      change (find_campaign (update_campaign_in campaignId _ _ (db w))
                campaignId) with (find_campaign (db w1) campaignId).
      now rewrite Hf.
Qed.

Lemma unconfigured_workspace_fails_a_paused_campaign_witness :
  exists w',
    (pauseCampaign "k1" ;;; processCampaign (failing []) default_environment
                              "k1") unconfigured_world
    = (Normal (RunFailed "WhatsApp not configured"), w')
    /\ find_campaign (db w') "k1"
       = Some (with_status Failed None (Some 0%Z)
                 (with_status Paused None None running_campaign)).
Proof.
  destruct (@unconfigured_workspace_fails_a_paused_campaign
              (failing []) default_environment "k1" unconfigured_world
              running_campaign
              {| ws_id := "w1"; whatsapp_phone_number_id := Some "p";
                 whatsapp_access_token := None |}
              eq_refl eq_refl (or_intror eq_refl)) as (_ & H & _).
  destruct (H (or_introl eq_refl)) as (w' & H1 & _ & _ & H4).
  exists w'. split; [exact H1 | exact H4].
Defined.

End UnconfiguredFacts.

(* ================================================================== *)
(** * Flows: triggers, branches, delays and validation              *)
(* ================================================================== *)

Module FlowMoreFacts.

Import Js WhatsApp Eff Flow FlowScheduler FlowSpec FlowRunSpec.
Import EffFacts FlowFacts RegexFacts.
Local Open Scope eff_scope.

Lemma findNodeById_id (bot : Bot) (i : string) (node : Node) :
  findNodeById bot (Some i) = Some node -> id node = i.
Proof.
  unfold findNodeById. intros H. apply find_some in H.
  destruct H as [_ H]. now apply String.eqb_eq.
Qed.

Lemma obj_has_delete (o : Obj) (k : string) : obj_has (obj_delete o k) k = false.
Proof.
  induction o as [|[k' v] o IH]; cbn; [reflexivity |].
  destruct (String.eqb k' k) eqn:E; [exact IH |]. cbn. now rewrite E.
Qed.

Lemma obj_get_app_new (o : Obj) (k : string) (v : Value) :
  obj_has o k = false -> obj_get (o ++ [(k, v)])%list k = v.
Proof.
  induction o as [|[k' v'] o IH]; cbn; intros H.
  - now rewrite String.eqb_refl.
  - apply orb_false_iff in H. destruct H as [H1 H2]. rewrite H1. now apply IH.
Qed.

(** ** A long delay *)

(** X16: a flow that a long delay suspended does not get past the delay.
    [executeDelay] leaves the conversation on the delay node, so that
    the run which the scheduler starts when [resume_at] is reached
    executes the delay node again, and no other node: it stores a new
    [resume_at], one duration after the resumption, and stops. *)
Theorem long_delay_is_taken_again_on_resumption
  (col : Collaborators) (bot : Bot) (e : Engine) (row : Context)
  (i : string) (node : Node) (duration : Z) :
  saved e = Some row ->
  current_node_id row = Some i ->
  i <> "" ->
  findNodeById bot (Some i) = Some node ->
  data node = Delay duration ->
  (30000 < duration)%Z ->
  (Z.abs (clock e + duration) <= max_time)%Z ->
  exists stamp,
    toISOString (clock e + duration) = Normal stamp
    /\ let cleared := with_variables (obj_delete (variables row) "resume_at")
                        row in
       let c' := with_variables
                   (obj_delete (variables row) "resume_at"
                    ++ [("resume_at", VStr stamp)])%list row in
       resumeDelayed col bot e
       = (Normal tt,
          {| context := c'; clock := clock e; saved := Some c';
             trace := EvSaveContext c' :: EvSaveContext c'
                      :: EvExecute i :: EvSaveContext cleared :: trace e |})
       /\ current_node_id c' = Some i
       /\ obj_get (variables c') "resume_at" = VStr stamp.
Proof.
  intros Hrow Hcur Hi Hnode Hdata Hlong Hrange.
  assert (Hne : String.eqb i "" = false) by now apply String.eqb_neq.
  assert (Hgt : (duration <=? 30000)%Z = false) by (apply Z.leb_gt; lia).
  assert (Hok : exists stamp, toISOString (clock e + duration) = Normal stamp).
  { unfold toISOString.
    assert (Hr : (Z.abs (clock e + duration) >? max_time)%Z = false)
      by (rewrite Z.gtb_ltb; apply Z.ltb_ge; exact Hrange).
    rewrite Hr. destruct (civil_from_days _) as [[y m] d]. eauto. }
  destruct Hok as (stamp & Hs). exists stamp. split; [exact Hs |].
  pose proof (findNodeById_id bot i Hnode) as Hid.
  destruct e as [ctx t sv tr]. destruct row as [cur wait vars hist].
  cbn [saved clock trace current_node_id variables] in *.
  subst sv cur.
  cbv zeta. split; [| split].
  - unfold resumeDelayed, tryCatch. rewrite bind_get.
    cbn [saved variables with_variables current_node_id waiting_for
           flow_history].
    unfold bind at 1. unfold bind at 1. cbn [modify emit].
    cbn [context clock saved trace].
    unfold execute, tryCatch. rewrite bind_get_context.
    cbn [context current_node_id nonempty with_variables]. rewrite Hne.
    cbn [negb].
    rewrite bind_ret. cbn [negb]. rewrite bind_get_context.
    rewrite bind_ret.
    unfold executeNodes. rewrite bind_get_context.
    cbn [context current_node_id with_variables]. rewrite Hnode.
    unfold maxIterations. cbn [executeNodes_loop].
    unfold executeNode. rewrite Hdata, Hid. unfold executeDelay.
    rewrite Hgt.
    cbv beta iota delta
      [bind emit modify now lift set_variable get_context set_context
         saveContext ret context clock saved trace with_variables variables
         current_node_id waiting_for flow_history negb].
    rewrite Hs.
    cbv beta iota delta
      [bind emit modify now lift set_variable get_context set_context
         saveContext ret context clock saved trace with_variables variables
         current_node_id waiting_for flow_history negb].
    unfold obj_set. rewrite obj_has_delete. reflexivity.
  - reflexivity.
  - cbn [variables with_variables].
    apply obj_get_app_new. apply obj_has_delete.
Qed.


Lemma long_delay_is_taken_again_on_resumption_witness :
  exists stamp,
    toISOString 120000 = Normal stamp
    /\ executed (trace (snd (resumeDelayed always_ok delayed_flow suspended)))
       = ["d"]
    /\ resume_time_is 120000
         (snd (resumeDelayed always_ok delayed_flow suspended)).
Proof.
  destruct (@long_delay_is_taken_again_on_resumption
              always_ok delayed_flow suspended
              {| current_node_id := Some "d"; waiting_for := None;
                 variables := [("resume_at",
                                VStr "1970-01-01T00:01:00.000Z")];
                 flow_history := ["d"] |}
              "d" {| id := "d"; data := Delay 60000 |} 60000)
    as (stamp & Hs & Hrun & _ & Hget).
  - reflexivity.
  - reflexivity.
  - discriminate.
  - reflexivity.
  - reflexivity.
  - lia.
  - vm_compute. discriminate.
  - exists stamp. split; [exact Hs |]. cbv zeta in Hrun, Hget.
    rewrite Hrun. split; [reflexivity |].
    eexists. exists stamp. split; [reflexivity | split; [exact Hs | exact Hget]].
Defined.

(** ** Condition nodes *)



(** ** A conversation that has a current node *)

(** X14: triggers are looked for only while the conversation has no
    current node, and nothing clears the current node at the end of a
    flow.  So a message that comes in after the flow has ended, even one
    that holds a keyword, starts nothing: the run executes the current
    node again.  On an [end] node nothing is sent; on a last
    [send_message] node, from which no edge leaves, the same text is
    sent again. *)
Theorem current_node_is_executed_again
  (col : Collaborators) (bot : Bot) (incomingMessage : option Incoming)
  (e : Engine) (i : string) (node : Node) :
  current_node_id (context e) = Some i ->
  i <> "" ->
  waiting_for (context e) = None ->
  findNodeById bot (Some i) = Some node ->
  (data node = End ->
   execute col bot incomingMessage e
   = (Normal tt,
      {| context := context e; clock := clock e;
         saved := Some (context e);
         trace := EvSaveContext (context e) :: EvExecute i :: trace e |}))
  /\ (forall message content media_url,
         data node = SendMessage message "text" media_url None ->
         findNextNode bot node = None ->
         interpolateVariables message (variables (context e))
         = Normal content ->
         sendOk col (S (List.length (trace e))) = true ->
         execute col bot incomingMessage e
         = (Normal tt,
            {| context := context e; clock := clock e;
               saved := Some (context e);
               trace := EvSaveContext (context e)
                        :: EvLog "outgoing" content "text"
                        :: EvSend ChText content true
                        :: EvExecute i :: trace e |})).
Proof.
  intros Hcur Hi Hwait Hnode.
  assert (Hne : String.eqb i "" = false) by now apply String.eqb_neq.
  pose proof (findNodeById_id bot i Hnode) as Hid.
  destruct e as [[cur wait vars hist] t sv tr].
  cbn [context current_node_id waiting_for variables clock saved trace] in *.
  subst cur wait.
  assert (Hstart :
    forall (k : M Engine unit),
      execute col bot incomingMessage
        {| context := {| current_node_id := Some i; waiting_for := None;
                         variables := vars; flow_history := hist |};
           clock := t; saved := sv; trace := tr |}
      = tryCatch (executeNodes col bot) (fun error => handleError col error)
          {| context := {| current_node_id := Some i; waiting_for := None;
                           variables := vars; flow_history := hist |};
             clock := t; saved := sv; trace := tr |}).
  { intros _. unfold execute, tryCatch. rewrite bind_get_context.
    cbn [context current_node_id nonempty]. rewrite Hne. cbn [negb].
    rewrite bind_ret. cbn [negb]. rewrite bind_get_context.
    cbn [context waiting_for nonempty].
    destruct incomingMessage; now rewrite bind_ret. }
  split.
  - intros Hdata. rewrite (Hstart (ret tt)).
    unfold tryCatch, executeNodes. rewrite bind_get_context.
    cbn [context current_node_id]. rewrite Hnode.
    unfold maxIterations. cbn [executeNodes_loop].
    unfold executeNode. rewrite Hdata, Hid. reflexivity.
  - intros message content media_url Hdata Hnext Hint Hsend.
    rewrite (Hstart (ret tt)).
    unfold tryCatch, executeNodes. rewrite bind_get_context.
    cbn [context current_node_id]. rewrite Hnode.
    unfold maxIterations. cbn [executeNodes_loop].
    unfold executeNode. rewrite Hdata, Hid. unfold executeSendMessage.
    cbv beta iota delta
      [bind emit modify get_context lift context clock saved trace
         variables].
    rewrite Hint. cbn [String.eqb Ascii.eqb Bool.eqb].
    unfold send.
    cbv beta iota delta [bind emit modify get context clock saved trace].
    cbn [List.length]. rewrite Hsend.
    cbv beta iota delta
      [bind emit modify get ret logMessage context clock saved trace negb].
    rewrite Hnext. reflexivity.
Qed.

Lemma current_node_is_executed_again_witness :
  execute always_ok greeting_flow (reply "hello") (engine_at "z" None 0)
  = (Normal tt,
     {| context := context (engine_at "z" None 0); clock := 0;
        saved := Some (context (engine_at "z" None 0));
        trace := [EvSaveContext (context (engine_at "z" None 0));
                  EvExecute "z"] |}).
Proof.
  apply (proj1 (@current_node_is_executed_again
                  always_ok greeting_flow (reply "hello")
                  (engine_at "z" None 0) "z" {| id := "z"; data := End |}
                  eq_refl ltac:(discriminate) eq_refl eq_refl)).
  reflexivity.
Defined.

(** ** Errors *)

(** X18: [execute] reports an error of the run to the contact instead of
    throwing it: it throws only when the apology itself cannot be sent,
    and the error is then the one of this send, which carries the
    message of the answer of the API when there is one and [Failed to
    send message] otherwise. *)
Theorem execute_throws_only_when_the_apology_fails
  (col : Collaborators) (bot : Bot) (incomingMessage : option Incoming)
  (e : Engine) (error : string) :
  fst (execute col bot incomingMessage e) = Throw error ->
  exists rest,
    trace (snd (execute col bot incomingMessage e))
    = EvSend ChText apology false :: rest
    /\ sendOk col (List.length rest) = false
    /\ error = send_error (apiMessage col (List.length rest))
                 "Failed to send message".
Proof.
  unfold execute, tryCatch.
  match goal with
  | |- context [let (_, _) := ?body e in _] =>
      destruct (body e) as [[u|err|] e1]
  end; cbn [fst snd]; try discriminate.
  destruct e1 as [c1 t1 sv1 tr1]. unfold handleError, send.
  cbv beta iota delta [bind emit modify get context clock saved trace].
  fold apology.
  destruct (sendOk col (List.length tr1)) eqn:Hok;
    cbv beta iota delta
      [bind emit modify get ret throw logMessage context clock saved trace
         fst snd].
  - discriminate.
  - intros H. inversion H. exists tr1. auto.
Qed.

Lemma execute_throws_only_when_the_apology_fails_witness :
  exists rest,
    trace (snd (execute never_sends greeting_flow (reply "hello")
                  (engine_at "m" None 0)))
    = EvSend ChText apology false :: rest
    /\ sendOk never_sends (List.length rest) = false
    /\ "Invalid phone number"
       = send_error (apiMessage never_sends (List.length rest))
           "Failed to send message".
Proof.
  apply (@execute_throws_only_when_the_apology_fails
           never_sends greeting_flow (reply "hello") (engine_at "m" None 0)
           "Invalid phone number").
  vm_compute. reflexivity.
Defined.




(** ** Triggers *)





(** ** Validation of a phone number *)

Lemma digits_to_the_end :
  forall (s : string) (n : nat) (pos0 : bool),
    n <= 14 ->
    match rep (CsClass false [CiDigit]) (match_terms [TAssertEnd])
            (N.of_nat n) 1 (Some 14%N) pos0 s with
    | Some _ => true
    | None => false
    end
    = all_digits s && (1 <=? n + String.length s)
      && (n + String.length s <=? 14).
Proof.
  induction s as [|c s IH]; intros n pos0 Hn; cbn [rep all_digits String.length].
  - rewrite Nat.add_0_r. cbn [andb].
    replace (n <=? 14) with true by (symmetry; now apply Nat.leb_le).
    rewrite andb_true_r.
    destruct (1 <=? N.of_nat n)%N eqn:E;
      [apply N.leb_le in E | apply N.leb_gt in E].
    + cbn [match_terms]. symmetry. apply Nat.leb_le. lia.
    + symmetry. apply Nat.leb_gt. lia.
  - assert (Hstop : (if (1 <=? N.of_nat n)%N
                     then match_terms [TAssertEnd] pos0 (String c s)
                     else None) = None)
      by (destruct (1 <=? N.of_nat n)%N; reflexivity).
    rewrite Hstop.
    assert (Hm : cs_matches (CsClass false [CiDigit]) c = is_digit c).
    { cbn. now rewrite orb_false_r. }
    rewrite Hm. unfold below_max.
    destruct (N.of_nat n <? 14)%N eqn:E.
    + apply N.ltb_lt in E. cbn [andb].
      destruct (is_digit c); cbn [andb]; [| reflexivity].
      replace (N.succ (N.of_nat n)) with (N.of_nat (S n)) by lia.
      specialize (IH (S n) false ltac:(lia)).
      rewrite Nat.add_succ_r.
      change (S (n + String.length s)) with (S n + String.length s).
      destruct (rep _ _ (N.of_nat (S n)) 1 (Some 14%N) false s);
        rewrite <- IH; reflexivity.
    + apply N.ltb_ge in E. cbn [andb].
      destruct (Nat.leb_spec (n + S (String.length s)) 14); [lia |].
      now rewrite andb_false_r.
Qed.

(** X19: the [phone] validation accepts exactly the E.164 numbers: a
    plus sign, a digit from 1 to 9 and one to fourteen more digits, with
    nothing before or after; a reply without text is refused. *)
Theorem phone_validation_accepts_exactly_e164 :
  (forall s, validateResponse (Some s) (Some ValPhone) = e164 s)
  /\ validateResponse None (Some ValPhone) = false.
Proof.
  split; [| reflexivity].
  intros s. unfold validateResponse. cbn [toString]. unfold phone_regex.
  rewrite test_anchored. unfold lit, one. cbn [match_terms].
  rewrite rep_once.
  destruct s as [|plus s1]; [reflexivity |].
  cbn [cs_matches e164]. rewrite Ascii.eqb_sym.
  destruct (Ascii.eqb plus "+"); [| now destruct s1].
  cbn [match_terms]. rewrite rep_once.
  destruct s1 as [|d ds]; [reflexivity |].
  assert (Hd : cs_matches (CsClass false [CiRange "1" "9"]) d
               = (49 <=? nat_of_ascii d) && (nat_of_ascii d <=? 57)).
  { cbn. now rewrite orb_false_r. }
  rewrite Hd. cbn [andb].
  destruct ((49 <=? nat_of_ascii d) && (nat_of_ascii d <=? 57));
    [| reflexivity].
  cbn [match_terms andb].
  exact (@digits_to_the_end ds 0 false ltac:(lia)).
Qed.

End FlowMoreFacts.

Module EmailFacts.
Import Js Flow TemplateSpec RegexFacts EmailSpec.

Lemma at_least_one_char (s : string) :
  (1 <= 0 + N.of_nat (String.length s))%N <-> s <> "".
Proof. destruct s; cbn; split; intros H; try lia; congruence. Qed.

(** X20: a reply passes the e-mail check exactly when it reads [l@m.t]
    with three parts that are not empty and hold neither white space nor
    [@]; a missing reply does not pass. *)
Theorem email_validation_accepts_exactly_the_shape :
  (forall s, validateResponse (Some s) (Some ValEmail) = true
             <-> email_shape s)
  /\ validateResponse None (Some ValEmail) = false.
Proof.
  split; [| reflexivity].
  intros s. cbn [validateResponse toString]. unfold email_regex.
  rewrite test_anchored.
  set (other := CsClass true [CiSpace; CiChar "@"]).
  assert (Hother : forall c, cs_matches other c = email_char c).
  { intros c. now destruct c as [[] [] [] [] [] [] [] []]. }
  assert (Hall : forall x, all_chars (cs_matches other) x
                           = all_chars email_char x).
  { induction x as [|c x IH]; cbn [all_chars]; [reflexivity |].
    now rewrite Hother, IH. }
  transitivity
    (match_terms [some other; lit "@"; some other; lit "."; some other;
                  TAssertEnd] true s <> None).
  { destruct (match_terms _ true s); split; congruence. }
  unfold some, lit, one. cbn [match_terms].
  rewrite rep_unbounded. unfold email_shape. split.
  - intros (l & p1 & -> & Hl & Hnl & Hk1).
    apply at_least_one_char in Hnl.
    destruct l as [|cl l']; [congruence |].
    rewrite rep_once in Hk1.
    destruct p1 as [|c1 p2]; [congruence |].
    destruct (cs_matches (CsChar "@") c1) eqn:E1; [| congruence].
    cbn [cs_matches] in E1. apply Ascii.eqb_eq in E1. subst c1.
    apply rep_unbounded in Hk1.
    destruct Hk1 as (m & p3 & -> & Hm & Hnm & Hk3).
    apply at_least_one_char in Hnm.
    destruct m as [|cm m']; [congruence |].
    rewrite rep_once in Hk3.
    destruct p3 as [|c3 p4]; [congruence |].
    destruct (cs_matches (CsChar ".") c3) eqn:E3; [| congruence].
    cbn [cs_matches] in E3. apply Ascii.eqb_eq in E3. subst c3.
    apply rep_unbounded in Hk3.
    destruct Hk3 as (t & p5 & -> & Ht & Hnt & Hk5).
    apply at_least_one_char in Hnt.
    destruct t as [|ct t']; [congruence |].
    destruct p5 as [|c5 p5]; [| congruence].
    exists (String cl l'), (String cm m'), (String ct t').
    rewrite <- !Hall, Hl, Hm, Ht, app_nil_r_s.
    repeat split; congruence.
  - intros (l & m & t & -> & Hnl & Hnm & Hnt & Hl & Hm & Ht).
    rewrite <- Hall in Hl, Hm, Ht.
    exists l, ("@" ++ m ++ "." ++ t). repeat split; [exact Hl | |].
    { now apply at_least_one_char. }
    destruct l as [|cl l']; [congruence |].
    rewrite rep_once. cbn [append]. cbn [cs_matches Ascii.eqb Bool.eqb].
    cbv beta iota.
    apply rep_unbounded.
    exists m, ("." ++ t). repeat split; [exact Hm | |].
    { now apply at_least_one_char. }
    destruct m as [|cm m']; [congruence |].
    rewrite rep_once. cbn [append]. cbn [cs_matches Ascii.eqb Bool.eqb].
    cbv beta iota.
    apply rep_unbounded.
    exists t, "". repeat split; [now rewrite app_nil_r_s | exact Ht | |].
    { now apply at_least_one_char. }
    destruct t as [|ct t']; [congruence |].
    discriminate.
Qed.

End EmailFacts.

Module BranchFacts.
Import Js WhatsApp Eff Flow FlowSpec BranchSpec EffFacts FlowFacts.
Local Open Scope eff_scope.



End BranchFacts.

(* ================================================================== *)
(** * The queue over several calls                                  *)
(* ================================================================== *)

Module DLQMoreFacts.

Import Js DLQ DLQSpec DLQStats DLQRunSpec DLQFacts.

(** ** An entry without retries *)





(** ** Statistics *)

Lemma counts_add_up (data : list Entry) :
  List.length data
  = count StatusFailed data + count Retrying data
    + count Resolved data + count Archived data.
Proof.
  unfold count. induction data as [|e data IH]; cbn; [reflexivity |].
  destruct (status e); cbn; lia.
Qed.

(** X25: [getStats]: every entry of the workspace is counted under
    exactly one status, so that the four counters add up to the total;
    adding an entry to the queue moves the counters of its workspace by
    one under [retrying], and those of no other workspace. *)
Theorem getStats_counts_each_entry_once :
  (forall w d,
      total (getStats w d)
      = failed (getStats w d) + retrying (getStats w d)
        + resolved (getStats w d) + archived (getStats w d))
  /\ (forall now w t p err m d,
         getStats w (addToDLQ now w t p err m d)
         = {| total := S (total (getStats w d));
              failed := failed (getStats w d);
              retrying := S (retrying (getStats w d));
              resolved := resolved (getStats w d);
              archived := archived (getStats w d) |})
  /\ (forall now w w' t p err m d,
         w' <> w ->
         getStats w (addToDLQ now w' t p err m d) = getStats w d).
Proof.
  split; [| split].
  - intros w d. unfold getStats. cbn. apply counts_add_up.
  - intros now w t p err m d. unfold getStats, addToDLQ, count.
    cbn [entries set_entries]. rewrite filter_app. cbn [filter workspace_id].
    rewrite String.eqb_refl. rewrite !filter_app, !length_app. cbn.
    f_equal; lia.
  - intros now w w' t p err m d Hne. unfold getStats, addToDLQ.
    cbn [entries set_entries]. rewrite filter_app. cbn [filter workspace_id].
    apply String.eqb_neq in Hne. rewrite Hne. now rewrite app_nil_r.
Qed.

Lemma getStats_counts_each_entry_once_witness :
  getStats "w1" (addToDLQ 100 "w2" Broadcast [] "timeout" 3 one_entry)
  = getStats "w1" one_entry.
Proof.
  apply (proj2 (proj2 getStats_counts_each_entry_once)).
  discriminate.
Defined.

End DLQMoreFacts.
